(** * The MobX derivation core (src/core/derivation.ts)

    A shallow embedding of the dependency-tracking and staleness engine:
    the four-valued derivation state, [shouldCompute],
    [checkIfStateModificationsAreAllowed], [trackDerivedFunction],
    [bindDependencies], [clearObserving], the untracked scope and
    [changeDependenciesStateTo0].

    Objects (atoms, computed values, reactions) are references; the heap is
    kept field by field, every field a map from the object's identity to
    the field's value, so a write to one field of one object leaves
    everything else alone by computation.  The code runs in a small monad
    of state, exceptions and a trace of the calls that leave this file
    ([obj.get()] and [derivation.onBecomeStale()]). *)

From Stdlib Require Import NArith ZArith Lia String.
From stdpp Require Import base decidable option list strings.

(** ** Data model *)

(** Object identity: the reference of an atom, computed value or reaction. *)
Definition Id := nat.

(** enum IDerivationState (lines 8-26). *)
Inductive IDerivationState : Type :=
| NOT_TRACKING
| UP_TO_DATE
| POSSIBLY_STALE
| STALE.

#[global] Instance IDerivationState_eq_dec : EqDecision IDerivationState.
Proof. solve_decision. Defined.

(** The numeric value the enum gives every member. *)
Definition state_num (s : IDerivationState) : Z :=
  match s with
  | NOT_TRACKING => -1
  | UP_TO_DATE => 0
  | POSSIBLY_STALE => 1
  | STALE => 2
  end.

(** The three classes of object the engine meets.  An atom is observable
    only, a reaction is a derivation only, a computed value is both. *)
Inductive NodeKind : Type :=
| KAtom
| KComputedValue
| KReaction.

#[global] Instance NodeKind_eq_dec : EqDecision NodeKind.
Proof. solve_decision. Defined.

(** Values thrown in JavaScript: what [fail] throws (with its message),
    the TypeError of a property access on [undefined] or [null], and
    whatever user code throws. *)
Inductive Exn : Type :=
| Failure (message : string)
| TypeError
| Raised (payload : Z).

#[global] Instance Exn_eq_dec : EqDecision Exn.
Proof. solve_decision. Defined.

(** Values returned by user code (a derivation's body, a thunk, [get]). *)
Definition Val := Z.

(** class CaughtException (lines 49-53) next to a plain result: what
    [trackDerivedFunction] hands back. *)
Inductive TrackResult : Type :=
| Returned (v : Val)
| CaughtException (cause : Exn).

(** isCaughtException (lines 55-57). *)
Definition isCaughtException (r : TrackResult) : bool :=
  match r with
  | CaughtException _ => true
  | Returned _ => false
  end.

(** A JavaScript array of object references; [None] is a hole
    ([new Array(n)] has [n] of them) and reads as [undefined]. *)
Abbreviation Arr := (list (option Id)).

(** [arr[i] = x]: inside the array the slot is overwritten, past its end
    the array grows, the gap filled with holes. *)
Definition arr_set (a : Arr) (i : nat) (x : Id) : Arr :=
  if decide (i < length a) then <[i := Some x]> a
  else a ++ replicate (i - length a) None ++ [Some x].

(** [arr[i]]: [undefined] in a hole and past the end. *)
Definition arr_get (a : Arr) (i : nat) : option Id := mjoin (a !! i).

(** [arr.length = n]. *)
Definition arr_set_length (a : Arr) (n : nat) : Arr :=
  take n a ++ replicate (n - length a) None.

(** A JavaScript number that holds a count ([globalState.runId], the
    [runId] of a derivation).  Numbers are IEEE 754 doubles: every integer
    up to 2^53 is one, above it only the integers of 53 significant bits.
    [number_round m] is the number an arithmetic result of exact value [m]
    is rounded to, the nearest one, a tie going to the even significand. *)
Definition number_round (m : N) : N :=
  if (m <? 2 ^ 53)%N then m
  else
    let shift := (N.log2 m - 52)%N in
    let significand := N.shiftr m shift in
    let rest := N.land m (N.ones shift) in
    let half := N.shiftl 1 (shift - 1) in
    let kept :=
      if (rest <? half)%N then significand
      else if (half <? rest)%N then (significand + 1)%N
      else if N.even significand then significand
      else (significand + 1)%N in
    N.shiftl kept shift.

(** [++x] on such a number: [x + 1], rounded.  Below 2^53 the sum is
    exact; 2^53 + 1 is no number and rounds back to 2^53, so a counter
    that has reached 2^53 stays there. *)
Definition number_increment (x : N) : N := number_round (x + 1).
Arguments number_increment : simpl never.

(** The heap and [globalState].  IObservable fields first, IDerivation
    fields next, the globals last; of observable.ts and globalstate.ts,
    which are not part of the sources, the fields derivation.ts reads and
    writes.  A computed value uses both groups under one identity.  Every
    evaluation allocates a fresh [newObserving] array and clearObserving a
    fresh empty one, so no two derivations share an array and the arrays
    are kept by value. *)
Record World : Type := mkWorld {
  observers : Id -> list Id;
  diffValue : Id -> Z;
  lowestObserverState : Id -> IDerivationState;
  name : Id -> string;
  observing : Id -> list Id;
  newObserving : Id -> option Arr;
  dependenciesState : Id -> IDerivationState;
  runId : Id -> N;
  unboundDepsCount : Id -> nat;
  trackingDerivation : option Id;
  globalRunId : N;
  computationDepth : nat;
  allowStateChanges : bool;
  strictMode : bool
}.

(** Pointwise update of one object's field. *)
Definition upd {V : Type} (f : Id -> V) (k : Id) (v : V) : Id -> V :=
  fun x => if decide (x = k) then v else f x.

Definition set_observers (c : Id) (v : list Id) (w : World) : World :=
  mkWorld (upd (observers w) c v) (diffValue w) (lowestObserverState w)
    (name w) (observing w) (newObserving w) (dependenciesState w) (runId w)
    (unboundDepsCount w) (trackingDerivation w) (globalRunId w)
    (computationDepth w) (allowStateChanges w) (strictMode w).

Definition set_diffValue (c : Id) (v : Z) (w : World) : World :=
  mkWorld (observers w) (upd (diffValue w) c v) (lowestObserverState w)
    (name w) (observing w) (newObserving w) (dependenciesState w) (runId w)
    (unboundDepsCount w) (trackingDerivation w) (globalRunId w)
    (computationDepth w) (allowStateChanges w) (strictMode w).

Definition set_lowestObserverState (c : Id) (v : IDerivationState)
    (w : World) : World :=
  mkWorld (observers w) (diffValue w) (upd (lowestObserverState w) c v)
    (name w) (observing w) (newObserving w) (dependenciesState w) (runId w)
    (unboundDepsCount w) (trackingDerivation w) (globalRunId w)
    (computationDepth w) (allowStateChanges w) (strictMode w).

Definition set_observing (d : Id) (v : list Id) (w : World) : World :=
  mkWorld (observers w) (diffValue w) (lowestObserverState w)
    (name w) (upd (observing w) d v) (newObserving w) (dependenciesState w)
    (runId w) (unboundDepsCount w) (trackingDerivation w) (globalRunId w)
    (computationDepth w) (allowStateChanges w) (strictMode w).

Definition set_newObserving (d : Id) (v : option Arr) (w : World) : World :=
  mkWorld (observers w) (diffValue w) (lowestObserverState w)
    (name w) (observing w) (upd (newObserving w) d v) (dependenciesState w)
    (runId w) (unboundDepsCount w) (trackingDerivation w) (globalRunId w)
    (computationDepth w) (allowStateChanges w) (strictMode w).

Definition set_dependenciesState (d : Id) (v : IDerivationState)
    (w : World) : World :=
  mkWorld (observers w) (diffValue w) (lowestObserverState w)
    (name w) (observing w) (newObserving w) (upd (dependenciesState w) d v)
    (runId w) (unboundDepsCount w) (trackingDerivation w) (globalRunId w)
    (computationDepth w) (allowStateChanges w) (strictMode w).

Definition set_runId (d : Id) (v : N) (w : World) : World :=
  mkWorld (observers w) (diffValue w) (lowestObserverState w)
    (name w) (observing w) (newObserving w) (dependenciesState w)
    (upd (runId w) d v) (unboundDepsCount w) (trackingDerivation w)
    (globalRunId w) (computationDepth w) (allowStateChanges w) (strictMode w).

Definition set_unboundDepsCount (d : Id) (v : nat) (w : World) : World :=
  mkWorld (observers w) (diffValue w) (lowestObserverState w)
    (name w) (observing w) (newObserving w) (dependenciesState w)
    (runId w) (upd (unboundDepsCount w) d v) (trackingDerivation w)
    (globalRunId w) (computationDepth w) (allowStateChanges w) (strictMode w).

Definition set_trackingDerivation (v : option Id) (w : World) : World :=
  mkWorld (observers w) (diffValue w) (lowestObserverState w)
    (name w) (observing w) (newObserving w) (dependenciesState w)
    (runId w) (unboundDepsCount w) v (globalRunId w)
    (computationDepth w) (allowStateChanges w) (strictMode w).

Definition set_globalRunId (v : N) (w : World) : World :=
  mkWorld (observers w) (diffValue w) (lowestObserverState w)
    (name w) (observing w) (newObserving w) (dependenciesState w)
    (runId w) (unboundDepsCount w) (trackingDerivation w) v
    (computationDepth w) (allowStateChanges w) (strictMode w).

(** ** The monad: state, exceptions, and a trace of outgoing calls *)

(** How a JavaScript call ends. *)
Inductive Completion (A : Type) : Type :=
| Normal (a : A)
| Throw (e : Exn).
Arguments Normal {A} a.
Arguments Throw {A} e.

(** Calls that leave derivation.ts, in the order they were made. *)
Inductive Event : Type :=
| EvGet (obj : Id)
| EvOnBecomeStale (derivation : Id).

#[global] Instance Event_eq_dec : EqDecision Event.
Proof. solve_decision. Defined.

Record Res (A : Type) : Type := mkRes {
  outcome : Completion A;
  world : World;
  trace : list Event
}.
Arguments mkRes {A} outcome world trace.
Arguments outcome {A} r.
Arguments world {A} r.
Arguments trace {A} r.

Definition M (A : Type) : Type := World -> Res A.

Definition ret {A : Type} (a : A) : M A :=
  fun w => mkRes (Normal a) w [].

Definition throw {A : Type} (e : Exn) : M A :=
  fun w => mkRes (Throw e) w [].

Definition bindM {A B : Type} (m : M A) (k : A -> M B) : M B :=
  fun w =>
    let r := m w in
    match outcome r with
    | Normal a =>
        let r' := k a (world r) in
        mkRes (outcome r') (world r') (trace r ++ trace r')
    | Throw e => mkRes (Throw e) (world r) (trace r)
    end.

(** [try { m } catch (e) { h e }]. *)
Definition try_catch {A : Type} (m : M A) (h : Exn -> M A) : M A :=
  fun w =>
    let r := m w in
    match outcome r with
    | Normal a => r
    | Throw e =>
        let r' := h e (world r) in
        mkRes (outcome r') (world r') (trace r ++ trace r')
    end.

Notation "'let*' x ':=' m 'in' k" := (bindM m (fun x => k))
  (at level 10, x name, m at level 100, k at level 200).
Notation "'do' m 'then' k" := (bindM m (fun _ => k))
  (at level 10, m at level 100, k at level 200).

(** Reading and writing the heap. *)
Definition reads {A : Type} (f : World -> A) : M A :=
  fun w => mkRes (Normal (f w)) w [].

Definition modify (f : World -> World) : M unit :=
  fun w => mkRes (Normal tt) (f w) [].

(** A call that leaves the file: run the callee, record the call. *)
Definition external {A : Type} (ev : Event)
    (callee : World -> Completion A * World) : M A :=
  fun w => mkRes (fst (callee w)) (snd (callee w)) [ev].

(** [if (c) m] with no else branch. *)
Definition when (c : bool) (m : M unit) : M unit :=
  if c then m else ret tt.

(** [while (i--) { body(arr[i]) }]: the array is walked from its last
    element down to its first; a body that reads a property of
    [undefined] raises a TypeError. *)
Fixpoint while_down (arr : list Id) (i : nat) (body : Id -> M unit)
    : M unit :=
  match i with
  | 0 => ret tt
  | S i' =>
      match arr !! i' with
      | Some x => do body x then while_down arr i' body
      | None => throw TypeError
      end
  end.

(** ** Collaborators outside derivation.ts *)

(** Modelled from the spec: observable.ts (addObserver) is not part of the
    sources.  The spec gives every cell a set of observing derivations
    with add and remove; derivation.ts reads that set as the array
    [observers] ([atom.observers.length]).  Subscribing puts the
    derivation into the array; nothing else of the cell changes. *)
Definition addObserver (observable node : Id) : M unit :=
  modify (fun w =>
    set_observers observable (observers w observable ++ [node]) w).

(** Modelled from the spec: observable.ts (removeObserver) is not part of
    the sources.  Unsubscribing takes the derivation out of the cell's
    observers. *)
Definition removeObserver (observable node : Id) : M unit :=
  modify (fun w =>
    set_observers observable
      (filter (fun x => x <> node) (observers w observable)) w).

(** Modelled from the spec: observable.ts (reportObserved) is not part of
    the sources.  Per the spec every read of a cell during an evaluation
    registers the cell in the pending-read buffer of the current tracking
    derivation, at the position given by its unbound count; the buffer may
    hold the same cell more than once.  A read outside any tracking
    derivation registers nothing. *)
Definition reportObserved (observable : Id) : M unit :=
  let* tracking := reads trackingDerivation in
  match tracking with
  | None => ret tt
  | Some derivation =>
      let* buffer := reads (fun w => newObserving w derivation) in
      match buffer with
      | None => throw TypeError
      | Some arr =>
          let* n := reads (fun w => unboundDepsCount w derivation) in
          do modify (set_newObserving derivation
                       (Some (arr_set arr n observable))) then
          modify (set_unboundDepsCount derivation (S n))
      end
  end.

(** Modelled from the spec: utils.ts (fail) is not part of the sources; a
    rejected mutation is a failure raised to the caller, carrying the
    message. *)
Definition fail (message : string) : M unit :=
  throw (Failure message).

Section Derivation.

(** The class of every object; fixed at construction. *)
Variable kind : Id -> NodeKind.

(** [ComputedValue.get] (computedvalue.ts): to this file an arbitrary
    piece of code that ends normally or throws and may change the heap. *)
Variable get : Id -> World -> Completion Val * World.

(** The derivation's [onBecomeStale] capability, supplied by the reaction
    or computed value that owns it. *)
Variable onBecomeStale : Id -> World -> Completion unit * World.

(** The message table of messages.ts. *)
Variable getMessage : string -> string.

(** isComputedValue (computedvalue.ts): the object is a computed value. *)
Definition isComputedValue (obj : Id) : bool :=
  bool_decide (kind obj = KComputedValue).

(** [(dep as any as IDerivation).dependenciesState]: [undefined] on a
    plain atom, which has no such field. *)
Definition dependenciesState_of (w : World) (dep : Id)
    : option IDerivationState :=
  match kind dep with
  | KAtom => None
  | KComputedValue | KReaction => Some (dependenciesState w dep)
  end.

(** [a > b] on a possibly undefined left operand: [undefined > b] is
    false. *)
Definition state_gt (a : option IDerivationState) (b : IDerivationState)
    : bool :=
  match a with
  | Some s => (state_num b <? state_num s)%Z
  | None => false
  end.

(** ** The functions of derivation.ts *)

(** untrackedStart (lines 227-231). *)
Definition untrackedStart : M (option Id) :=
  let* prev := reads trackingDerivation in
  do modify (set_trackingDerivation None) then
  ret prev.

(** untrackedEnd (lines 233-235). *)
Definition untrackedEnd (prev : option Id) : M unit :=
  modify (set_trackingDerivation prev).

(** untracked (lines 220-225). *)
Definition untracked (action : M Val) : M Val :=
  let* prev := untrackedStart in
  let* res := action in
  do untrackedEnd prev then
  ret res.

(** changeDependenciesStateTo0 (lines 241-248). *)
Definition changeDependenciesStateTo0 (derivation : Id) : M unit :=
  let* s := reads (fun w => dependenciesState w derivation) in
  if decide (s = UP_TO_DATE) then ret tt
  else
    do modify (set_dependenciesState derivation UP_TO_DATE) then
    let* obs := reads (fun w => observing w derivation) in
    while_down obs (length obs)
      (fun o => modify (set_lowestObserverState o UP_TO_DATE)).

(** The loop of shouldCompute (lines 81-98) followed by lines 99-101;
    [todo] is [l - i], the iterations still to run.  The [try] around
    [obj.get()] reports whether the call threw. *)
Fixpoint shouldCompute_scan (derivation : Id) (prevUntracked : option Id)
    (obs : list Id) (i todo : nat) : M bool :=
  match todo with
  | 0 =>
      do changeDependenciesStateTo0 derivation then
      do untrackedEnd prevUntracked then
      ret false
  | S todo' =>
      match obs !! i with
      | Some obj =>
          if isComputedValue obj then
            let* threw :=
              try_catch
                (do external (EvGet obj) (get obj) then ret false)
                (fun _ => ret true) in
            if threw : bool then
              do untrackedEnd prevUntracked then
              ret true
            else
              let* s := reads (fun w => dependenciesState w derivation) in
              if decide (s = STALE) then
                do untrackedEnd prevUntracked then
                ret true
              else shouldCompute_scan derivation prevUntracked obs (S i) todo'
          else shouldCompute_scan derivation prevUntracked obs (S i) todo'
      | None => shouldCompute_scan derivation prevUntracked obs (S i) todo'
      end
  end.

(** shouldCompute (lines 70-104). *)
Definition shouldCompute (derivation : Id) : M bool :=
  let* s := reads (fun w => dependenciesState w derivation) in
  match s with
  | UP_TO_DATE => ret false
  | NOT_TRACKING | STALE => ret true
  | POSSIBLY_STALE =>
      let* prevUntracked := untrackedStart in
      let* obs := reads (fun w => observing w derivation) in
      shouldCompute_scan derivation prevUntracked obs 0 (length obs)
  end.

(** isComputingDerivation (lines 106-108). *)
Definition isComputingDerivation : M bool :=
  reads (fun w => bool_decide (trackingDerivation w <> None)).

(** checkIfStateModificationsAreAllowed (lines 110-117). *)
Definition checkIfStateModificationsAreAllowed (atom : Id) : M unit :=
  let* hasObservers :=
    reads (fun w => bool_decide (0 < length (observers w atom))) in
  let* depth := reads computationDepth in
  let* atomName := reads (fun w => name w atom) in
  do when (bool_decide (0 < depth) && hasObservers)
       (fail (String.append (getMessage "m031") atomName)) then
  let* allow := reads allowStateChanges in
  let* strict := reads strictMode in
  when (negb allow && hasObservers)
    (fail (String.append
             (getMessage (if strict : bool then "m030a" else "m030b"))
             atomName)).

(** First loop of bindDependencies (lines 161-176) over the pending-read
    buffer; [todo] is [l - i].  It hands back the buffer compacted in
    place, [i0] and [lowestNewObservingDerivationState]. *)
Fixpoint bind_first_pass (observing : Arr) (i i0 : nat)
    (lowest : IDerivationState) (todo : nat)
    : M (Arr * nat * IDerivationState) :=
  match todo with
  | 0 => ret (observing, i0, lowest)
  | S todo' =>
      match arr_get observing i with
      | None => throw TypeError
      | Some dep =>
          let* dv := reads (fun w => diffValue w dep) in
          let* kept :=
            (if decide (dv = 0%Z) then
               do modify (set_diffValue dep 1) then
               ret (if decide (i0 <> i) then arr_set observing i0 dep
                    else observing, S i0)
             else ret (observing, i0)) in
          let* ds := reads (fun w => dependenciesState_of w dep) in
          bind_first_pass (fst kept) (S i) (snd kept)
            (if state_gt ds lowest then default lowest ds else lowest)
            todo'
      end
  end.

(** The dependency list held by a trimmed buffer. *)
Definition arr_elems (a : Arr) : list Id := omap id a.

(** bindDependencies (lines 149-208).  [derivation.observing] and the
    local [observing] are one array; on every path that returns nothing
    reads the field before the array is trimmed (line 177), so the model
    stores the array into the field there.  The non-null assertion on
    [newObserving] fails as the TypeError of the first access to the
    array.

    The heap types [observing] as the code declares it, [IObservable[]]:
    a list of references without holes.  On the two paths that raise the
    TypeError (a null buffer, a hole below [unboundDepsCount]) line 153
    has already stored null or the untrimmed buffer into the field, values
    of no such type; there the model keeps the previous list, so after
    such a failure it gives the outcome and not the [observing] field of
    the derivation. *)
Definition bindDependencies (derivation : Id) : M unit :=
  let* prevObserving := reads (fun w => observing w derivation) in
  let* buffer := reads (fun w => newObserving w derivation) in
  do modify (set_newObserving derivation None) then
  match buffer with
  | None => throw TypeError
  | Some arr =>
      let* l := reads (fun w => unboundDepsCount w derivation) in
      let* pass := bind_first_pass arr 0 0 UP_TO_DATE l in
      let i0 := snd (fst pass) in
      let lowestNewObservingDerivationState := snd pass in
      let observing := arr_elems (arr_set_length (fst (fst pass)) i0) in
      do modify (set_observing derivation observing) then
      do while_down prevObserving (length prevObserving)
           (fun dep =>
              let* dv := reads (fun w => diffValue w dep) in
              do when (bool_decide (dv = 0%Z))
                   (removeObserver dep derivation) then
              modify (set_diffValue dep 0)) then
      do while_down observing i0
           (fun dep =>
              let* dv := reads (fun w => diffValue w dep) in
              when (bool_decide (dv = 1%Z))
                (do modify (set_diffValue dep 0) then
                 addObserver dep derivation)) then
      if decide (lowestNewObservingDerivationState <> UP_TO_DATE) then
        do modify (set_dependenciesState derivation
                     lowestNewObservingDerivationState) then
        external (EvOnBecomeStale derivation) (onBecomeStale derivation)
      else ret tt
  end.

(** trackDerivedFunction (lines 124-142).  [context] only binds [this]
    inside [f] and is part of [f] here. *)
Definition trackDerivedFunction (derivation : Id) (f : M Val)
    : M TrackResult :=
  do changeDependenciesStateTo0 derivation then
  let* n := reads (fun w => length (observing w derivation)) in
  do modify (set_newObserving derivation (Some (replicate (n + 100) None)))
  then
  do modify (set_unboundDepsCount derivation 0) then
  let* rid := reads (fun w => number_increment (globalRunId w)) in
  do modify (set_globalRunId rid) then
  do modify (set_runId derivation rid) then
  let* prevTracking := reads trackingDerivation in
  do modify (set_trackingDerivation (Some derivation)) then
  let* result :=
    try_catch (let* v := f in ret (Returned v))
              (fun e => ret (CaughtException e)) in
  do modify (set_trackingDerivation prevTracking) then
  do bindDependencies derivation then
  ret result.

(** clearObserving (lines 210-218). *)
Definition clearObserving (derivation : Id) : M unit :=
  let* obs := reads (fun w => observing w derivation) in
  do modify (set_observing derivation []) then
  do while_down obs (length obs)
       (fun o => removeObserver o derivation) then
  modify (set_dependenciesState derivation NOT_TRACKING).

End Derivation.

(** ** Specification vocabulary *)

(** The ordered-unique sequence of a list of reads: every cell once, at
    the place of its first occurrence. *)
Fixpoint first_occurrences (l : list Id) : list Id :=
  match l with
  | [] => []
  | x :: r => x :: filter (fun y => y <> x) (first_occurrences r)
  end.

(** A body that reads the given cells in order. *)
Fixpoint read_all (cells : list Id) : M unit :=
  match cells with
  | [] => ret tt
  | c :: rest => do reportObserved c then read_all rest
  end.

(** What a backward loop over [l] with a pure body [g] does to the heap:
    the last element first, the first element last. *)
Definition run_pure (g : Id -> World -> World) (l : list Id) (w : World)
    : World :=
  foldr g w l.

(** The dependencies shouldCompute forces: the computed values, in the
    order of the dependency list. *)
Definition computed_cells (kind : Id -> NodeKind) (l : list Id) : list Id :=
  filter (fun c => kind c = KComputedValue) l.

(** [quiet_scan kind get d l w w']: forcing the computed values of [l] in
    order, starting in [w], every [get] returns normally and leaves
    derivation [d] in a state other than STALE; [w'] is the heap after
    the last of them. *)
Inductive quiet_scan (kind : Id -> NodeKind)
    (get : Id -> World -> Completion Val * World) (d : Id)
    : list Id -> World -> World -> Prop :=
| quiet_done w : quiet_scan kind get d [] w w
| quiet_skip c l w w' :
    kind c <> KComputedValue ->
    quiet_scan kind get d l w w' ->
    quiet_scan kind get d (c :: l) w w'
| quiet_force c l w v w1 w' :
    kind c = KComputedValue ->
    get c w = (Normal v, w1) ->
    dependenciesState w1 d <> STALE ->
    quiet_scan kind get d l w1 w' ->
    quiet_scan kind get d (c :: l) w w'.

(** *** The loops of bindDependencies as heap transformers *)

(** Lines 165-169 on one entry of the buffer: a cell whose marker is 0 is
    marked. *)
Definition mark_step (dep : Id) (w : World) : World :=
  if decide (diffValue w dep = 0%Z) then set_diffValue dep 1 w else w.

Definition mark_all (rs : list Id) (w : World) : World :=
  foldl (fun w dep => mark_step dep w) w rs.

(** The entries the first loop keeps, given the markers it starts from. *)
Fixpoint kept_reads (marker : Id -> Z) (rs : list Id) : list Id :=
  match rs with
  | [] => []
  | x :: r =>
      if decide (marker x = 0%Z) then x :: kept_reads (upd marker x 1%Z) r
      else kept_reads marker r
  end.

(** Lines 173-175: the running value of
    [lowestNewObservingDerivationState]. *)
Definition raise_lowest (kind : Id -> NodeKind)
    (state : Id -> IDerivationState) (lowest : IDerivationState) (dep : Id)
    : IDerivationState :=
  match kind dep with
  | KAtom => lowest
  | KComputedValue | KReaction =>
      if (state_num lowest <? state_num (state dep))%Z then state dep
      else lowest
  end.

Definition lowest_new_state (kind : Id -> NodeKind)
    (state : Id -> IDerivationState) (lowest : IDerivationState)
    (rs : list Id) : IDerivationState :=
  foldl (raise_lowest kind state) lowest rs.

(** Lines 184-188 on one former dependency. *)
Definition unsubscribe_step (d dep : Id) (w : World) : World :=
  set_diffValue dep 0
    (if decide (diffValue w dep = 0%Z)
     then set_observers dep (filter (fun x => x <> d) (observers w dep)) w
     else w).

(** Lines 195-199 on one new dependency. *)
Definition subscribe_step (d dep : Id) (w : World) : World :=
  if decide (diffValue w dep = 1%Z)
  then set_observers dep (observers w dep ++ [d]) (set_diffValue dep 0 w)
  else w.

(** The heap bindDependencies reaches before line 204, when the buffer
    holds the reads [rs]. *)
Definition bound_world (d : Id) (rs : list Id) (w : World) : World :=
  let new := kept_reads (diffValue w) rs in
  run_pure (subscribe_step d) new
    (run_pure (unsubscribe_step d) (observing w d)
       (set_observing d new (mark_all rs (set_newObserving d None w)))).

(** The pending-read buffer of [d] holds exactly the reads [rs]. *)
Definition buffer_holds (w : World) (d : Id) (rs : list Id) : Prop :=
  unboundDepsCount w d = length rs /\
  exists arr, newObserving w d = Some arr /\
              forall j, j < length rs -> arr_get arr j = rs !! j.

(** Two heaps agree on every field but [observers] and [diffValue]. *)
Definition same_outside_subscriptions (w w' : World) : Prop :=
  lowestObserverState w' = lowestObserverState w /\
  name w' = name w /\ observing w' = observing w /\
  newObserving w' = newObserving w /\
  dependenciesState w' = dependenciesState w /\
  runId w' = runId w /\ unboundDepsCount w' = unboundDepsCount w /\
  trackingDerivation w' = trackingDerivation w /\
  globalRunId w' = globalRunId w /\
  computationDepth w' = computationDepth w /\
  allowStateChanges w' = allowStateChanges w /\
  strictMode w' = strictMode w.

(** clearObserving's loop body (line 215) on one dependency. *)
Definition remove_step (d dep : Id) (w : World) : World :=
  set_observers dep (filter (fun x => x <> d) (observers w dep)) w.

(** *** The subscription invariant *)

(** How often derivation [d] occurs in a list of observers. *)
Definition occurrences (d : Id) (l : list Id) : nat :=
  length (filter (fun x => x = d) l).

(** Derivation [d] is held exactly once by every cell of its dependency
    list and by no other cell. *)
Definition subscribed_once (w : World) (d : Id) : Prop :=
  forall c, occurrences d (observers w c) =
            if decide (c ∈ observing w d) then 1 else 0.

(** A derivation is among a cell's observers iff the cell is in the
    derivation's dependency list. *)
Definition subscriptions_agree (w : World) : Prop :=
  forall d c, d ∈ observers w c <-> c ∈ observing w d.

(** The heap outside a bind pass: every diff marker is neutral, every
    dependency list is free of duplicates, and the two directions of the
    observer graph agree. *)
Definition well_formed (w : World) : Prop :=
  (forall c, diffValue w c = 0%Z) /\
  (forall d, NoDup (observing w d)) /\
  subscriptions_agree w.

(** *** The state a bind step raises the derivation to *)

(** [m] is the greatest staleness among UP_TO_DATE and the states of the
    cells of [rs] that are derivations: it is never below UP_TO_DATE, it
    bounds every such state, and it is UP_TO_DATE or the state of one of
    them. *)
Definition staleness_maximum (kind : Id -> NodeKind) (w : World)
    (rs : list Id) (m : IDerivationState) : Prop :=
  (state_num UP_TO_DATE <= state_num m)%Z /\
  (forall c, c ∈ rs -> kind c <> KAtom ->
             (state_num (dependenciesState w c) <= state_num m)%Z) /\
  (m = UP_TO_DATE \/
   exists c, c ∈ rs /\ kind c <> KAtom /\ dependenciesState w c = m).

(** Two heaps agree on every field but the pending-read buffer and its
    count. *)
Definition same_outside_buffer (w w' : World) : Prop :=
  observers w' = observers w /\ diffValue w' = diffValue w /\
  lowestObserverState w' = lowestObserverState w /\
  name w' = name w /\ observing w' = observing w /\
  dependenciesState w' = dependenciesState w /\
  runId w' = runId w /\
  trackingDerivation w' = trackingDerivation w /\
  globalRunId w' = globalRunId w /\
  computationDepth w' = computationDepth w /\
  allowStateChanges w' = allowStateChanges w /\
  strictMode w' = strictMode w.

(** Two heaps agree on everything but the staleness fields
    ([dependenciesState] and [lowestObserverState]). *)
Definition same_bookkeeping (w w' : World) : Prop :=
  observers w' = observers w /\ diffValue w' = diffValue w /\
  name w' = name w /\ observing w' = observing w /\
  newObserving w' = newObserving w /\ runId w' = runId w /\
  unboundDepsCount w' = unboundDepsCount w /\
  trackingDerivation w' = trackingDerivation w /\
  globalRunId w' = globalRunId w /\
  computationDepth w' = computationDepth w /\
  allowStateChanges w' = allowStateChanges w /\
  strictMode w' = strictMode w.

(** A thunk that asks isComputingDerivation and returns 1 for yes, 0 for
    no. *)
Definition computing_probe : M Val :=
  let* computing := isComputingDerivation in
  ret (if computing : bool then 1%Z else 0%Z).

(** A computation that leaves [globalState.trackingDerivation] as it found
    it, however it ends. *)
Definition keeps_tracking {A : Type} (m : M A) : Prop :=
  forall w, trackingDerivation (world (m w)) = trackingDerivation w.

(** The heaps a program reaches from [w0] by evaluating derivations whose
    bodies read cells and then return or throw, by clearing derivations,
    by asking shouldCompute and by forcing derivations up to date, in any
    order. *)
Inductive reachable_from (kind : Id -> NodeKind)
    (get : Id -> World -> Completion Val * World)
    (onBecomeStale : Id -> World -> Completion unit * World)
    (w0 : World) : World -> Prop :=
| reach_start : reachable_from kind get onBecomeStale w0 w0
| reach_evaluate w d cells v :
    reachable_from kind get onBecomeStale w0 w ->
    reachable_from kind get onBecomeStale w0
      (world (trackDerivedFunction kind onBecomeStale d
                (do read_all cells then ret v) w))
| reach_evaluate_failing w d cells e :
    reachable_from kind get onBecomeStale w0 w ->
    reachable_from kind get onBecomeStale w0
      (world (trackDerivedFunction kind onBecomeStale d
                (do read_all cells then throw e) w))
| reach_clear w d :
    reachable_from kind get onBecomeStale w0 w ->
    reachable_from kind get onBecomeStale w0 (world (clearObserving d w))
| reach_shouldCompute w d :
    reachable_from kind get onBecomeStale w0 w ->
    reachable_from kind get onBecomeStale w0
      (world (shouldCompute kind get d w))
| reach_up_to_date w d :
    reachable_from kind get onBecomeStale w0 w ->
    reachable_from kind get onBecomeStale w0
      (world (changeDependenciesStateTo0 d w)).

(** ** Sample heaps *)

(** Identities below 10 are atoms, from 10 to 19 computed values, from 20
    on reactions. *)
Definition sample_kind (o : Id) : NodeKind :=
  if decide (o < 10) then KAtom
  else if decide (o < 20) then KComputedValue
  else KReaction.

(** A heap in which nothing observes anything and nobody is tracking. *)
Definition idle_world : World :=
  mkWorld (fun _ => []) (fun _ => 0%Z) (fun _ => UP_TO_DATE)
    (fun _ => "cell"%string) (fun _ => []) (fun _ => None)
    (fun _ => NOT_TRACKING) (fun _ => 0%N) (fun _ => 0)
    None 0%N 0 true false.

(** A callback that does nothing. *)
Definition quiet_onBecomeStale (d : Id) (w : World)
    : Completion unit * World :=
  (Normal tt, w).

(** A message table that answers with the key itself. *)
Definition sample_messages (key : string) : string := key.

(** A reaction that is up to date and reads atom 1, whose floor another
    observer has raised to STALE. *)
Definition raised_floor_world : World :=
  set_lowestObserverState 1 STALE
    (set_dependenciesState 20 UP_TO_DATE
       (set_observing 20 [1] (set_observers 1 [20] idle_world))).

(** The same reaction, possibly stale. *)
Definition possibly_stale_world : World :=
  set_dependenciesState 20 POSSIBLY_STALE raised_floor_world.

(** Reaction 20 is collecting reads. *)
Definition tracking_world : World :=
  set_trackingDerivation (Some 20) idle_world.

(** A [get] under which computed value 11 turns reaction 20 STALE and
    computed value 12 throws; every other one returns quietly. *)
Definition sample_get (o : Id) (w : World) : Completion Val * World :=
  if decide (o = 11) then (Normal 1%Z, set_dependenciesState 20 STALE w)
  else if decide (o = 12) then (Throw (Raised 3), w)
  else (Normal 0%Z, w).

(** Reaction 20 read [10; 1; 11; 12], reaction 21 read [1; 10], reaction
    22 read [10; 12; 11]; all three are possibly stale and reaction 30 is
    tracking. *)
Definition scan_world : World :=
  set_trackingDerivation (Some 30)
    (set_dependenciesState 20 POSSIBLY_STALE
       (set_dependenciesState 21 POSSIBLY_STALE
          (set_dependenciesState 22 POSSIBLY_STALE
             (set_observing 20 [10; 1; 11; 12]
                (set_observing 21 [1; 10]
                   (set_observing 22 [10; 12; 11] idle_world)))))).

(** Reaction 20 is up to date and its buffer holds one read, of computed
    value 10, which is not tracking. *)
Definition untracked_dependency_world : World :=
  set_unboundDepsCount 20 1
    (set_newObserving 20 (Some [Some 10; None; None])
       (set_dependenciesState 20 UP_TO_DATE idle_world)).

(** Reaction 20 is up to date, depends on atom 2 and computed value 12,
    and its buffer holds the reads [1; 10; 1; 11]; computed value 10 is
    STALE, 11 is POSSIBLY_STALE.  Reaction 21 depends on atom 2 as
    well. *)
Definition pending_world : World :=
  set_unboundDepsCount 20 4
    (set_newObserving 20
       (Some [Some 1; Some 10; Some 1; Some 11; None; None])
       (set_observing 20 [2; 12]
          (set_observing 21 [2]
             (set_observers 2 [21; 20]
                (set_observers 12 [20]
                   (set_dependenciesState 10 STALE
                      (set_dependenciesState 11 POSSIBLY_STALE
                         (set_dependenciesState 12 UP_TO_DATE
                            (set_dependenciesState 21 UP_TO_DATE
                               (set_dependenciesState 20 UP_TO_DATE
                                  idle_world)))))))))).

(** Reaction 20 depends on atoms 1 and 5 and is subscribed to both. *)
Definition subscribed_world : World :=
  set_dependenciesState 20 STALE
    (set_observing 20 [1; 5]
       (set_observers 1 [20] (set_observers 5 [20] idle_world))).

(** A body that installs another tracking derivation and then throws. *)
Definition hijacking_body : M Val :=
  do modify (set_trackingDerivation (Some 99)) then throw (Raised 4).

(** Reaction 20 at the bind step of an evaluation during which it was
    made STALE again: it depends on atom 1 from the run before, and its
    buffer (allocated with 1 + 100 slots) holds the one read of this run,
    of atom 1. *)
Definition restaled_world : World :=
  set_unboundDepsCount 20 1
    (set_newObserving 20 (Some (Some 1 :: replicate 100 None))
       (set_dependenciesState 20 STALE
          (set_observing 20 [1] (set_observers 1 [20] idle_world)))).

(** A body that reads atom 1 and leaves its own reaction 20 STALE, as a
    write to a cell the reaction observes does. *)
Definition self_invalidating_body : M Val :=
  do reportObserved 1 then
  do modify (set_dependenciesState 20 STALE) then
  ret 0%Z.

(** Atom 1 is observed by reaction 20, a computation is two levels deep
    and state changes are not allowed (strict mode). *)
Definition computing_locked_world : World :=
  let observed := set_observers 1 [20] idle_world in
  mkWorld (observers observed) (diffValue observed)
    (lowestObserverState observed) (name observed) (observing observed)
    (newObserving observed) (dependenciesState observed) (runId observed)
    (unboundDepsCount observed) (Some 20) 0%N 2 false true.

(** The run counter has reached 2^53. *)
Definition saturated_world : World :=
  set_globalRunId (2 ^ 53)%N idle_world.

(** ** Reasoning about the monad *)

Lemma run_reads {A} (f : World -> A) w :
  reads f w = mkRes (Normal (f w)) w [].
Proof. reflexivity. Qed.

Lemma run_modify f w : modify f w = mkRes (Normal tt) (f w) [].
Proof. reflexivity. Qed.

Lemma run_bind_normal {A B} (m : M A) (k : A -> M B) w a w1 t1 :
  m w = mkRes (Normal a) w1 t1 ->
  bindM m k w =
    mkRes (outcome (k a w1)) (world (k a w1)) (t1 ++ trace (k a w1)).
Proof. intros E. unfold bindM. rewrite E. reflexivity. Qed.

Lemma res_eta {A} (r : Res A) : mkRes (outcome r) (world r) (trace r) = r.
Proof. destruct r; reflexivity. Qed.

Lemma upd_eq {V} (f : Id -> V) k v : upd f k v k = v.
Proof. unfold upd. destruct (decide (k = k)); congruence. Qed.

Lemma upd_neq {V} (f : Id -> V) k v x : x <> k -> upd f k v x = f x.
Proof. unfold upd. destruct (decide (x = k)); congruence. Qed.

Ltac run_monad :=
  unfold bindM, ret, reads, modify, throw, when, fail, external, try_catch;
  simpl.

Lemma while_down_pure (body : Id -> M unit) (g : Id -> World -> World)
    (arr : list Id) :
  (forall x w, body x w = mkRes (Normal tt) (g x w) []) ->
  forall i w, i <= length arr ->
    while_down arr i body w =
      mkRes (Normal tt) (run_pure g (take i arr) w) [].
Proof.
  intros Hbody. induction i as [|i IH]; intros w Hi.
  - reflexivity.
  - destruct (lookup_lt_is_Some_2 arr i) as [x Hx]; [lia|].
    simpl. rewrite Hx.
    erewrite run_bind_normal by apply Hbody.
    rewrite IH by lia. simpl.
    erewrite take_S_r by exact Hx.
    unfold run_pure. rewrite foldr_app. reflexivity.
Qed.

Lemma while_down_all_pure (body : Id -> M unit) (g : Id -> World -> World)
    (arr : list Id) w :
  (forall x w, body x w = mkRes (Normal tt) (g x w) []) ->
  while_down arr (length arr) body w =
    mkRes (Normal tt) (run_pure g arr w) [].
Proof.
  intros Hbody. rewrite (while_down_pure body g arr Hbody) by lia.
  rewrite firstn_all. reflexivity.
Qed.

Lemma string_append_cancel_r (s1 s2 n : string) :
  String.append s1 n = String.append s2 n -> s1 = s2.
Proof.
  assert (Hlen : forall a b,
    String.length (String.append a b) = String.length a + String.length b).
  { induction a; intros; simpl; [reflexivity | rewrite IHa; reflexivity]. }
  revert s2. induction s1 as [|a s1 IH]; intros [|b s2] E.
  - reflexivity.
  - apply (f_equal String.length) in E. rewrite !Hlen in E.
    simpl in E. lia.
  - apply (f_equal String.length) in E. rewrite !Hlen in E.
    simpl in E. lia.
  - change (String a (String.append s1 n) = String b (String.append s2 n))
      in E.
    injection E as -> E. f_equal. apply IH, E.
Qed.

(** ** The mutation guard *)

(** C7, as the code has it.  checkIfStateModificationsAreAllowed changes
    nothing and calls nothing.  On a cell with an observer it raises the
    m031 failure when the computation depth is above zero, whether or not
    state changes are allowed; when state changes are not allowed it
    raises as well, and with the depth at zero that failure is the m030a
    or m030b one, which differs from the m031 one as soon as the message
    table keeps the three apart.  With depth zero and state changes
    allowed it returns normally. *)
Theorem checkIfStateModificationsAreAllowed_guard
    (getMessage : string -> string) (atom : Id) (w : World)
    (Hm030a : getMessage "m031" <> getMessage "m030a")
    (Hm030b : getMessage "m031" <> getMessage "m030b") :
  let r := checkIfStateModificationsAreAllowed getMessage atom w in
  let computation_failure :=
    Failure (String.append (getMessage "m031") (name w atom)) in
  let mutation_failure :=
    Failure (String.append
               (getMessage (if strictMode w then "m030a" else "m030b"))
               (name w atom)) in
  world r = w /\ trace r = [] /\
  (0 < length (observers w atom) -> 0 < computationDepth w ->
     outcome r = Throw computation_failure) /\
  (0 < length (observers w atom) -> allowStateChanges w = false ->
     (exists e, outcome r = Throw e) /\
     (computationDepth w = 0 -> outcome r = Throw mutation_failure)) /\
  mutation_failure <> computation_failure /\
  (computationDepth w = 0 -> allowStateChanges w = true ->
     outcome r = Normal tt).
Proof.
  intros r cf mf. subst r cf mf.
  assert (Hdistinct :
    Failure (String.append
               (getMessage (if strictMode w then "m030a" else "m030b"))
               (name w atom)) <>
    Failure (String.append (getMessage "m031") (name w atom))).
  { intros E. injection E as E. apply string_append_cancel_r in E.
    destruct (strictMode w); congruence. }
  unfold checkIfStateModificationsAreAllowed. run_monad.
  repeat case_bool_decide; simpl;
    destruct (allowStateChanges w) eqn:Hallow; simpl;
    repeat match goal with
           | |- _ /\ _ => split
           | |- _ -> _ => intro
           end;
    first [ reflexivity | lia | congruence | exact Hdistinct
          | eexists; reflexivity | exfalso; apply Hdistinct; assumption ].
Qed.

Lemma checkIfStateModificationsAreAllowed_guard_witness :
  let observed := set_observers 1 [20] idle_world in
  let computing :=
    mkWorld (observers observed) (diffValue observed)
      (lowestObserverState observed) (name observed) (observing observed)
      (newObserving observed) (dependenciesState observed) (runId observed)
      (unboundDepsCount observed) (Some 20) 0%N 2 false true in
  let locked :=
    mkWorld (observers observed) (diffValue observed)
      (lowestObserverState observed) (name observed) (observing observed)
      (newObserving observed) (dependenciesState observed) (runId observed)
      (unboundDepsCount observed) None 0%N 0 false true in
  outcome (checkIfStateModificationsAreAllowed sample_messages 1 observed)
    = Normal tt /\
  outcome (checkIfStateModificationsAreAllowed sample_messages 1 computing)
    = Throw (Failure "m031cell") /\
  outcome (checkIfStateModificationsAreAllowed sample_messages 1 locked)
    = Throw (Failure "m030acell") /\
  world (checkIfStateModificationsAreAllowed sample_messages 1 locked)
    = locked.
Proof.
  intros observed computing locked.
  assert (Ha : sample_messages "m031" <> sample_messages "m030a")
    by discriminate.
  assert (Hb : sample_messages "m031" <> sample_messages "m030b")
    by discriminate.
  pose proof (checkIfStateModificationsAreAllowed_guard sample_messages 1
                observed Ha Hb) as (_ & _ & _ & _ & _ & Hok).
  pose proof (checkIfStateModificationsAreAllowed_guard sample_messages 1
                computing Ha Hb) as (_ & _ & Hdepth & _).
  pose proof (checkIfStateModificationsAreAllowed_guard sample_messages 1
                locked Ha Hb) as (Hsame & _ & _ & Hlocked & _).
  split; [apply Hok; reflexivity|].
  split; [apply Hdepth; simpl; lia|].
  split; [|exact Hsame].
  destruct Hlocked as [_ H]; [simpl; lia | reflexivity |].
  apply H. reflexivity.
Defined.

(** C7 as worded fails when both conditions hold: on an observed cell,
    inside a computation and with state changes not allowed, the depth
    check of line 113 comes first and the failure raised is the m031 one,
    the failure of the first condition and no distinct one. *)
Lemma checkIfStateModificationsAreAllowed_depth_check_first :
  ~ (let w := computing_locked_world in
     0 < length (observers w 1) -> allowStateChanges w = false ->
     exists e,
       outcome (checkIfStateModificationsAreAllowed sample_messages 1 w) =
         Throw e /\
       e <> Failure (String.append (sample_messages "m031") (name w 1))).
Proof.
  intros H. destruct H as (e & He & Hne).
  - vm_compute. lia.
  - reflexivity.
  - vm_compute in He. injection He as <-. apply Hne. reflexivity.
Qed.

(** C10.  A cell nobody observes passes the guard whatever the
    computation depth and the two flags are. *)
Theorem checkIfStateModificationsAreAllowed_unobserved
    (getMessage : string -> string) (atom : Id) (w : World) :
  observers w atom = [] ->
  checkIfStateModificationsAreAllowed getMessage atom w =
    mkRes (Normal tt) w [].
Proof.
  intros Hobs.
  unfold checkIfStateModificationsAreAllowed. run_monad.
  rewrite Hobs. simpl.
  destruct (bool_decide (0 < computationDepth w)); simpl;
    destruct (allowStateChanges w); reflexivity.
Qed.

Lemma checkIfStateModificationsAreAllowed_unobserved_witness :
  checkIfStateModificationsAreAllowed sample_messages 1
    (mkWorld (fun _ => []) (fun _ => 0%Z) (fun _ => UP_TO_DATE)
       (fun _ => "cell"%string) (fun _ => []) (fun _ => None)
       (fun _ => NOT_TRACKING) (fun _ => 0%N) (fun _ => 0)
       (Some 20) 0%N 3 false true) =
  mkRes (Normal tt)
    (mkWorld (fun _ => []) (fun _ => 0%Z) (fun _ => UP_TO_DATE)
       (fun _ => "cell"%string) (fun _ => []) (fun _ => None)
       (fun _ => NOT_TRACKING) (fun _ => 0%N) (fun _ => 0)
       (Some 20) 0%N 3 false true) [].
Proof.
  apply checkIfStateModificationsAreAllowed_unobserved. reflexivity.
Defined.

(** ** changeDependenciesStateTo0 *)

Lemma reset_floor_effect (l : list Id) (w : World) :
  let w' := run_pure (fun o => set_lowestObserverState o UP_TO_DATE) l w in
  same_bookkeeping w w' /\
  dependenciesState w' = dependenciesState w /\
  forall c, lowestObserverState w' c =
            if decide (c ∈ l) then UP_TO_DATE else lowestObserverState w c.
Proof.
  induction l as [|x l IH]; cbn [run_pure foldr] in *; cbv zeta in *.
  - unfold same_bookkeeping. split; [tauto|]. split; [reflexivity|].
    intros c. rewrite decide_False; [reflexivity | apply not_elem_of_nil].
  - destruct IH as (Hb & Hs & Hf). unfold same_bookkeeping in *.
    destruct Hb as (?&?&?&?&?&?&?&?&?&?&?&?).
    split; [simpl; tauto|]. split; [simpl; assumption|].
    intros c. simpl. unfold upd. rewrite Hf.
    destruct (decide (c = x)) as [->|Hne].
    + rewrite decide_True by left. reflexivity.
    + destruct (decide (c ∈ l)) as [Hin|Hnin].
      * rewrite decide_True by (right; exact Hin). reflexivity.
      * rewrite decide_False; [reflexivity|].
        intros Hc. apply elem_of_cons in Hc. tauto.
Qed.

(** What changeDependenciesStateTo0 does to the heap: it always returns,
    calls nothing, and either leaves the heap as it is (derivation already
    up to date) or sets the state and the floors. *)
Lemma changeDependenciesStateTo0_effect (d : Id) (w : World) :
  exists w',
    changeDependenciesStateTo0 d w = mkRes (Normal tt) w' [] /\
    same_bookkeeping w w' /\
    (forall x, dependenciesState w' x =
               if decide (x = d) then UP_TO_DATE else dependenciesState w x) /\
    (dependenciesState w d = UP_TO_DATE -> w' = w) /\
    (dependenciesState w d <> UP_TO_DATE ->
     forall c, lowestObserverState w' c =
               if decide (c ∈ observing w d) then UP_TO_DATE
               else lowestObserverState w c).
Proof.
  unfold changeDependenciesStateTo0.
  destruct (decide (dependenciesState w d = UP_TO_DATE)) as [Hs|Hs].
  - exists w. unfold bindM, reads. simpl.
    rewrite decide_True by exact Hs.
    repeat split; try done.
    intros x. destruct (decide (x = d)) as [->|]; done.
  - set (w1 := set_dependenciesState d UP_TO_DATE w).
    pose proof (reset_floor_effect (observing w d) w1) as (Hb & Hst & Hf).
    exists (run_pure (fun o => set_lowestObserverState o UP_TO_DATE)
              (observing w d) w1).
    split.
    { unfold bindM at 1. unfold reads at 1. simpl.
      rewrite decide_False by exact Hs.
      unfold bindM, reads, modify. simpl.
      rewrite (while_down_all_pure _
                 (fun o => set_lowestObserverState o UP_TO_DATE))
        by reflexivity.
      simpl. reflexivity. }
    split; [exact Hb|]. split; [|split].
    + intros x. rewrite Hst. simpl. reflexivity.
    + intros E. contradiction.
    + intros _ c. exact (Hf c).
Qed.

(** C9, as the code has it.  After changeDependenciesStateTo0 the
    derivation is UP_TO_DATE whatever its state was.  The floors of its
    dependencies are reset to UP_TO_DATE when the derivation was not
    UP_TO_DATE before the call; when it already was, the call returns at
    once and the heap is untouched. *)
Theorem changeDependenciesStateTo0_resets (d : Id) (w : World) :
  let r := changeDependenciesStateTo0 d w in
  outcome r = Normal tt /\
  dependenciesState (world r) d = UP_TO_DATE /\
  (dependenciesState w d <> UP_TO_DATE ->
   forall c, c ∈ observing (world r) d ->
             lowestObserverState (world r) c = UP_TO_DATE) /\
  (dependenciesState w d = UP_TO_DATE -> world r = w).
Proof.
  destruct (changeDependenciesStateTo0_effect d w)
    as (w' & Hrun & Hb & Hst & Hsame & Hfloor).
  intros r. subst r. rewrite Hrun. simpl.
  split; [reflexivity|]. split; [|split].
  - rewrite Hst. rewrite decide_True by reflexivity. reflexivity.
  - intros Hs c Hc. rewrite (Hfloor Hs).
    destruct Hb as (_&_&_&Hobs&_). rewrite Hobs in Hc.
    rewrite decide_True by exact Hc. reflexivity.
  - exact Hsame.
Qed.

Lemma changeDependenciesStateTo0_resets_witness :
  let r := changeDependenciesStateTo0 20 possibly_stale_world in
  dependenciesState possibly_stale_world 20 = POSSIBLY_STALE /\
  lowestObserverState possibly_stale_world 1 = STALE /\
  dependenciesState (world r) 20 = UP_TO_DATE /\
  lowestObserverState (world r) 1 = UP_TO_DATE.
Proof.
  intros r.
  pose proof (changeDependenciesStateTo0_resets 20 possibly_stale_world)
    as (_ & Hs & Hf & _).
  split; [reflexivity|]. split; [reflexivity|]. split; [exact Hs|].
  apply Hf.
  - discriminate.
  - vm_compute. left.
Defined.

(** C9 as worded fails on a derivation that is already
    UP_TO_DATE: the call returns before it reaches the floors. *)
Lemma changeDependenciesStateTo0_up_to_date_keeps_floor :
  ~ (let r := changeDependenciesStateTo0 20 raised_floor_world in
     dependenciesState (world r) 20 = UP_TO_DATE /\
     forall c, c ∈ observing (world r) 20 ->
               lowestObserverState (world r) c = UP_TO_DATE).
Proof.
  intros [_ H]. specialize (H 1).
  assert (Hin : 1 ∈ observing
            (world (changeDependenciesStateTo0 20 raised_floor_world)) 20)
    by (vm_compute; left).
  specialize (H Hin). vm_compute in H. discriminate.
Qed.

(** ** The untracked scope *)

Lemma untracked_normal (action : M Val) (w : World) v w1 t :
  action (set_trackingDerivation None w) = mkRes (Normal v) w1 t ->
  untracked action w =
    mkRes (Normal v) (set_trackingDerivation (trackingDerivation w) w1) t.
Proof.
  intros E. unfold untracked, untrackedStart, untrackedEnd.
  unfold bindM, reads, modify, ret. simpl. rewrite E. simpl.
  rewrite !app_nil_r. reflexivity.
Qed.

Lemma untracked_throw (action : M Val) (w : World) e w1 t :
  action (set_trackingDerivation None w) = mkRes (Throw e) w1 t ->
  untracked action w = mkRes (Throw e) w1 t.
Proof.
  intros E. unfold untracked, untrackedStart, untrackedEnd.
  unfold bindM, reads, modify, ret. simpl. rewrite E. simpl.
  reflexivity.
Qed.

(** C4.  The code at the failing input: reaction 20 is tracking, the
    thunk raises, and when the failure reaches the caller nobody is
    tracking any more; untracked has no handler around [action()], so
    untrackedEnd is skipped. *)
Theorem untracked_failure_leaves_tracking_suspended :
  let r := untracked (throw (Raised 7)) tracking_world in
  trackingDerivation tracking_world = Some 20 /\
  outcome r = Throw (Raised 7) /\
  trackingDerivation (world r) = None.
Proof. vm_compute. repeat split. Qed.

(** ** shouldCompute *)

Section ShouldCompute.

Variable kind : Id -> NodeKind.
Variable get : Id -> World -> Completion Val * World.

Lemma computed_cells_app l1 l2 :
  computed_cells kind (l1 ++ l2) =
    computed_cells kind l1 ++ computed_cells kind l2.
Proof. unfold computed_cells. apply filter_app. Qed.

Lemma isComputedValue_true c :
  kind c = KComputedValue -> isComputedValue kind c = true.
Proof. intros H. unfold isComputedValue. apply bool_decide_eq_true_2, H. Qed.

Lemma isComputedValue_false c :
  kind c <> KComputedValue -> isComputedValue kind c = false.
Proof. intros H. unfold isComputedValue. apply bool_decide_eq_false_2, H. Qed.

(** One iteration on a dependency that is not a computed value. *)
Lemma scan_step_skip d prev obs i todo c w :
  obs !! i = Some c -> kind c <> KComputedValue ->
  shouldCompute_scan kind get d prev obs i (S todo) w =
    shouldCompute_scan kind get d prev obs (S i) todo w.
Proof.
  intros Hc Hk. simpl. rewrite Hc, (isComputedValue_false c Hk).
  reflexivity.
Qed.

(** One iteration on a computed value whose [get] returns and leaves the
    derivation other than STALE. *)
Lemma scan_step_quiet d prev obs i todo c w v w1 :
  obs !! i = Some c -> kind c = KComputedValue ->
  get c w = (Normal v, w1) -> dependenciesState w1 d <> STALE ->
  shouldCompute_scan kind get d prev obs i (S todo) w =
    let r := shouldCompute_scan kind get d prev obs (S i) todo w1 in
    mkRes (outcome r) (world r) (EvGet c :: trace r).
Proof.
  intros Hc Hk Hget Hs. simpl. rewrite Hc, (isComputedValue_true c Hk).
  unfold bindM at 1. unfold try_catch, bindM, external, ret.
  rewrite Hget. simpl.
  rewrite decide_False by exact Hs. reflexivity.
Qed.

(** One iteration on a computed value whose [get] turns the derivation
    STALE: the loop is left with [true]. *)
Lemma scan_step_stale d prev obs i todo c w v w1 :
  obs !! i = Some c -> kind c = KComputedValue ->
  get c w = (Normal v, w1) -> dependenciesState w1 d = STALE ->
  shouldCompute_scan kind get d prev obs i (S todo) w =
    mkRes (Normal true) (set_trackingDerivation prev w1) [EvGet c].
Proof.
  intros Hc Hk Hget Hs. simpl. rewrite Hc, (isComputedValue_true c Hk).
  unfold bindM at 1. unfold try_catch, bindM, external, ret.
  rewrite Hget. simpl.
  rewrite decide_True by exact Hs. reflexivity.
Qed.

(** One iteration on a computed value whose [get] throws: the loop is
    left with [true] and the exception goes no further. *)
Lemma scan_step_throw d prev obs i todo c w e w1 :
  obs !! i = Some c -> kind c = KComputedValue ->
  get c w = (Throw e, w1) ->
  shouldCompute_scan kind get d prev obs i (S todo) w =
    mkRes (Normal true) (set_trackingDerivation prev w1) [EvGet c].
Proof.
  intros Hc Hk Hget. simpl. rewrite Hc, (isComputedValue_true c Hk).
  unfold bindM at 1. unfold try_catch, bindM, external, ret.
  rewrite Hget. simpl. reflexivity.
Qed.

(** A quiet stretch of the dependency list is walked in order, each of its
    computed values forced once. *)
Lemma scan_quiet_prefix d prev pre w w1 :
  quiet_scan kind get d pre w w1 ->
  forall done rest obs,
    obs = done ++ pre ++ rest ->
    shouldCompute_scan kind get d prev obs (length done)
        (length pre + length rest) w =
      let r := shouldCompute_scan kind get d prev obs
                 (length done + length pre) (length rest) w1 in
      mkRes (outcome r) (world r)
        ((EvGet <$> computed_cells kind pre) ++ trace r).
Proof.
  induction 1 as [w | c l w w' Hk Hq IH | c l w v w1 w' Hk Hget Hs Hq IH];
    intros done rest obs Hobs.
  - simpl. rewrite Nat.add_0_r. rewrite res_eta. reflexivity.
  - assert (Hc : obs !! length done = Some c).
    { rewrite Hobs. rewrite lookup_app_r by lia.
      rewrite Nat.sub_diag. reflexivity. }
    cbn [length Nat.add].
    rewrite (scan_step_skip d prev obs _ _ c w Hc Hk).
    specialize (IH (done ++ [c]) rest obs).
    rewrite length_app in IH. simpl in IH.
    replace (length done + 1) with (S (length done)) in IH by lia.
    rewrite IH by (rewrite Hobs, <- app_assoc; reflexivity).
    replace (S (length done) + length l)
      with (length done + S (length l)) by lia.
    unfold computed_cells. rewrite filter_cons_False by exact Hk.
    reflexivity.
  - assert (Hc : obs !! length done = Some c).
    { rewrite Hobs. rewrite lookup_app_r by lia.
      rewrite Nat.sub_diag. reflexivity. }
    cbn [length Nat.add].
    rewrite (scan_step_quiet d prev obs _ _ c w v w1 Hc Hk Hget Hs).
    specialize (IH (done ++ [c]) rest obs).
    rewrite length_app in IH. simpl in IH.
    replace (length done + 1) with (S (length done)) in IH by lia.
    cbv zeta. rewrite IH by (rewrite Hobs, <- app_assoc; reflexivity).
    replace (S (length done) + length l)
      with (length done + S (length l)) by lia.
    unfold computed_cells. rewrite filter_cons_True by exact Hk.
    reflexivity.
Qed.

(** Every scan either runs quietly to the end of the list or stops at a
    first computed value that throws or turns the derivation STALE. *)
Lemma scan_cases d l w :
  (exists w1, quiet_scan kind get d l w w1) \/
  (exists pre c post w1 r w2,
     l = pre ++ c :: post /\ quiet_scan kind get d pre w w1 /\
     kind c = KComputedValue /\ get c w1 = (r, w2) /\
     ((exists e, r = Throw e) \/ dependenciesState w2 d = STALE)).
Proof.
  revert w. induction l as [|c l IH]; intros w.
  - left. exists w. constructor.
  - destruct (decide (kind c = KComputedValue)) as [Hk|Hk].
    + destruct (get c w) as [r w2] eqn:Hget.
      destruct r as [v|e].
      * destruct (decide (dependenciesState w2 d = STALE)) as [Hs|Hs].
        -- right. exists [], c, l, w, (Normal v), w2.
           repeat split; [constructor | exact Hk | exact Hget | right; exact Hs].
        -- destruct (IH w2) as [[w1 Hq] | (pre & c' & post & w1 & r & w3 &
                                          El & Hq & Hk' & Hget' & Hstop)].
           ++ left. exists w1. eapply quiet_force; eauto.
           ++ right. exists (c :: pre), c', post, w1, r, w3.
              repeat split; [rewrite El; reflexivity | | exact Hk'
                            | exact Hget' | exact Hstop].
              eapply quiet_force; eauto.
      * right. exists [], c, l, w, (Throw e), w2.
        repeat split; [constructor | exact Hk | exact Hget
                      | left; eexists; reflexivity].
    + destruct (IH w) as [[w1 Hq] | (pre & c' & post & w1 & r & w3 &
                                     El & Hq & Hk' & Hget' & Hstop)].
      * left. exists w1. apply quiet_skip; assumption.
      * right. exists (c :: pre), c', post, w1, r, w3.
        repeat split; [rewrite El; reflexivity | | exact Hk'
                      | exact Hget' | exact Hstop].
        apply quiet_skip; assumption.
Qed.

Lemma shouldCompute_scan_entry d w :
  dependenciesState w d = POSSIBLY_STALE ->
  shouldCompute kind get d w =
    shouldCompute_scan kind get d (trackingDerivation w) (observing w d) 0
      (length (observing w d)) (set_trackingDerivation None w).
Proof.
  intros Hs. unfold shouldCompute, untrackedStart.
  unfold bindM at 1. unfold reads at 1. simpl. rewrite Hs.
  unfold bindM, reads, modify, ret. simpl. apply res_eta.
Qed.

(** The scan stops at the first computed value that turns the derivation
    STALE. *)
Lemma shouldCompute_stops_when_stale d w pre c post v w1 w2 :
  dependenciesState w d = POSSIBLY_STALE ->
  observing w d = pre ++ c :: post ->
  quiet_scan kind get d pre (set_trackingDerivation None w) w1 ->
  kind c = KComputedValue ->
  get c w1 = (Normal v, w2) ->
  dependenciesState w2 d = STALE ->
  shouldCompute kind get d w =
    mkRes (Normal true) (set_trackingDerivation (trackingDerivation w) w2)
      (EvGet <$> computed_cells kind (pre ++ [c])).
Proof.
  intros Hs Hobs Hq Hk Hget Hstale.
  rewrite (shouldCompute_scan_entry d w Hs).
  rewrite Hobs at 2. rewrite length_app.
  rewrite (scan_quiet_prefix d _ pre _ w1 Hq [] (c :: post) (observing w d))
    by exact Hobs.
  cbn [length Nat.add].
  assert (Hc : observing w d !! length pre = Some c).
  { rewrite Hobs. rewrite lookup_app_r by lia.
    rewrite Nat.sub_diag. reflexivity. }
  rewrite (scan_step_stale d _ _ _ _ c w1 v w2 Hc Hk Hget Hstale).
  cbv zeta. simpl. rewrite computed_cells_app, fmap_app.
  replace (computed_cells kind [c]) with [c]; [reflexivity|].
  unfold computed_cells. rewrite filter_cons_True by exact Hk.
  reflexivity.
Qed.

(** The scan stops at the first computed value whose [get] throws. *)
Lemma shouldCompute_stops_when_get_throws d w pre c post e w1 w2 :
  dependenciesState w d = POSSIBLY_STALE ->
  observing w d = pre ++ c :: post ->
  quiet_scan kind get d pre (set_trackingDerivation None w) w1 ->
  kind c = KComputedValue ->
  get c w1 = (Throw e, w2) ->
  shouldCompute kind get d w =
    mkRes (Normal true) (set_trackingDerivation (trackingDerivation w) w2)
      (EvGet <$> computed_cells kind (pre ++ [c])).
Proof.
  intros Hs Hobs Hq Hk Hget.
  rewrite (shouldCompute_scan_entry d w Hs).
  rewrite Hobs at 2. rewrite length_app.
  rewrite (scan_quiet_prefix d _ pre _ w1 Hq [] (c :: post) (observing w d))
    by exact Hobs.
  cbn [length Nat.add].
  assert (Hc : observing w d !! length pre = Some c).
  { rewrite Hobs. rewrite lookup_app_r by lia.
    rewrite Nat.sub_diag. reflexivity. }
  rewrite (scan_step_throw d _ _ _ _ c w1 e w2 Hc Hk Hget).
  cbv zeta. simpl. rewrite computed_cells_app, fmap_app.
  replace (computed_cells kind [c]) with [c]; [reflexivity|].
  unfold computed_cells. rewrite filter_cons_True by exact Hk.
  reflexivity.
Qed.

(** A scan that stays quiet to the end demotes the derivation. *)
Lemma shouldCompute_completes d w w1 :
  dependenciesState w d = POSSIBLY_STALE ->
  quiet_scan kind get d (observing w d) (set_trackingDerivation None w) w1 ->
  let r := shouldCompute kind get d w in
  outcome r = Normal false /\
  trace r = EvGet <$> computed_cells kind (observing w d) /\
  world r = set_trackingDerivation (trackingDerivation w)
              (world (changeDependenciesStateTo0 d w1)) /\
  dependenciesState (world r) d = UP_TO_DATE.
Proof.
  intros Hs Hq r. subst r.
  rewrite (shouldCompute_scan_entry d w Hs).
  pose proof (scan_quiet_prefix d (trackingDerivation w) _ _ w1 Hq [] []
                (observing w d)) as E.
  rewrite app_nil_r in E. simpl in E. rewrite Nat.add_0_r in E.
  rewrite E by reflexivity. clear E.
  destruct (changeDependenciesStateTo0_effect d w1)
    as (w' & Hrun & _ & Hst & _).
  unfold bindM, untrackedEnd, modify, ret. rewrite Hrun. simpl.
  rewrite app_nil_r.
  repeat split. rewrite Hst. rewrite decide_True by reflexivity.
  reflexivity.
Qed.

End ShouldCompute.

(** C2.  On a POSSIBLY_STALE derivation shouldCompute walks the dependency
    list in its stored order and forces the computed values only.  If the
    walk is quiet up to a computed value [c] and forcing [c] leaves the
    derivation STALE, the answer is [true], the forced cells are exactly
    the computed values up to and including [c], and the heap is the one
    [c] left, with the tracking derivation restored.  If the walk is quiet
    to the end, every computed value has been forced in order, the
    derivation is UP_TO_DATE and the answer is [false]. *)
Theorem shouldCompute_possibly_stale
    (kind : Id -> NodeKind) (get : Id -> World -> Completion Val * World)
    (d : Id) (w : World)
    (Hs : dependenciesState w d = POSSIBLY_STALE) :
  (forall pre c post v w1 w2,
     observing w d = pre ++ c :: post ->
     quiet_scan kind get d pre (set_trackingDerivation None w) w1 ->
     kind c = KComputedValue ->
     get c w1 = (Normal v, w2) ->
     dependenciesState w2 d = STALE ->
     shouldCompute kind get d w =
       mkRes (Normal true)
         (set_trackingDerivation (trackingDerivation w) w2)
         (EvGet <$> computed_cells kind (pre ++ [c]))) /\
  (forall w1,
     quiet_scan kind get d (observing w d)
       (set_trackingDerivation None w) w1 ->
     let r := shouldCompute kind get d w in
     outcome r = Normal false /\
     trace r = EvGet <$> computed_cells kind (observing w d) /\
     world r = set_trackingDerivation (trackingDerivation w)
                 (world (changeDependenciesStateTo0 d w1)) /\
     dependenciesState (world r) d = UP_TO_DATE).
Proof.
  split.
  - intros pre c post v w1 w2 Hobs Hq Hk Hget Hstale.
    eapply shouldCompute_stops_when_stale; eauto.
  - intros w1 Hq. apply shouldCompute_completes; assumption.
Qed.

Lemma shouldCompute_possibly_stale_witness :
  shouldCompute sample_kind sample_get 20 scan_world =
    mkRes (Normal true)
      (set_trackingDerivation (Some 30)
         (set_dependenciesState 20 STALE
            (set_trackingDerivation None scan_world)))
      [EvGet 10; EvGet 11] /\
  outcome (shouldCompute sample_kind sample_get 21 scan_world)
    = Normal false /\
  trace (shouldCompute sample_kind sample_get 21 scan_world) = [EvGet 10] /\
  dependenciesState
    (world (shouldCompute sample_kind sample_get 21 scan_world)) 21
    = UP_TO_DATE.
Proof.
  split.
  - pose proof (shouldCompute_possibly_stale sample_kind sample_get 20
                  scan_world eq_refl) as [H _].
    apply (H [10; 1] 11 [12] 1%Z (set_trackingDerivation None scan_world)).
    + reflexivity.
    + eapply quiet_force; [reflexivity | reflexivity | discriminate |].
      apply quiet_skip; [discriminate | constructor].
    + reflexivity.
    + reflexivity.
    + reflexivity.
  - pose proof (shouldCompute_possibly_stale sample_kind sample_get 21
                  scan_world eq_refl) as [_ H].
    specialize (H (set_trackingDerivation None scan_world)).
    destruct H as (Ho & Ht & _ & Hst).
    + apply quiet_skip; [discriminate|].
      eapply quiet_force; [reflexivity | reflexivity | discriminate |].
      constructor.
    + split; [exact Ho|]. split; [exact Ht|]. exact Hst.
Defined.

(** C8.  If the walk is quiet up to a computed value [c] and forcing [c]
    throws, shouldCompute returns [true] normally: the failure is not
    passed on, no later dependency is forced, and the derivation keeps the
    state the failed [get] left it in (changeDependenciesStateTo0 is not
    reached). *)
Theorem shouldCompute_dependency_failure
    (kind : Id -> NodeKind) (get : Id -> World -> Completion Val * World)
    (d : Id) (w : World) (pre : list Id) (c : Id) (post : list Id)
    (e : Exn) (w1 w2 : World)
    (Hs : dependenciesState w d = POSSIBLY_STALE)
    (Hobs : observing w d = pre ++ c :: post)
    (Hquiet : quiet_scan kind get d pre (set_trackingDerivation None w) w1)
    (Hkind : kind c = KComputedValue)
    (Hget : get c w1 = (Throw e, w2)) :
  let r := shouldCompute kind get d w in
  outcome r = Normal true /\
  trace r = EvGet <$> computed_cells kind (pre ++ [c]) /\
  world r = set_trackingDerivation (trackingDerivation w) w2 /\
  dependenciesState (world r) d = dependenciesState w2 d.
Proof.
  intros r. subst r.
  rewrite (shouldCompute_stops_when_get_throws kind get d w pre c post e
             w1 w2 Hs Hobs Hquiet Hkind Hget).
  repeat split.
Qed.

Lemma shouldCompute_dependency_failure_witness :
  let r := shouldCompute sample_kind sample_get 22 scan_world in
  outcome r = Normal true /\
  trace r = [EvGet 10; EvGet 12] /\
  world r = scan_world /\
  dependenciesState (world r) 22 = POSSIBLY_STALE.
Proof.
  intros r.
  pose proof (shouldCompute_dependency_failure sample_kind sample_get 22
                scan_world [10] 12 [11] (Raised 3)
                (set_trackingDerivation None scan_world)
                (set_trackingDerivation None scan_world)
                eq_refl eq_refl) as H.
  destruct H as (Ho & Ht & Hw & Hst).
  - eapply quiet_force; [reflexivity | reflexivity | discriminate |].
    constructor.
  - reflexivity.
  - reflexivity.
  - split; [exact Ho|]. split; [exact Ht|]. split; [exact Hw|]. exact Hst.
Defined.

(** ** bindDependencies: the first loop *)

Section Bind.

Variable kind : Id -> NodeKind.
Variable onBecomeStale : Id -> World -> Completion unit * World.

Lemma dependenciesState_of_raise w lowest dep :
  (if state_gt (dependenciesState_of kind w dep) lowest
   then default lowest (dependenciesState_of kind w dep) else lowest) =
  raise_lowest kind (dependenciesState w) lowest dep.
Proof.
  unfold dependenciesState_of, raise_lowest, state_gt.
  destruct (kind dep); simpl; try reflexivity.
Qed.

Lemma arr_set_inside (a : Arr) i x :
  i < length a -> arr_set a i x = <[i := Some x]> a.
Proof. intros H. unfold arr_set. rewrite decide_True by exact H. done. Qed.

Lemma arr_get_Some_lt (a : Arr) i x : arr_get a i = Some x -> i < length a.
Proof.
  unfold arr_get. intros H.
  destruct (a !! i) as [y|] eqn:E; [|discriminate].
  eapply lookup_lt_Some, E.
Qed.

Lemma arr_get_Some_lookup (a : Arr) i x :
  arr_get a i = Some x -> a !! i = Some (Some x).
Proof.
  unfold arr_get. destruct (a !! i) as [[y|]|]; simpl; congruence.
Qed.

Lemma arr_get_insert_ne (a : Arr) i j x :
  i <> j -> arr_get (<[i := Some x]> a) j = arr_get a j.
Proof.
  intros H. unfold arr_get. rewrite list_lookup_insert_ne by exact H. done.
Qed.

(** The first loop on a buffer that holds the reads [rs] from position
    [i] on: it returns normally, marks the cells it keeps, compacts them
    behind the [i0] entries kept so far and folds the states. *)
Lemma bind_first_pass_run (rs : list Id) :
  forall (arr : Arr) (i i0 : nat) (lowest : IDerivationState) (w : World),
    (forall j, j < length rs -> arr_get arr (i + j) = rs !! j) ->
    i0 <= i ->
    exists arr',
      bind_first_pass kind arr i i0 lowest (length rs) w =
        mkRes (Normal (arr', i0 + length (kept_reads (diffValue w) rs),
                       lowest_new_state kind (dependenciesState w) lowest rs))
              (mark_all rs w) [] /\
      take (i0 + length (kept_reads (diffValue w) rs)) arr' =
        take i0 arr ++ (Some <$> kept_reads (diffValue w) rs).
Proof.
  induction rs as [|x r IH]; intros arr i i0 lowest w Hbuf Hi0.
  - exists arr. simpl. rewrite Nat.add_0_r, app_nil_r. split; reflexivity.
  - assert (Hx : arr_get arr i = Some x).
    { specialize (Hbuf 0). rewrite Nat.add_0_r in Hbuf.
      apply Hbuf. simpl. lia. }
    pose proof (arr_get_Some_lt _ _ _ Hx) as Hlen.
    assert (Hrest : forall a1, (forall j, i <= j -> arr_get a1 j = arr_get arr j) ->
              forall j, j < length r -> arr_get a1 (S i + j) = r !! j).
    { intros a1 Ha1 j Hj. rewrite Ha1 by lia.
      replace (S i + j) with (i + S j) by lia.
      rewrite Hbuf by (simpl; lia). reflexivity. }
    cbn [length bind_first_pass]. rewrite Hx.
    unfold bindM, reads, modify, ret. cbn [outcome world trace].
    destruct (decide (diffValue w x = 0%Z)) as [Hdv|Hdv];
      cbn [outcome world trace fst snd app].
    + (* first occurrence: kept *)
      set (arr1 := if decide (i0 <> i) then arr_set arr i0 x else arr).
      assert (Harr1 : forall j, i <= j -> arr_get arr1 j = arr_get arr j).
      { intros j Hj. subst arr1. destruct (decide (i0 <> i)); [|done].
        rewrite arr_set_inside by lia. apply arr_get_insert_ne. lia. }
      assert (Htake1 : take (S i0) arr1 = take i0 arr ++ [Some x]).
      { subst arr1. destruct (decide (i0 <> i)) as [Hne|Heq].
        - rewrite arr_set_inside by lia.
          erewrite take_S_r
            by (apply list_lookup_insert_eq; lia).
          rewrite take_insert_ge by lia. reflexivity.
        - assert (i0 = i) as -> by lia.
          erewrite take_S_r by (apply arr_get_Some_lookup, Hx).
          reflexivity. }
      destruct (IH arr1 (S i) (S i0)
                  (raise_lowest kind (dependenciesState w) lowest x)
                  (set_diffValue x 1 w) (Hrest arr1 Harr1) ltac:(lia))
        as (arr' & Hrun & Htake).
      exists arr'.
      cbn [kept_reads]. rewrite decide_True by exact Hdv. cbn [length].
      change (upd (diffValue w) x 1%Z) with (diffValue (set_diffValue x 1 w)).
      replace (i0 + S (length (kept_reads (diffValue (set_diffValue x 1 w)) r)))
        with (S i0 + length (kept_reads (diffValue (set_diffValue x 1 w)) r))
        by lia.
      split.
      * rewrite dependenciesState_of_raise.
        change (dependenciesState (set_diffValue x 1 w))
          with (dependenciesState w) in *.
        unfold bindM, reads, modify, ret in Hrun. rewrite Hrun.
        cbn [outcome world trace app].
        unfold mark_all, lowest_new_state. cbn [foldl].
        assert (mark_step x w = set_diffValue x 1 w) as ->
          by (unfold mark_step; rewrite decide_True by exact Hdv;
              reflexivity).
        reflexivity.
      * rewrite Htake, Htake1, <- app_assoc. reflexivity.
    + (* marked already: dropped *)
      destruct (IH arr (S i) i0
                  (raise_lowest kind (dependenciesState w) lowest x)
                  w (Hrest arr (fun _ _ => eq_refl)) ltac:(lia))
        as (arr' & Hrun & Htake).
      exists arr'.
      cbn [kept_reads]. rewrite decide_False by exact Hdv.
      split.
      * rewrite dependenciesState_of_raise.
        unfold bindM, reads, modify, ret in Hrun. rewrite Hrun.
        cbn [outcome world trace app].
        unfold mark_all, lowest_new_state. cbn [foldl].
        assert (mark_step x w = w) as ->
          by (unfold mark_step; rewrite decide_False by exact Hdv;
              reflexivity).
        reflexivity.
      * exact Htake.
Qed.

(** ** bindDependencies: the whole bind step *)

Lemma unsubscribe_body_run d dep w :
  (let* dv := reads (fun w => diffValue w dep) in
   do when (bool_decide (dv = 0%Z)) (removeObserver dep d) then
   modify (set_diffValue dep 0)) w =
  mkRes (Normal tt) (unsubscribe_step d dep w) [].
Proof.
  unfold bindM, reads, when, removeObserver, modify, ret, unsubscribe_step.
  cbn [outcome world trace].
  destruct (decide (diffValue w dep = 0%Z)) as [H|H].
  - rewrite bool_decide_eq_true_2 by exact H. reflexivity.
  - rewrite bool_decide_eq_false_2 by exact H. reflexivity.
Qed.

Lemma subscribe_body_run d dep w :
  (let* dv := reads (fun w => diffValue w dep) in
   when (bool_decide (dv = 1%Z))
     (do modify (set_diffValue dep 0) then addObserver dep d)) w =
  mkRes (Normal tt) (subscribe_step d dep w) [].
Proof.
  unfold bindM, reads, when, addObserver, modify, ret, subscribe_step.
  cbn [outcome world trace].
  destruct (decide (diffValue w dep = 1%Z)) as [H|H].
  - rewrite bool_decide_eq_true_2 by exact H. reflexivity.
  - rewrite bool_decide_eq_false_2 by exact H. reflexivity.
Qed.

Lemma arr_elems_trimmed (arr : Arr) (ks : list Id) :
  take (length ks) arr = Some <$> ks ->
  arr_elems (arr_set_length arr (length ks)) = ks.
Proof.
  intros H. unfold arr_set_length, arr_elems.
  assert (Hlen : length ks <= length arr).
  { apply (f_equal length) in H.
    rewrite length_take, length_fmap in H. lia. }
  replace (length ks - length arr) with 0 by lia.
  simpl. rewrite app_nil_r, H. clear.
  induction ks as [|k ks IH]; [reflexivity|].
  simpl. f_equal. exact IH.
Qed.

(** bindDependencies on a buffer that holds the reads [rs]: the three
    loops return normally and reach [bound_world]; the callback runs, on
    the raised state, exactly when the folded state is not UP_TO_DATE. *)
Lemma bindDependencies_run (d : Id) (rs : list Id) (w : World) :
  buffer_holds w d rs ->
  bindDependencies kind onBecomeStale d w =
    let m := lowest_new_state kind (dependenciesState w) UP_TO_DATE rs in
    if decide (m <> UP_TO_DATE) then
      mkRes (fst (onBecomeStale d
                    (set_dependenciesState d m (bound_world d rs w))))
            (snd (onBecomeStale d
                    (set_dependenciesState d m (bound_world d rs w))))
            [EvOnBecomeStale d]
    else mkRes (Normal tt) (bound_world d rs w) [].
Proof.
  intros (Hcount & arr & Harr & Hget).
  destruct (bind_first_pass_run rs arr 0 0 UP_TO_DATE
              (set_newObserving d None w))
    as (arr' & Hrun & Htake); [exact Hget | lia |].
  cbn [Nat.add take app] in Hrun, Htake.
  change (diffValue (set_newObserving d None w)) with (diffValue w)
    in Hrun, Htake.
  change (dependenciesState (set_newObserving d None w))
    with (dependenciesState w) in Hrun.
  unfold bindDependencies.
  erewrite run_bind_normal by apply run_reads.
  erewrite run_bind_normal by apply run_reads.
  erewrite run_bind_normal by apply run_modify.
  cbn [outcome world trace app]. rewrite Harr.
  erewrite run_bind_normal by apply run_reads.
  cbn [outcome world trace app].
  change (unboundDepsCount (set_newObserving d None w) d)
    with (unboundDepsCount w d).
  rewrite Hcount.
  erewrite run_bind_normal by exact Hrun.
  cbn [outcome world trace app fst snd].
  rewrite (arr_elems_trimmed arr' _ Htake).
  erewrite run_bind_normal by apply run_modify.
  cbn [outcome world trace app].
  erewrite run_bind_normal
    by (apply (while_down_all_pure _ (unsubscribe_step d));
        intros; apply unsubscribe_body_run).
  cbn [outcome world trace app].
  erewrite run_bind_normal
    by (apply (while_down_all_pure _ (subscribe_step d));
        intros; apply subscribe_body_run).
  cbn [outcome world trace app].
  fold (bound_world d rs w).
  cbv zeta.
  destruct (decide (lowest_new_state kind (dependenciesState w)
                      UP_TO_DATE rs <> UP_TO_DATE)) as [Hm|Hm].
  - unfold bindM, modify, external. cbn [outcome world trace app].
    reflexivity.
  - reflexivity.
Qed.

End Bind.

(** ** What the three loops do to the subscriptions *)

Lemma same_outside_subscriptions_refl w : same_outside_subscriptions w w.
Proof. unfold same_outside_subscriptions. tauto. Qed.

Lemma same_outside_subscriptions_trans w1 w2 w3 :
  same_outside_subscriptions w1 w2 -> same_outside_subscriptions w2 w3 ->
  same_outside_subscriptions w1 w3.
Proof.
  unfold same_outside_subscriptions.
  intros (?&?&?&?&?&?&?&?&?&?&?&?) (?&?&?&?&?&?&?&?&?&?&?&?).
  repeat split; congruence.
Qed.

Lemma run_pure_frame (g : Id -> World -> World) :
  (forall x w, same_outside_subscriptions w (g x w)) ->
  forall l w, same_outside_subscriptions w (run_pure g l w).
Proof.
  intros Hg. induction l as [|x l IH]; intros w.
  - apply same_outside_subscriptions_refl.
  - cbn [run_pure foldr]. eapply same_outside_subscriptions_trans.
    + apply IH.
    + apply Hg.
Qed.

Lemma mark_step_frame x w : same_outside_subscriptions w (mark_step x w).
Proof.
  unfold mark_step. destruct (decide _);
    unfold same_outside_subscriptions; simpl; tauto.
Qed.

Lemma unsubscribe_step_frame d x w :
  same_outside_subscriptions w (unsubscribe_step d x w).
Proof.
  unfold unsubscribe_step. destruct (decide _);
    unfold same_outside_subscriptions; simpl; tauto.
Qed.

Lemma subscribe_step_frame d x w :
  same_outside_subscriptions w (subscribe_step d x w).
Proof.
  unfold subscribe_step. destruct (decide _);
    unfold same_outside_subscriptions; simpl; tauto.
Qed.

Lemma remove_step_frame d x w :
  same_outside_subscriptions w (remove_step d x w).
Proof. unfold remove_step, same_outside_subscriptions; simpl; tauto. Qed.

Lemma mark_all_frame rs w : same_outside_subscriptions w (mark_all rs w).
Proof.
  revert w. induction rs as [|x r IH]; intros w.
  - apply same_outside_subscriptions_refl.
  - unfold mark_all. cbn [foldl]. eapply same_outside_subscriptions_trans.
    + apply mark_step_frame.
    + apply IH.
Qed.

(** The first loop marks the cells that were read and had a neutral
    marker, and touches no observer list. *)
Lemma mark_all_effect rs w :
  observers (mark_all rs w) = observers w /\
  forall c, diffValue (mark_all rs w) c =
            if decide (c ∈ rs) then
              (if decide (diffValue w c = 0%Z) then 1%Z else diffValue w c)
            else diffValue w c.
Proof.
  revert w. induction rs as [|x r IH]; intros w.
  - split; [reflexivity|]. intros c.
    rewrite decide_False by apply not_elem_of_nil. reflexivity.
  - unfold mark_all. cbn [foldl]. fold (mark_all r (mark_step x w)).
    destruct (IH (mark_step x w)) as [Hobs Hdv]. split.
    + rewrite Hobs. unfold mark_step. destruct (decide _); reflexivity.
    + intros c. rewrite Hdv. unfold mark_step.
      destruct (decide (c = x)) as [->|Hne].
      * rewrite (decide_True (P := x ∈ x :: r)) by left.
        destruct (decide (diffValue w x = 0%Z)) as [H0|H0]; simpl.
        -- rewrite upd_eq. destruct (decide (x ∈ r)); reflexivity.
        -- rewrite (decide_False (P := diffValue w x = 0%Z)) by exact H0.
           destruct (decide (x ∈ r)); reflexivity.
      * assert (Hin : c ∈ x :: r <-> c ∈ r).
        { rewrite elem_of_cons. tauto. }
        assert (Hd : diffValue
                  (if decide (diffValue w x = 0%Z) then set_diffValue x 1 w
                   else w) c = diffValue w c).
        { destruct (decide _); [simpl; apply upd_neq, Hne | reflexivity]. }
        rewrite Hd.
        destruct (decide (c ∈ r)) as [Hr|Hr].
        -- rewrite (decide_True (P := c ∈ x :: r)) by (apply Hin, Hr).
           reflexivity.
        -- rewrite (decide_False (P := c ∈ x :: r))
             by (intros H; apply Hr, Hin, H).
           reflexivity.
Qed.

(** The second loop, on a former dependency list without duplicates:
    every former dependency gets a neutral marker, and loses [d] when its
    marker was neutral before. *)
Lemma unsubscribe_all_effect d prev w :
  NoDup prev ->
  let w' := run_pure (unsubscribe_step d) prev w in
  (forall c, diffValue w' c =
             if decide (c ∈ prev) then 0%Z else diffValue w c) /\
  (forall c, observers w' c =
             if decide (c ∈ prev) then
               (if decide (diffValue w c = 0%Z)
                then filter (fun x => x <> d) (observers w c)
                else observers w c)
             else observers w c).
Proof.
  induction 1 as [|x l Hx Hnd IH]; cbn [run_pure foldr]; cbv zeta.
  - split; intros c; rewrite decide_False by apply not_elem_of_nil;
      reflexivity.
  - cbv zeta in IH. fold (run_pure (unsubscribe_step d) l w).
    set (w1 := run_pure (unsubscribe_step d) l w) in *.
    destruct IH as [Hdv Hobs].
    assert (Hdx : diffValue w1 x = diffValue w x).
    { rewrite Hdv. rewrite decide_False by exact Hx. reflexivity. }
    assert (Hox : observers w1 x = observers w x).
    { rewrite Hobs. rewrite decide_False by exact Hx. reflexivity. }
    split; intros c.
    + unfold unsubscribe_step. simpl.
      destruct (decide (c = x)) as [->|Hne].
      * rewrite upd_eq. rewrite decide_True by left. reflexivity.
      * rewrite upd_neq by exact Hne.
        assert (Hd : diffValue
                  (if decide (diffValue w1 x = 0%Z)
                   then set_observers x
                          (filter (fun y => y <> d) (observers w1 x)) w1
                   else w1) c = diffValue w1 c)
          by (destruct (decide _); reflexivity).
        rewrite Hd, Hdv.
        destruct (decide (c ∈ l)) as [Hl|Hl].
        -- rewrite decide_True by (right; exact Hl). reflexivity.
        -- rewrite decide_False; [reflexivity|].
           rewrite elem_of_cons. tauto.
    + unfold unsubscribe_step. simpl. rewrite Hdx, Hox.
      destruct (decide (c = x)) as [->|Hne].
      * rewrite (decide_True (P := x ∈ x :: l)) by left.
        destruct (decide (diffValue w x = 0%Z)); simpl.
        -- apply upd_eq.
        -- apply Hox.
      * assert (Ho : observers
                  (if decide (diffValue w x = 0%Z)
                   then set_observers x
                          (filter (fun y => y <> d) (observers w x)) w1
                   else w1) c = observers w1 c).
        { destruct (decide _); [simpl; apply upd_neq, Hne | reflexivity]. }
        rewrite Ho, Hobs.
        destruct (decide (c ∈ l)) as [Hl|Hl].
        -- rewrite (decide_True (P := c ∈ x :: l)) by (right; exact Hl).
           reflexivity.
        -- rewrite (decide_False (P := c ∈ x :: l)); [reflexivity|].
           rewrite elem_of_cons. tauto.
Qed.

(** The third loop, on a new dependency list without duplicates: every
    cell still marked gets [d] as an observer and a neutral marker. *)
Lemma subscribe_all_effect d new w :
  NoDup new ->
  let w' := run_pure (subscribe_step d) new w in
  (forall c, diffValue w' c =
             if decide (c ∈ new) then
               (if decide (diffValue w c = 1%Z) then 0%Z else diffValue w c)
             else diffValue w c) /\
  (forall c, observers w' c =
             if decide (c ∈ new) then
               (if decide (diffValue w c = 1%Z)
                then observers w c ++ [d] else observers w c)
             else observers w c).
Proof.
  induction 1 as [|x l Hx Hnd IH]; cbn [run_pure foldr]; cbv zeta.
  - split; intros c; rewrite decide_False by apply not_elem_of_nil;
      reflexivity.
  - cbv zeta in IH. fold (run_pure (subscribe_step d) l w).
    set (w1 := run_pure (subscribe_step d) l w) in *.
    destruct IH as [Hdv Hobs].
    assert (Hdx : diffValue w1 x = diffValue w x).
    { rewrite Hdv. rewrite decide_False by exact Hx. reflexivity. }
    assert (Hox : observers w1 x = observers w x).
    { rewrite Hobs. rewrite decide_False by exact Hx. reflexivity. }
    assert (Hmem : forall c, c <> x -> (c ∈ x :: l <-> c ∈ l)).
    { intros c Hne. rewrite elem_of_cons. tauto. }
    split; intros c; unfold subscribe_step; rewrite Hdx, Hox.
    + destruct (decide (c = x)) as [->|Hne].
      * rewrite (decide_True (P := x ∈ x :: l)) by left.
        destruct (decide (diffValue w x = 1%Z)); simpl.
        -- apply upd_eq.
        -- apply Hdx.
      * assert (Hd : diffValue
                  (if decide (diffValue w x = 1%Z)
                   then set_observers x (observers w x ++ [d])
                          (set_diffValue x 0 w1)
                   else w1) c = diffValue w1 c).
        { destruct (decide _); [simpl; apply upd_neq, Hne | reflexivity]. }
        rewrite Hd, Hdv.
        destruct (decide (c ∈ l)) as [Hl|Hl].
        -- rewrite (decide_True (P := c ∈ x :: l))
             by (apply Hmem; assumption).
           reflexivity.
        -- rewrite (decide_False (P := c ∈ x :: l)); [reflexivity|].
           intros H. apply Hl, Hmem; assumption.
    + destruct (decide (c = x)) as [->|Hne].
      * rewrite (decide_True (P := x ∈ x :: l)) by left.
        destruct (decide (diffValue w x = 1%Z)); simpl.
        -- apply upd_eq.
        -- apply Hox.
      * assert (Ho : observers
                  (if decide (diffValue w x = 1%Z)
                   then set_observers x (observers w x ++ [d])
                          (set_diffValue x 0 w1)
                   else w1) c = observers w1 c).
        { destruct (decide _); [simpl; apply upd_neq, Hne | reflexivity]. }
        rewrite Ho, Hobs.
        destruct (decide (c ∈ l)) as [Hl|Hl].
        -- rewrite (decide_True (P := c ∈ x :: l))
             by (apply Hmem; assumption).
           reflexivity.
        -- rewrite (decide_False (P := c ∈ x :: l)); [reflexivity|].
           intros H. apply Hl, Hmem; assumption.
Qed.

(** ** The ordered-unique sequence *)

Lemma first_occurrences_example :
  first_occurrences [1; 2; 1; 3] = [1; 2; 3].
Proof. reflexivity. Qed.

Lemma elem_of_first_occurrences c rs : c ∈ first_occurrences rs <-> c ∈ rs.
Proof.
  induction rs as [|x r IH]; simpl; [reflexivity|].
  rewrite !elem_of_cons, list_elem_of_filter, IH.
  destruct (decide (c = x)); tauto.
Qed.

Lemma NoDup_first_occurrences rs : NoDup (first_occurrences rs).
Proof.
  induction rs as [|x r IH]; simpl; [constructor|].
  apply NoDup_cons_2.
  - rewrite list_elem_of_filter. tauto.
  - apply NoDup_filter, IH.
Qed.

(** The first loop keeps the unmarked cells of the ordered-unique
    sequence. *)
Lemma kept_reads_filter rs :
  forall marker,
    kept_reads marker rs =
      filter (fun y => marker y = 0%Z) (first_occurrences rs).
Proof.
  induction rs as [|x r IH]; intros marker; simpl; [reflexivity|].
  rewrite filter_cons. rewrite list_filter_filter.
  destruct (decide (marker x = 0%Z)) as [Hx|Hx].
  - rewrite IH. f_equal. apply list_filter_iff. intros y. unfold upd.
    destruct (decide (y = x)) as [->|Hne]; split; intros H;
      first [tauto | discriminate | (destruct H; congruence)].
  - rewrite IH. apply list_filter_iff. intros y. split.
    + intros Hy. split; [exact Hy | congruence].
    + tauto.
Qed.

Lemma kept_reads_neutral rs marker :
  (forall c, marker c = 0%Z) ->
  kept_reads marker rs = first_occurrences rs.
Proof.
  intros H. rewrite kept_reads_filter.
  induction (first_occurrences rs) as [|y l IH]; [reflexivity|].
  rewrite filter_cons_True by apply H. f_equal. exact IH.
Qed.

(** ** The heap after the three loops *)

(** On a heap whose markers are neutral and whose derivation has a
    duplicate-free dependency list, the bind step stores the
    ordered-unique sequence of the reads, leaves every marker neutral,
    appends [d] to the observers of the cells read for the first time and
    removes it from the observers of the cells no longer read. *)
Lemma bound_world_spec d rs w :
  (forall c, diffValue w c = 0%Z) ->
  NoDup (observing w d) ->
  let wb := bound_world d rs w in
  observing wb = upd (observing w) d (first_occurrences rs) /\
  newObserving wb = upd (newObserving w) d None /\
  dependenciesState wb = dependenciesState w /\
  lowestObserverState wb = lowestObserverState w /\
  trackingDerivation wb = trackingDerivation w /\
  (forall c, diffValue wb c = 0%Z) /\
  (forall c, observers wb c =
     if decide (c ∈ rs) then
       (if decide (c ∈ observing w d) then observers w c
        else observers w c ++ [d])
     else
       (if decide (c ∈ observing w d)
        then filter (fun x => x <> d) (observers w c)
        else observers w c)).
Proof.
  intros H0 Hnd wb. subst wb. unfold bound_world.
  rewrite (kept_reads_neutral rs (diffValue w) H0).
  set (new := first_occurrences rs).
  set (w0 := set_newObserving d None w).
  set (w1 := mark_all rs w0).
  set (w2 := set_observing d new w1).
  set (w3 := run_pure (unsubscribe_step d) (observing w d) w2).
  set (wb := run_pure (subscribe_step d) new w3).
  pose proof (mark_all_frame rs w0) as F1.
  pose proof (mark_all_effect rs w0) as [O1 D1].
  pose proof (run_pure_frame _ (unsubscribe_step_frame d)
                (observing w d) w2) as F3.
  pose proof (unsubscribe_all_effect d (observing w d) w2 Hnd) as [D3 O3].
  pose proof (run_pure_frame _ (subscribe_step_frame d) new w3) as F4.
  pose proof (subscribe_all_effect d new w3
                (NoDup_first_occurrences rs)) as [D4 O4].
  fold w1 in F1, O1, D1. fold w3 in F3, D3, O3. fold wb in F4, D4, O4.
  cbv zeta in D3, O3, D4, O4.
  unfold same_outside_subscriptions in F1, F3, F4.
  destruct F1 as (L1&_&G1&N1&S1&_&_&T1&_).
  destruct F3 as (L3&_&G3&N3&S3&_&_&T3&_).
  destruct F4 as (L4&_&G4&N4&S4&_&_&T4&_).
  assert (Hd2 : forall c, diffValue w2 c = if decide (c ∈ rs) then 1%Z else 0%Z).
  { intros c. change (diffValue w2 c) with (diffValue w1 c).
    rewrite D1. change (diffValue w0 c) with (diffValue w c).
    rewrite H0. rewrite (decide_True (P := 0%Z = 0%Z)) by reflexivity.
    reflexivity. }
  assert (Ho2 : forall c, observers w2 c = observers w c).
  { intros c. change (observers w2 c) with (observers w1 c).
    rewrite O1. reflexivity. }
  assert (Hnew : forall c, c ∈ new <-> c ∈ rs)
    by (intros c; apply elem_of_first_occurrences).
  split; [|split; [|split; [|split; [|split; [|split]]]]].
  - rewrite G4, G3. change (observing w2) with (upd (observing w1) d new).
    rewrite G1. reflexivity.
  - rewrite N4, N3. change (newObserving w2) with (newObserving w1).
    rewrite N1. reflexivity.
  - rewrite S4, S3. change (dependenciesState w2) with (dependenciesState w1).
    rewrite S1. reflexivity.
  - rewrite L4, L3.
    change (lowestObserverState w2) with (lowestObserverState w1).
    rewrite L1. reflexivity.
  - rewrite T4, T3.
    change (trackingDerivation w2) with (trackingDerivation w1).
    rewrite T1. reflexivity.
  - intros c. rewrite D4, D3, Hd2.
    destruct (decide (c ∈ new)) as [Hn|Hn];
      destruct (decide (c ∈ observing w d)) as [Hp|Hp];
      destruct (decide (c ∈ rs)) as [Hr|Hr]; simpl; try reflexivity;
      exfalso; first [apply Hr, Hnew, Hn | apply Hn, Hnew, Hr].
  - intros c. rewrite O4, D3, O3, Hd2, Ho2.
    destruct (decide (c ∈ new)) as [Hn|Hn];
      destruct (decide (c ∈ observing w d)) as [Hp|Hp];
      destruct (decide (c ∈ rs)) as [Hr|Hr]; simpl; try reflexivity;
      exfalso; first [apply Hr, Hnew, Hn | apply Hn, Hnew, Hr].
Qed.

(** ** The state raised by the bind step *)

Lemma state_num_inj s1 s2 : state_num s1 = state_num s2 -> s1 = s2.
Proof. destruct s1, s2; simpl; intros H; (reflexivity || lia). Qed.

Lemma raise_lowest_spec kind state lowest dep :
  let m := raise_lowest kind state lowest dep in
  (state_num lowest <= state_num m)%Z /\
  (kind dep <> KAtom -> (state_num (state dep) <= state_num m)%Z) /\
  (m = lowest \/ (kind dep <> KAtom /\ m = state dep)).
Proof.
  unfold raise_lowest.
  destruct (kind dep) eqn:Hk; simpl;
    try (split; [lia | split; [congruence | left; reflexivity]]);
    destruct (Z.ltb_spec (state_num lowest) (state_num (state dep)));
    (split; [lia | split; [intros; lia |]]);
    first [left; reflexivity | right; split; [discriminate | reflexivity]].
Qed.

(** The folded state is the greatest staleness among its start value and
    the states of the derivations read. *)
Lemma lowest_new_state_spec kind state rs :
  forall lowest,
    let m := lowest_new_state kind state lowest rs in
    (state_num lowest <= state_num m)%Z /\
    (forall c, c ∈ rs -> kind c <> KAtom ->
               (state_num (state c) <= state_num m)%Z) /\
    (m = lowest \/ exists c, c ∈ rs /\ kind c <> KAtom /\ state c = m).
Proof.
  induction rs as [|x r IH]; intros lowest; cbv zeta.
  - unfold lowest_new_state. simpl. split; [lia|]. split.
    + intros c Hc. inversion Hc.
    + left. reflexivity.
  - unfold lowest_new_state. cbn [foldl].
    fold (lowest_new_state kind state (raise_lowest kind state lowest x) r).
    destruct (IH (raise_lowest kind state lowest x)) as (Hle & Hub & Hex).
    destruct (raise_lowest_spec kind state lowest x) as (Rle & Rub & Rex).
    cbv zeta in *.
    split; [lia|]. split.
    + intros c Hc Hk. apply elem_of_cons in Hc as [->|Hc].
      * specialize (Rub Hk). lia.
      * apply Hub; assumption.
    + destruct Hex as [Hm | (c & Hc & Hk & Hs)].
      * destruct Rex as [Hr | [Hk Hr]].
        -- left. congruence.
        -- right. exists x. split; [left|]. split; [exact Hk | congruence].
      * right. exists c. split; [right; exact Hc|]. split; assumption.
Qed.

Lemma lowest_new_state_is_maximum kind w rs :
  staleness_maximum kind w rs
    (lowest_new_state kind (dependenciesState w) UP_TO_DATE rs).
Proof.
  destruct (lowest_new_state_spec kind (dependenciesState w) rs UP_TO_DATE)
    as (Hle & Hub & Hex).
  split; [exact Hle|]. split; [exact Hub|]. exact Hex.
Qed.

Lemma staleness_maximum_unique kind w rs m1 m2 :
  staleness_maximum kind w rs m1 -> staleness_maximum kind w rs m2 ->
  m1 = m2.
Proof.
  intros (L1 & U1 & E1) (L2 & U2 & E2). apply state_num_inj.
  assert (state_num m1 <= state_num m2)%Z.
  { destruct E1 as [->|(c & Hc & Hk & <-)]; [exact L2 | apply U2; assumption]. }
  assert (state_num m2 <= state_num m1)%Z.
  { destruct E2 as [->|(c & Hc & Hk & <-)]; [exact L1 | apply U1; assumption]. }
  lia.
Qed.

Lemma bound_world_dependenciesState d rs w :
  dependenciesState (bound_world d rs w) = dependenciesState w.
Proof.
  unfold bound_world.
  pose proof (run_pure_frame _ (subscribe_step_frame d)
                (kept_reads (diffValue w) rs)
                (run_pure (unsubscribe_step d) (observing w d)
                   (set_observing d (kept_reads (diffValue w) rs)
                      (mark_all rs (set_newObserving d None w))))) as F4.
  pose proof (run_pure_frame _ (unsubscribe_step_frame d) (observing w d)
                (set_observing d (kept_reads (diffValue w) rs)
                   (mark_all rs (set_newObserving d None w)))) as F3.
  pose proof (mark_all_frame rs (set_newObserving d None w)) as F1.
  destruct F1 as (_&_&_&_&S1&_). destruct F3 as (_&_&_&_&S3&_).
  destruct F4 as (_&_&_&_&S4&_).
  cbv zeta. rewrite S4, S3. simpl. rewrite S1. reflexivity.
Qed.

(** C5, as the code has it.  Let [m] be the maximum staleness among the
    freshly read cells that are derivations, UP_TO_DATE being the least
    staleness there is (so [m] is UP_TO_DATE when no derivation was read,
    and a NOT_TRACKING dependency counts for nothing).  If [m] is not
    UP_TO_DATE the bind step sets the derivation's state to [m] and calls
    onBecomeStale once; if [m] is UP_TO_DATE the bind step returns
    without writing the state, which is what it was when the step was
    entered, and without calling the callback.  The callback is taken not
    to write the derivation's own state. *)
Theorem bindDependencies_raises_state
    (kind : Id -> NodeKind)
    (onBecomeStale : Id -> World -> Completion unit * World)
    (d : Id) (rs : list Id) (w : World) (m : IDerivationState)
    (Hbuf : buffer_holds w d rs)
    (Hmax : staleness_maximum kind w rs m)
    (Hcb : forall w0, dependenciesState (snd (onBecomeStale d w0)) d =
                      dependenciesState w0 d) :
  let r := bindDependencies kind onBecomeStale d w in
  (m <> UP_TO_DATE ->
     dependenciesState (world r) d = m /\
     trace r = [EvOnBecomeStale d]) /\
  (m = UP_TO_DATE ->
     outcome r = Normal tt /\
     dependenciesState (world r) d = dependenciesState w d /\
     trace r = []).
Proof.
  intros r. subst r.
  rewrite (bindDependencies_run kind onBecomeStale d rs w Hbuf). cbv zeta.
  rewrite (staleness_maximum_unique kind w rs _ m
             (lowest_new_state_is_maximum kind w rs) Hmax).
  destruct (decide (m <> UP_TO_DATE)) as [Hm|Hm]; simpl.
  - split; [|intros E; contradiction].
    intros _. split; [|reflexivity].
    rewrite Hcb. simpl. apply upd_eq.
  - split; [intros E; contradiction|].
    intros _. split; [reflexivity|]. split; [|reflexivity].
    rewrite bound_world_dependenciesState. reflexivity.
Qed.

Lemma pending_world_buffer : buffer_holds pending_world 20 [1; 10; 1; 11].
Proof.
  split; [reflexivity|].
  exists [Some 1; Some 10; Some 1; Some 11; None; None].
  split; [reflexivity|].
  intros j Hj. simpl in Hj.
  destruct j as [|[|[|[|j]]]]; first [reflexivity | lia].
Qed.

Lemma restaled_world_buffer : buffer_holds restaled_world 20 [1].
Proof.
  split; [reflexivity|]. exists (Some 1 :: replicate 100 None).
  split; [reflexivity|]. intros j Hj. simpl in Hj.
  destruct j as [|j]; [reflexivity | lia].
Qed.

Lemma restaled_world_maximum :
  staleness_maximum sample_kind restaled_world [1] UP_TO_DATE.
Proof.
  split; [simpl; lia|]. split; [|left; reflexivity].
  intros c Hc Hk. apply list_elem_of_singleton in Hc. subst c.
  exfalso. apply Hk. reflexivity.
Qed.

Lemma bindDependencies_raises_state_witness :
  let r := bindDependencies sample_kind quiet_onBecomeStale 20
             pending_world in
  let r' := bindDependencies sample_kind quiet_onBecomeStale 20
              restaled_world in
  dependenciesState pending_world 20 = UP_TO_DATE /\
  dependenciesState (world r) 20 = STALE /\
  trace r = [EvOnBecomeStale 20] /\
  outcome r' = Normal tt /\
  dependenciesState (world r') 20 = dependenciesState restaled_world 20 /\
  trace r' = [].
Proof.
  intros r r'. split; [reflexivity|].
  assert (Hmax : staleness_maximum sample_kind pending_world
                   [1; 10; 1; 11] STALE).
  { split; [simpl; lia|]. split.
    - intros c _ _. destruct (dependenciesState pending_world c); simpl; lia.
    - right. exists 10. split; [right; left|]. split; [discriminate|].
      reflexivity. }
  pose proof (bindDependencies_raises_state sample_kind quiet_onBecomeStale
                20 [1; 10; 1; 11] pending_world STALE pending_world_buffer
                Hmax (fun w0 => eq_refl)) as [H _].
  pose proof (bindDependencies_raises_state sample_kind quiet_onBecomeStale
                20 [1] restaled_world UP_TO_DATE restaled_world_buffer
                restaled_world_maximum (fun w0 => eq_refl)) as [_ H'].
  destruct (H ltac:(discriminate)) as [Hs Ht].
  destruct (H' eq_refl) as (Ho' & Hs' & Ht').
  split; [exact Hs|]. split; [exact Ht|].
  split; [exact Ho'|]. split; [exact Hs' | exact Ht'].
Defined.

(** C5 as worded fails on a derivation that was made STALE while it
    was evaluated: the one cell read is an atom, the maximum is
    UP_TO_DATE, line 204 skips the write, and the derivation leaves the
    bind step STALE, not UP_TO_DATE. *)
Lemma bindDependencies_keeps_stale_state :
  ~ (let r := bindDependencies sample_kind quiet_onBecomeStale 20
                restaled_world in
     buffer_holds restaled_world 20 [1] ->
     staleness_maximum sample_kind restaled_world [1] UP_TO_DATE ->
     dependenciesState (world r) 20 = UP_TO_DATE /\ trace r = []).
Proof.
  intros H.
  destruct (H restaled_world_buffer restaled_world_maximum) as [Hs _].
  vm_compute in Hs. discriminate.
Qed.

(** The same through trackDerivedFunction: a body that makes its own
    reaction stale leaves it STALE after the evaluation, with no call of
    the callback. *)
Lemma trackDerivedFunction_self_invalidating :
  let r := trackDerivedFunction sample_kind quiet_onBecomeStale 20
             self_invalidating_body subscribed_world in
  outcome r = Normal (Returned 0%Z) /\
  observing (world r) 20 = [1] /\
  dependenciesState (world r) 20 = STALE /\
  trace r = [].
Proof. vm_compute. repeat split. Qed.

(** A dependency that is NOT_TRACKING lies below UP_TO_DATE and raises
    nothing: the fold starts from UP_TO_DATE. *)
Lemma bindDependencies_not_tracking_dependency :
  let r := bindDependencies sample_kind quiet_onBecomeStale 20
             untracked_dependency_world in
  sample_kind 10 = KComputedValue /\
  dependenciesState untracked_dependency_world 10 = NOT_TRACKING /\
  outcome r = Normal tt /\
  observing (world r) 20 = [10] /\
  dependenciesState (world r) 20 = UP_TO_DATE /\
  trace r = [].
Proof. vm_compute. repeat split. Qed.

(** ** The subscription invariant *)

Lemma well_formed_set_dependenciesState d s w :
  well_formed w -> well_formed (set_dependenciesState d s w).
Proof. intros H. exact H. Qed.

(** The heap before line 204 is well formed again. *)
Lemma bound_world_well_formed d rs w :
  well_formed w -> well_formed (bound_world d rs w).
Proof.
  intros (H0 & Hnd & Hagree).
  destruct (bound_world_spec d rs w H0 (Hnd d))
    as (Hobs & _ & _ & _ & _ & Hdv & Hsub).
  split; [exact Hdv|]. split.
  - intros d'. rewrite Hobs. unfold upd.
    destruct (decide (d' = d)); [apply NoDup_first_occurrences | apply Hnd].
  - intros d' c. rewrite Hobs, Hsub. unfold upd.
    pose proof (Hagree d' c) as Hdc. pose proof (Hagree d c) as Hd.
    pose proof (elem_of_first_occurrences c rs) as Hfo.
    destruct (decide (c ∈ rs)) as [Hr|Hr];
      destruct (decide (c ∈ observing w d)) as [Hp|Hp];
      destruct (decide (d' = d)) as [->|Hne];
      rewrite ?elem_of_app, ?list_elem_of_singleton, ?list_elem_of_filter;
      tauto.
Qed.

Lemma remove_all_effect d l w :
  let w' := run_pure (remove_step d) l w in
  diffValue w' = diffValue w /\
  forall c, observers w' c =
            if decide (c ∈ l) then filter (fun x => x <> d) (observers w c)
            else observers w c.
Proof.
  induction l as [|x l IH]; cbn [run_pure foldr]; cbv zeta.
  - split; [reflexivity|]. intros c.
    rewrite decide_False by apply not_elem_of_nil. reflexivity.
  - cbv zeta in IH. fold (run_pure (remove_step d) l w).
    destruct IH as [Hdv Hobs]. split; [exact Hdv|].
    intros c. unfold remove_step. simpl. unfold upd.
    destruct (decide (c = x)) as [->|Hne].
    + rewrite decide_True by left. rewrite Hobs.
      destruct (decide (x ∈ l)); [|reflexivity].
      rewrite list_filter_filter. apply list_filter_iff. tauto.
    + rewrite Hobs.
      destruct (decide (c ∈ l)) as [Hl|Hl].
      * rewrite decide_True by (right; exact Hl). reflexivity.
      * rewrite decide_False; [reflexivity|]. rewrite elem_of_cons. tauto.
Qed.

(** clearObserving always returns, calls nothing, and reaches this heap. *)
Lemma clearObserving_run d w :
  clearObserving d w =
    mkRes (Normal tt)
      (set_dependenciesState d NOT_TRACKING
         (run_pure (remove_step d) (observing w d) (set_observing d [] w)))
      [].
Proof.
  unfold clearObserving.
  erewrite run_bind_normal by apply run_reads.
  erewrite run_bind_normal by apply run_modify.
  erewrite run_bind_normal
    by (apply (while_down_all_pure _ (remove_step d)); reflexivity).
  reflexivity.
Qed.

Lemma clearObserving_well_formed d w :
  well_formed w -> well_formed (world (clearObserving d w)).
Proof.
  intros (H0 & Hnd & Hagree). rewrite clearObserving_run. simpl.
  pose proof (remove_all_effect d (observing w d) (set_observing d [] w))
    as [Hdv Hobs].
  pose proof (run_pure_frame _ (remove_step_frame d) (observing w d)
                (set_observing d [] w)) as (_&_&G&_).
  cbv zeta in Hdv, Hobs.
  split; [|split].
  - intros c. simpl. rewrite Hdv. apply H0.
  - intros d'. simpl. rewrite G. simpl. unfold upd.
    destruct (decide (d' = d)); [constructor | apply Hnd].
  - intros d' c. simpl. rewrite G, Hobs. simpl. unfold upd.
    pose proof (Hagree d' c) as Hdc. pose proof (Hagree d c) as Hd.
    destruct (decide (c ∈ observing w d)) as [Hp|Hp];
      destruct (decide (d' = d)) as [->|Hne];
      rewrite ?list_elem_of_filter, ?elem_of_nil; tauto.
Qed.

(** C6.  Disposal and the bind step both take a well-formed heap to a
    well-formed heap; in particular, afterwards a derivation is among a
    cell's observers iff the cell is in the derivation's dependency list.
    clearObserving does so on every well-formed heap and for every
    derivation, with a pending buffer or (as outside a pass) without one,
    and always returns.  bindDependencies does so whenever it runs on a
    buffer of reads, whatever the reads are; the callback at its end is
    taken to keep a well-formed heap well formed. *)
Theorem subscriptions_agree_preserved
    (kind : Id -> NodeKind)
    (onBecomeStale : Id -> World -> Completion unit * World)
    (d : Id) (w : World)
    (Hwf : well_formed w) :
  (outcome (clearObserving d w) = Normal tt /\
   well_formed (world (clearObserving d w)) /\
   subscriptions_agree (world (clearObserving d w))) /\
  (forall rs : list Id,
     buffer_holds w d rs ->
     (forall w0, well_formed w0 ->
                 well_formed (snd (onBecomeStale d w0))) ->
     well_formed (world (bindDependencies kind onBecomeStale d w)) /\
     subscriptions_agree (world (bindDependencies kind onBecomeStale d w))).
Proof.
  split.
  - pose proof (clearObserving_well_formed d w Hwf) as Hclear.
    split; [rewrite clearObserving_run; reflexivity|].
    split; [exact Hclear | apply Hclear].
  - intros rs Hbuf Hcb.
    assert (Hbind : well_formed
              (world (bindDependencies kind onBecomeStale d w))).
    { rewrite (bindDependencies_run kind onBecomeStale d rs w Hbuf).
      cbv zeta. destruct (decide _); simpl.
      - apply Hcb, well_formed_set_dependenciesState,
          bound_world_well_formed, Hwf.
      - apply bound_world_well_formed, Hwf. }
    split; [exact Hbind | apply Hbind].
Qed.

(** The heap nothing has run on yet is well formed. *)
Lemma idle_world_well_formed : well_formed idle_world.
Proof.
  split; [intros c; reflexivity|]. split.
  - intros d. apply NoDup_nil_2.
  - intros d c. simpl. rewrite !elem_of_nil. tauto.
Qed.

Lemma pending_world_well_formed : well_formed pending_world.
Proof.
  split; [intros c; reflexivity|]. split.
  - intros d. cbn. unfold upd.
    repeat case_decide; subst;
      rewrite ?NoDup_cons, ?not_elem_of_cons, ?NoDup_nil, ?elem_of_nil;
      intuition lia.
  - intros d c. cbn. unfold upd.
    repeat case_decide; subst;
      rewrite ?elem_of_cons, ?elem_of_nil; intuition lia.
Qed.

(** A heap outside any pass: reaction 20 holds no buffer and is
    subscribed to its two dependencies. *)
Lemma subscribed_world_well_formed : well_formed subscribed_world.
Proof.
  split; [intros c; reflexivity|]. split.
  - intros d. cbn. unfold upd.
    repeat case_decide; subst;
      rewrite ?NoDup_cons, ?not_elem_of_cons, ?NoDup_nil, ?elem_of_nil;
      intuition lia.
  - intros d c. cbn. unfold upd.
    repeat case_decide; subst;
      rewrite ?elem_of_cons, ?elem_of_nil; intuition lia.
Qed.

Lemma subscriptions_agree_preserved_witness :
  newObserving subscribed_world 20 = None /\
  outcome (clearObserving 20 subscribed_world) = Normal tt /\
  (20 ∈ observers (world (clearObserving 20 subscribed_world)) 1 <->
   1 ∈ observing (world (clearObserving 20 subscribed_world)) 20) /\
  (20 ∈ observers (world (bindDependencies sample_kind quiet_onBecomeStale
                            20 pending_world)) 10 <->
   10 ∈ observing (world (bindDependencies sample_kind quiet_onBecomeStale
                            20 pending_world)) 20).
Proof.
  pose proof (subscriptions_agree_preserved sample_kind quiet_onBecomeStale
                20 subscribed_world subscribed_world_well_formed)
    as ((Hret & _ & Hclear) & _).
  pose proof (subscriptions_agree_preserved sample_kind quiet_onBecomeStale
                20 pending_world pending_world_well_formed)
    as (_ & Hbind).
  destruct (Hbind [1; 10; 1; 11] pending_world_buffer (fun w0 H => H))
    as [_ Hagree].
  split; [reflexivity|]. split; [exact Hret|].
  split; [apply Hclear | apply Hagree].
Defined.

(** ** Reads inside a tracked body *)

Lemma arr_get_set_eq (a : Arr) n x : arr_get (arr_set a n x) n = Some x.
Proof.
  unfold arr_get, arr_set. destruct (decide (n < length a)) as [H|H].
  - rewrite list_lookup_insert_eq by exact H. reflexivity.
  - rewrite lookup_app_r by lia.
    rewrite lookup_app_r by (rewrite length_replicate; lia).
    rewrite length_replicate.
    replace (n - length a - (n - length a)) with 0 by lia. reflexivity.
Qed.

Lemma arr_get_set_lt (a : Arr) n x j :
  j < n -> arr_get (arr_set a n x) j = arr_get a j.
Proof.
  intros Hj. unfold arr_get, arr_set.
  destruct (decide (n < length a)) as [H|H].
  - rewrite list_lookup_insert_ne by lia. reflexivity.
  - destruct (decide (j < length a)) as [Hja|Hja].
    + rewrite lookup_app_l by exact Hja. reflexivity.
    + rewrite lookup_app_r by lia.
      rewrite lookup_app_l by (rewrite length_replicate; lia).
      rewrite lookup_replicate_2 by lia.
      rewrite (lookup_ge_None_2 a j) by lia. reflexivity.
Qed.

Lemma reportObserved_run d c w arr :
  trackingDerivation w = Some d ->
  newObserving w d = Some arr ->
  reportObserved c w =
    mkRes (Normal tt)
      (set_unboundDepsCount d (S (unboundDepsCount w d))
         (set_newObserving d
            (Some (arr_set arr (unboundDepsCount w d) c)) w)) [].
Proof.
  intros Ht Hb. unfold reportObserved, bindM, reads.
  cbn [outcome world trace]. rewrite Ht.
  cbn [outcome world trace]. rewrite Hb.
  reflexivity.
Qed.

(** A body that reads [cells] while [d] is tracking appends them to the
    buffer of [d] and changes nothing else. *)
Lemma read_all_run d cells :
  forall w done arr,
    trackingDerivation w = Some d ->
    newObserving w d = Some arr ->
    unboundDepsCount w d = length done ->
    (forall j, j < length done -> arr_get arr j = done !! j) ->
    exists w',
      read_all cells w = mkRes (Normal tt) w' [] /\
      buffer_holds w' d (done ++ cells) /\
      same_outside_buffer w w'.
Proof.
  induction cells as [|c rest IH]; intros w done arr Ht Hb Hn Hdone.
  - exists w. split; [reflexivity|]. split.
    + rewrite app_nil_r. split; [exact Hn|]. exists arr. split; assumption.
    + unfold same_outside_buffer. tauto.
  - set (w1 := set_unboundDepsCount d (S (length done))
                 (set_newObserving d (Some (arr_set arr (length done) c)) w)).
    destruct (IH w1 (done ++ [c]) (arr_set arr (length done) c))
      as (w' & Hrun & Hbuf & Hframe).
    + exact Ht.
    + simpl. rewrite upd_eq. reflexivity.
    + simpl. rewrite upd_eq, length_app. simpl. lia.
    + intros j Hj. rewrite length_app in Hj. simpl in Hj.
      destruct (decide (j = length done)) as [->|Hne].
      * rewrite arr_get_set_eq. rewrite lookup_app_r by lia.
        rewrite Nat.sub_diag. reflexivity.
      * rewrite arr_get_set_lt by lia. rewrite lookup_app_l by lia.
        apply Hdone. lia.
    + exists w'. split; [|split].
      * cbn [read_all].
        erewrite run_bind_normal by (apply reportObserved_run; eassumption).
        rewrite Hn. fold w1. rewrite Hrun. reflexivity.
      * rewrite <- app_assoc in Hbuf. exact Hbuf.
      * unfold same_outside_buffer in *. simpl in Hframe. exact Hframe.
Qed.

(** ** trackDerivedFunction on a body of reads *)

(** Up to the bind step, an evaluation of a body that reads [cells] and
    then returns or throws: the buffer of [d] holds the reads, the
    tracking derivation is the one from before the call, [d] has been
    forced UP_TO_DATE, and the subscriptions are untouched.  A thrown
    value reaches the bind step as a CaughtException. *)
Lemma trackDerivedFunction_reads_run kind cb d cells w :
  exists w3,
    buffer_holds w3 d cells /\
    observers w3 = observers w /\ diffValue w3 = diffValue w /\
    observing w3 = observing w /\
    trackingDerivation w3 = trackingDerivation w /\
    (forall x, dependenciesState w3 x =
               if decide (x = d) then UP_TO_DATE else dependenciesState w x) /\
    (forall v,
       trackDerivedFunction kind cb d (do read_all cells then ret v) w =
         bindM (bindDependencies kind cb d)
               (fun _ => ret (Returned v)) w3) /\
    (forall e,
       trackDerivedFunction kind cb d (do read_all cells then throw e) w =
         bindM (bindDependencies kind cb d)
               (fun _ => ret (CaughtException e)) w3).
Proof.
  destruct (changeDependenciesStateTo0_effect d w)
    as (wa & Hrun_a & Hbook & Hstate & _ & _).
  destruct Hbook as (Ho_a & Hd_a & _ & Hg_a & _ & _ & _ & Ht_a & _).
  set (rid := number_increment (globalRunId wa)).
  set (w1 := set_trackingDerivation (Some d)
               (set_runId d rid
                  (set_globalRunId rid
                     (set_unboundDepsCount d 0
                        (set_newObserving d
                           (Some (replicate (length (observing wa d) + 100)
                                    None)) wa))))).
  destruct (read_all_run d cells w1 []
              (replicate (length (observing wa d) + 100) None))
    as (w2 & Hrun2 & Hbuf2 & Hframe2).
  { reflexivity. }
  { simpl. apply upd_eq. }
  { simpl. apply upd_eq. }
  { intros j Hj. simpl in Hj. lia. }
  simpl in Hbuf2.
  destruct Hframe2 as (Ho2 & Hd2 & _ & _ & Hg2 & Hs2 & _ & Ht2 & _).
  exists (set_trackingDerivation (trackingDerivation wa) w2).
  split; [exact Hbuf2|].
  split; [simpl; rewrite Ho2; exact Ho_a|].
  split; [simpl; rewrite Hd2; exact Hd_a|].
  split; [simpl; rewrite Hg2; exact Hg_a|].
  split; [simpl; exact Ht_a|].
  split; [intros x; simpl; rewrite Hs2; simpl; apply Hstate|].
  assert (Hprefix : forall (fin : M Val) (result : TrackResult),
            (forall w0, try_catch (let* v := fin in ret (Returned v))
                          (fun e => ret (CaughtException e)) w0 =
                        mkRes (Normal result) w0 []) ->
            trackDerivedFunction kind cb d (do read_all cells then fin) w =
              bindM (bindDependencies kind cb d) (fun _ => ret result)
                (set_trackingDerivation (trackingDerivation wa) w2)).
  { intros fin result Hfin. unfold trackDerivedFunction.
    erewrite run_bind_normal by exact Hrun_a.
    erewrite run_bind_normal by apply run_reads.
    erewrite run_bind_normal by apply run_modify.
    erewrite run_bind_normal by apply run_modify.
    erewrite run_bind_normal by apply run_reads.
    erewrite run_bind_normal by apply run_modify.
    erewrite run_bind_normal by apply run_modify.
    erewrite run_bind_normal by apply run_reads.
    erewrite run_bind_normal by apply run_modify.
    cbn [outcome world trace app]. fold rid. fold w1.
    assert (Hbody : try_catch
              (let* v := (do read_all cells then fin) in ret (Returned v))
              (fun e => ret (CaughtException e)) w1 =
            mkRes (Normal result) w2 []).
    { specialize (Hfin w2). revert Hfin.
      unfold try_catch, bindM. rewrite Hrun2. cbn [outcome world trace app].
      destruct (fin w2) as [[v|e] wf tf]; cbn [outcome world trace app];
        unfold ret; cbn [outcome world trace app]; intros Hfin; exact Hfin. }
    erewrite run_bind_normal by exact Hbody.
    erewrite run_bind_normal by apply run_modify.
    cbn [outcome world trace app].
    change (trackingDerivation
              (set_runId d rid
                 (set_globalRunId rid
                    (set_unboundDepsCount d 0
                       (set_newObserving d
                          (Some (replicate (length (observing wa d) + 100)
                                   None)) wa)))))
      with (trackingDerivation wa).
    apply res_eta. }
  split.
  - intros v. apply Hprefix. reflexivity.
  - intros e. apply Hprefix. reflexivity.
Qed.

Lemma occurrences_snoc d l : occurrences d (l ++ [d]) = S (occurrences d l).
Proof.
  unfold occurrences. rewrite filter_app, length_app.
  rewrite filter_cons_True by reflexivity. simpl. lia.
Qed.

Lemma occurrences_removed d l :
  occurrences d (filter (fun x => x <> d) l) = 0.
Proof.
  unfold occurrences. rewrite list_filter_filter.
  induction l as [|x l IH]; [reflexivity|].
  rewrite filter_cons_False by tauto. exact IH.
Qed.

Lemma occurrences_zero d l : occurrences d l = 0 -> d ∉ l.
Proof.
  unfold occurrences. intros H Hin.
  assert (Hd : d ∈ filter (fun x => x = d) l)
    by (apply list_elem_of_filter; split; [reflexivity | exact Hin]).
  destruct (filter (fun x => x = d) l); [inversion Hd | discriminate].
Qed.

(** After the three loops the derivation is held exactly once by every
    cell it read and by no other cell. *)
Lemma bound_world_subscribed_once d rs w :
  (forall c, diffValue w c = 0%Z) ->
  NoDup (observing w d) ->
  subscribed_once w d ->
  observing (bound_world d rs w) d = first_occurrences rs /\
  subscribed_once (bound_world d rs w) d.
Proof.
  intros H0 Hnd Hsub.
  destruct (bound_world_spec d rs w H0 Hnd)
    as (Hobs & _ & _ & _ & _ & _ & Hobservers).
  split; [rewrite Hobs; apply upd_eq|].
  intros c. rewrite Hobs, upd_eq, Hobservers.
  pose proof (Hsub c) as Hc.
  pose proof (elem_of_first_occurrences c rs) as Hfo.
  destruct (decide (c ∈ rs)) as [Hr|Hr];
    destruct (decide (c ∈ observing w d)) as [Hp|Hp].
  - rewrite decide_True by (apply Hfo, Hr). exact Hc.
  - rewrite decide_True by (apply Hfo, Hr).
    rewrite occurrences_snoc, Hc. reflexivity.
  - rewrite decide_False by (intros H; apply Hr, Hfo, H).
    apply occurrences_removed.
  - rewrite decide_False by (intros H; apply Hr, Hfo, H). exact Hc.
Qed.

Lemma bind_then_ret_world {A B} (m : M A) (b : B) w :
  world (bindM m (fun _ => ret b) w) = world (m w) /\
  trace (bindM m (fun _ => ret b) w) = trace (m w) /\
  (forall a, outcome (m w) = Normal a ->
             outcome (bindM m (fun _ => ret b) w) = Normal b).
Proof.
  unfold bindM, ret. destruct (m w) as [[a|e] w' t]; simpl.
  - rewrite app_nil_r. repeat split.
  - repeat split. intros a H. discriminate.
Qed.

(** An evaluation of a body that reads [cells], on a heap with neutral
    markers on which [d] is subscribed exactly to its duplicate-free
    dependency list, with a callback that leaves the subscriptions
    alone: [d] ends up subscribed exactly to the ordered-unique sequence
    of the reads, whether the body returns or throws, and the two heaps
    are the same. *)
Lemma trackDerivedFunction_reads_effect kind cb d cells w :
  (forall c, diffValue w c = 0%Z) ->
  NoDup (observing w d) ->
  subscribed_once w d ->
  (forall w0, observers (snd (cb d w0)) = observers w0 /\
              observing (snd (cb d w0)) = observing w0) ->
  forall v e,
    let r_ok := trackDerivedFunction kind cb d
                  (do read_all cells then ret v) w in
    let r_ex := trackDerivedFunction kind cb d
                  (do read_all cells then throw e) w in
    world r_ex = world r_ok /\ trace r_ex = trace r_ok /\
    observing (world r_ok) d = first_occurrences cells /\
    subscribed_once (world r_ok) d /\
    ((forall w0, fst (cb d w0) = Normal tt) ->
     outcome r_ok = Normal (Returned v) /\
     outcome r_ex = Normal (CaughtException e)).
Proof.
  intros H0 Hnd Hsub Hcb v e.
  destruct (trackDerivedFunction_reads_run kind cb d cells w)
    as (w3 & Hbuf & Ho3 & Hd3 & Hg3 & _ & _ & Hok & Hex).
  cbv zeta. rewrite Hok, Hex.
  destruct (bind_then_ret_world (bindDependencies kind cb d)
              (Returned v) w3) as (Wok & Tok & Ook).
  destruct (bind_then_ret_world (bindDependencies kind cb d)
              (CaughtException e) w3) as (Wex & Tex & Oex).
  rewrite Wok, Wex, Tok, Tex.
  split; [reflexivity|]. split; [reflexivity|].
  assert (H03 : forall c, diffValue w3 c = 0%Z)
    by (intros c; rewrite Hd3; apply H0).
  assert (Hnd3 : NoDup (observing w3 d)) by (rewrite Hg3; exact Hnd).
  assert (Hsub3 : subscribed_once w3 d).
  { intros c. rewrite Ho3, Hg3. apply Hsub. }
  destruct (bound_world_subscribed_once d cells w3 H03 Hnd3 Hsub3)
    as [Hnew Honce].
  rewrite (bindDependencies_run kind cb d cells w3 Hbuf) in *. cbv zeta in *.
  destruct (decide (lowest_new_state kind (dependenciesState w3)
                      UP_TO_DATE cells <> UP_TO_DATE)) as [Hm|Hm];
    cbn [outcome world trace] in *.
  - destruct (Hcb (set_dependenciesState d
                     (lowest_new_state kind (dependenciesState w3)
                        UP_TO_DATE cells)
                     (bound_world d cells w3))) as [Hco Hcg].
    split; [rewrite Hcg; exact Hnew|]. split.
    + intros c. rewrite Hco, Hcg. apply Honce.
    + intros Hret. split; [eapply Ook | eapply Oex]; apply Hret.
  - split; [exact Hnew|]. split; [exact Honce|].
    intros _. split; [eapply Ook | eapply Oex]; reflexivity.
Qed.

(** ** Dependency-set exactness *)

(** C1.  On a heap with neutral diff markers on which derivation [d] is
    held exactly once by each cell of its duplicate-free dependency list
    and by no other cell, an evaluation whose body reads [cells]
    leaves the ordered-unique sequence of the reads as the dependency
    list, [d] exactly once among the observers of every cell read, and
    [d] out of the observers of every former dependency not read again.
    The onBecomeStale callback is taken to leave the subscriptions
    alone. *)
Theorem trackDerivedFunction_dependency_exactness
    (kind : Id -> NodeKind)
    (onBecomeStale : Id -> World -> Completion unit * World)
    (d : Id) (cells : list Id) (v : Val) (w : World)
    (Hneutral : forall c, diffValue w c = 0%Z)
    (Hunique : NoDup (observing w d))
    (Hsubscribed : subscribed_once w d)
    (Hcallback : forall w0,
       observers (snd (onBecomeStale d w0)) = observers w0 /\
       observing (snd (onBecomeStale d w0)) = observing w0) :
  let r := trackDerivedFunction kind onBecomeStale d
             (do read_all cells then ret v) w in
  observing (world r) d = first_occurrences cells /\
  (forall c, c ∈ cells -> occurrences d (observers (world r) c) = 1) /\
  (forall c, c ∈ observing w d -> c ∉ cells ->
             d ∉ observers (world r) c) /\
  subscribed_once (world r) d.
Proof.
  intros r. subst r.
  destruct (trackDerivedFunction_reads_effect kind onBecomeStale d cells w
              Hneutral Hunique Hsubscribed Hcallback v TypeError)
    as (_ & _ & Hnew & Honce & _).
  cbv zeta in Hnew, Honce.
  split; [exact Hnew|]. split; [|split; [|exact Honce]].
  - intros c Hc. rewrite (Honce c), Hnew.
    rewrite decide_True by (apply elem_of_first_occurrences, Hc).
    reflexivity.
  - intros c _ Hc. apply occurrences_zero. rewrite (Honce c), Hnew.
    rewrite decide_False; [reflexivity|].
    intros H. apply Hc, elem_of_first_occurrences, H.
Qed.

Lemma subscribed_world_once : subscribed_once subscribed_world 20.
Proof.
  intros c. change (observing subscribed_world 20) with [1; 5].
  change (observers subscribed_world c)
    with (upd (upd (fun _ => []) 5 [20]) 1 [20] c).
  unfold upd.
  destruct (decide (c = 1)) as [->|H1]; [reflexivity|].
  destruct (decide (c = 5)) as [->|H2]; [reflexivity|].
  rewrite decide_False; [reflexivity|].
  rewrite !elem_of_cons, elem_of_nil. lia.
Qed.

Lemma subscribed_world_unique : NoDup (observing subscribed_world 20).
Proof.
  change (observing subscribed_world 20) with [1; 5].
  apply NoDup_cons_2.
  - rewrite elem_of_cons, elem_of_nil. lia.
  - apply NoDup_singleton.
Qed.

Lemma trackDerivedFunction_dependency_exactness_witness :
  let r := trackDerivedFunction sample_kind quiet_onBecomeStale 20
             (do read_all [1; 2; 1; 3] then ret 5%Z) subscribed_world in
  observing (world r) 20 = [1; 2; 3] /\
  occurrences 20 (observers (world r) 1) = 1 /\
  occurrences 20 (observers (world r) 2) = 1 /\
  occurrences 20 (observers (world r) 3) = 1 /\
  20 ∉ observers (world r) 5.
Proof.
  intros r.
  pose proof (trackDerivedFunction_dependency_exactness sample_kind
                quiet_onBecomeStale 20 [1; 2; 1; 3] 5%Z subscribed_world
                (fun c => eq_refl) subscribed_world_unique
                subscribed_world_once (fun w0 => conj eq_refl eq_refl))
    as (Hnew & Hread & Hdropped & _).
  split; [exact Hnew|].
  split; [apply Hread; left|].
  split; [apply Hread; right; left|].
  split; [apply Hread; right; right; right; left|].
  apply Hdropped.
  - right; left.
  - rewrite !elem_of_cons, elem_of_nil. lia.
Defined.

(** ** A body that fails *)

(** C3, as the code has it.  Under the conditions of dependency-set
    exactness and with a callback that returns normally, an evaluation
    whose body reads [cells] and then throws [e] completes the bind step
    exactly as the evaluation of a body that reads the same cells and
    returns: same heap, same outgoing calls, [d] subscribed to the
    ordered-unique sequence of the reads.  trackDerivedFunction itself
    returns normally, and its result is the CaughtException carrying
    [e]. *)
Theorem trackDerivedFunction_body_failure
    (kind : Id -> NodeKind)
    (onBecomeStale : Id -> World -> Completion unit * World)
    (d : Id) (cells : list Id) (e : Exn) (v : Val) (w : World)
    (Hneutral : forall c, diffValue w c = 0%Z)
    (Hunique : NoDup (observing w d))
    (Hsubscribed : subscribed_once w d)
    (Hcallback : forall w0,
       observers (snd (onBecomeStale d w0)) = observers w0 /\
       observing (snd (onBecomeStale d w0)) = observing w0)
    (Hreturns : forall w0, fst (onBecomeStale d w0) = Normal tt) :
  let r := trackDerivedFunction kind onBecomeStale d
             (do read_all cells then throw e) w in
  let r_ok := trackDerivedFunction kind onBecomeStale d
                (do read_all cells then ret v) w in
  outcome r = Normal (CaughtException e) /\
  outcome r_ok = Normal (Returned v) /\
  world r = world r_ok /\ trace r = trace r_ok /\
  observing (world r) d = first_occurrences cells /\
  subscribed_once (world r) d /\
  (forall c, c ∈ cells -> occurrences d (observers (world r) c) = 1).
Proof.
  intros r r_ok. subst r r_ok.
  destruct (trackDerivedFunction_reads_effect kind onBecomeStale d cells w
              Hneutral Hunique Hsubscribed Hcallback v e)
    as (Hw & Ht & Hnew & Honce & Hout).
  cbv zeta in Hw, Ht, Hnew, Honce, Hout.
  destruct (Hout Hreturns) as [Hok Hex].
  split; [exact Hex|]. split; [exact Hok|].
  split; [exact Hw|]. split; [exact Ht|].
  rewrite Hw. split; [exact Hnew|]. split; [exact Honce|].
  intros c Hc. rewrite (Honce c), Hnew.
  rewrite decide_True by (apply elem_of_first_occurrences, Hc).
  reflexivity.
Qed.

Lemma trackDerivedFunction_body_failure_witness :
  let r := trackDerivedFunction sample_kind quiet_onBecomeStale 20
             (do read_all [3] then throw (Raised 7)) subscribed_world in
  outcome r = Normal (CaughtException (Raised 7)) /\
  observing (world r) 20 = [3] /\
  occurrences 20 (observers (world r) 3) = 1.
Proof.
  intros r.
  pose proof (trackDerivedFunction_body_failure sample_kind
                quiet_onBecomeStale 20 [3] (Raised 7) 0%Z subscribed_world
                (fun c => eq_refl) subscribed_world_unique
                subscribed_world_once (fun w0 => conj eq_refl eq_refl)
                (fun w0 => eq_refl))
    as (Hout & _ & _ & _ & Hnew & _ & Hread).
  split; [exact Hout|]. split; [exact Hnew|].
  apply Hread. left.
Defined.

(** C3 as worded fails: the failure of the body is not raised
    to the caller of trackDerivedFunction, which returns normally. *)
Lemma trackDerivedFunction_does_not_rethrow :
  ~ (outcome (trackDerivedFunction sample_kind quiet_onBecomeStale 20
                (do reportObserved 1 then throw (Raised 7)) idle_world)
     = Throw (Raised 7)).
Proof. vm_compute. discriminate. Qed.

(** * Further properties of derivation.ts *)

(** ** shouldCompute on every heap *)

Lemma world_eta (w : World) :
  mkWorld (observers w) (diffValue w) (lowestObserverState w) (name w)
    (observing w) (newObserving w) (dependenciesState w) (runId w)
    (unboundDepsCount w) (trackingDerivation w) (globalRunId w)
    (computationDepth w) (allowStateChanges w) (strictMode w) = w.
Proof. destruct w; reflexivity. Qed.

Lemma computed_cells_split kind (pre : list Id) c post :
  computed_cells kind (pre ++ c :: post) =
    computed_cells kind (pre ++ [c]) ++ computed_cells kind post.
Proof.
  replace (pre ++ c :: post) with ((pre ++ [c]) ++ post)
    by (rewrite <- app_assoc; reflexivity).
  apply computed_cells_app.
Qed.

(** Every run of shouldCompute on a POSSIBLY_STALE derivation, whatever
    [get] does: it returns normally, the forced cells are an initial
    stretch of the computed values of the dependency list, the heap is one
    with the tracking derivation put back, and the answer [false] comes
    with all of them forced and the derivation UP_TO_DATE, the answer
    [true] with at least one forced. *)
Lemma shouldCompute_scan_summary kind get d w :
  dependenciesState w d = POSSIBLY_STALE ->
  exists (b : bool) (forced rest : list Id) (w' : World),
    shouldCompute kind get d w =
      mkRes (Normal b) (set_trackingDerivation (trackingDerivation w) w')
        (EvGet <$> forced) /\
    computed_cells kind (observing w d) = forced ++ rest /\
    (b = false -> rest = [] /\ dependenciesState w' d = UP_TO_DATE) /\
    (b = true -> forced <> []).
Proof.
  intros Hs.
  destruct (scan_cases kind get d (observing w d)
              (set_trackingDerivation None w))
    as [[w1 Hq] | (pre & c & post & w1 & r & w2 & El & Hq & Hk & Hget & Hstop)].
  - destruct (shouldCompute_completes kind get d w w1 Hs Hq)
      as (Ho & Ht & Hw & Hst).
    exists false, (computed_cells kind (observing w d)), [],
      (world (changeDependenciesStateTo0 d w1)).
    split; [|split; [|split]].
    + rewrite <- Ho, <- Ht, <- Hw. symmetry. apply res_eta.
    + rewrite app_nil_r. reflexivity.
    + intros _. split; [reflexivity|]. rewrite Hw in Hst. exact Hst.
    + discriminate.
  - exists true, (computed_cells kind (pre ++ [c])),
      (computed_cells kind post), w2.
    split; [|split; [|split]].
    + destruct r as [v|e].
      * destruct Hstop as [[e He]|Hstale]; [discriminate|].
        eapply shouldCompute_stops_when_stale; eauto.
      * eapply shouldCompute_stops_when_get_throws; eauto.
    + rewrite El. apply computed_cells_split.
    + discriminate.
    + intros _. rewrite computed_cells_app.
      unfold computed_cells at 2. rewrite filter_cons_True by exact Hk.
      intros E. apply app_eq_nil in E as [_ E]. discriminate.
Qed.

(** The three states that need no scan. *)
Lemma shouldCompute_settled_run kind get d w :
  dependenciesState w d <> POSSIBLY_STALE ->
  shouldCompute kind get d w =
    mkRes (Normal (negb (bool_decide (dependenciesState w d = UP_TO_DATE))))
      w [].
Proof.
  intros Hs. unfold shouldCompute, bindM, reads. cbn [outcome world trace].
  destruct (dependenciesState w d) eqn:E; try reflexivity. congruence.
Qed.

(** X1.  On a derivation that is UP_TO_DATE, NOT_TRACKING or STALE
    shouldCompute answers at once: [false] for UP_TO_DATE and [true] for
    the other two, with the heap untouched and no dependency forced; and
    asking again any number of times gives the same answer on the same
    heap. *)
Theorem shouldCompute_settled
    (kind : Id -> NodeKind) (get : Id -> World -> Completion Val * World)
    (d : Id) (w : World)
    (Hs : dependenciesState w d <> POSSIBLY_STALE) :
  shouldCompute kind get d w =
    mkRes (Normal (negb (bool_decide (dependenciesState w d = UP_TO_DATE))))
      w [] /\
  forall n,
    Nat.iter n (fun w0 => world (shouldCompute kind get d w0)) w = w.
Proof.
  pose proof (shouldCompute_settled_run kind get d w Hs) as Hrun.
  split; [exact Hrun|].
  induction n as [|n IH]; [reflexivity|].
  rewrite Nat.iter_succ, IH, Hrun. reflexivity.
Qed.

Lemma shouldCompute_settled_witness :
  shouldCompute sample_kind sample_get 20 raised_floor_world =
    mkRes (Normal false) raised_floor_world [] /\
  shouldCompute sample_kind sample_get 21 raised_floor_world =
    mkRes (Normal true) raised_floor_world [].
Proof.
  split.
  - apply (shouldCompute_settled sample_kind sample_get 20
             raised_floor_world). discriminate.
  - apply (shouldCompute_settled sample_kind sample_get 21
             raised_floor_world). discriminate.
Defined.

(** X2.  shouldCompute never throws and always hands the tracking
    derivation back: whatever state the derivation is in and whatever the
    forced [get]s do (return, throw, change the tracking derivation
    themselves), the call returns a boolean and
    [globalState.trackingDerivation] is what it was on entry. *)
Theorem shouldCompute_returns_and_restores_tracking
    (kind : Id -> NodeKind) (get : Id -> World -> Completion Val * World)
    (d : Id) (w : World) :
  (exists b, outcome (shouldCompute kind get d w) = Normal b) /\
  trackingDerivation (world (shouldCompute kind get d w)) =
    trackingDerivation w.
Proof.
  destruct (decide (dependenciesState w d = POSSIBLY_STALE)) as [Hs|Hs].
  - destruct (shouldCompute_scan_summary kind get d w Hs)
      as (b & forced & rest & w' & Hrun & _).
    rewrite Hrun. simpl. split; [exists b|]; reflexivity.
  - pose proof (shouldCompute_settled_run kind get d w Hs) as Hrun.
    rewrite Hrun. simpl. split; [eexists|]; reflexivity.
Qed.

(** X3.  The calls shouldCompute makes are always an initial stretch of
    the computed values of the derivation's stored dependency list, in
    that order: it never forces a dependency that is not a computed
    value, never one out of order, never skips one, and never calls
    onBecomeStale. *)
Theorem shouldCompute_forces_initial_stretch
    (kind : Id -> NodeKind) (get : Id -> World -> Completion Val * World)
    (d : Id) (w : World) :
  exists forced rest,
    trace (shouldCompute kind get d w) = EvGet <$> forced /\
    computed_cells kind (observing w d) = forced ++ rest.
Proof.
  destruct (decide (dependenciesState w d = POSSIBLY_STALE)) as [Hs|Hs].
  - destruct (shouldCompute_scan_summary kind get d w Hs)
      as (b & forced & rest & w' & Hrun & Hsplit & _).
    exists forced, rest. rewrite Hrun. split; [reflexivity | exact Hsplit].
  - pose proof (shouldCompute_settled_run kind get d w Hs) as Hrun.
    exists [], (computed_cells kind (observing w d)).
    rewrite Hrun. split; reflexivity.
Qed.

(** X4.  A POSSIBLY_STALE derivation none of whose dependencies is a
    computed value is resolved without a single call: the answer is
    [false], the derivation is UP_TO_DATE, the floor of each of its
    dependencies is UP_TO_DATE, and subscriptions and dependency lists
    are as before. *)
Theorem shouldCompute_without_computed_dependencies
    (kind : Id -> NodeKind) (get : Id -> World -> Completion Val * World)
    (d : Id) (w : World)
    (Hs : dependenciesState w d = POSSIBLY_STALE)
    (Hplain : forall c, c ∈ observing w d -> kind c <> KComputedValue) :
  let r := shouldCompute kind get d w in
  outcome r = Normal false /\ trace r = [] /\
  dependenciesState (world r) d = UP_TO_DATE /\
  (forall c, c ∈ observing w d ->
             lowestObserverState (world r) c = UP_TO_DATE) /\
  observers (world r) = observers w /\
  observing (world r) = observing w.
Proof.
  intros r. subst r.
  assert (Hq : forall l w0, (forall c, c ∈ l -> kind c <> KComputedValue) ->
                 quiet_scan kind get d l w0 w0).
  { induction l as [|c l IH]; intros w0 Hl; [constructor|].
    apply quiet_skip; [apply Hl; left|].
    apply IH. intros c' Hc'. apply Hl. right. exact Hc'. }
  assert (Hnone : forall l, (forall c, c ∈ l -> kind c <> KComputedValue) ->
                    computed_cells kind l = []).
  { unfold computed_cells. induction l as [|c l IH]; intros Hl;
      [reflexivity|].
    rewrite filter_cons_False by (apply Hl; left).
    apply IH. intros c' Hc'. apply Hl. right. exact Hc'. }
  destruct (shouldCompute_completes kind get d w
              (set_trackingDerivation None w) Hs
              (Hq _ _ Hplain)) as (Ho & Ht & Hw & Hst).
  destruct (changeDependenciesStateTo0_effect d
              (set_trackingDerivation None w))
    as (w1 & Hrun1 & Hbook & _ & _ & Hfloor).
  rewrite Hrun1 in Hw. cbn [world] in Hw.
  destruct Hbook as (Hobs & _ & _ & Hing & _).
  split; [exact Ho|]. split; [rewrite Ht, (Hnone _ Hplain); reflexivity|].
  split; [exact Hst|]. rewrite Hw. simpl.
  split; [|split; [exact Hobs | exact Hing]].
  intros c Hc. rewrite Hfloor by (simpl; congruence). simpl.
  rewrite decide_True by exact Hc. reflexivity.
Qed.

Lemma shouldCompute_without_computed_dependencies_witness :
  let r := shouldCompute sample_kind sample_get 20 possibly_stale_world in
  outcome r = Normal false /\ trace r = [] /\
  dependenciesState (world r) 20 = UP_TO_DATE /\
  lowestObserverState (world r) 1 = UP_TO_DATE.
Proof.
  intros r.
  pose proof (shouldCompute_without_computed_dependencies sample_kind
                sample_get 20 possibly_stale_world eq_refl) as H.
  destruct H as (Ho & Ht & Hs & Hf & _).
  - intros c Hc. apply list_elem_of_singleton in Hc as ->. discriminate.
  - split; [exact Ho|]. split; [exact Ht|]. split; [exact Hs|].
    apply Hf. left.
Defined.

(** X5.  What the answer of shouldCompute means, whatever [get] does: an
    answer [false] leaves the derivation UP_TO_DATE; an answer [true] on
    a POSSIBLY_STALE derivation is never given without forcing at least
    one computed value. *)
Theorem shouldCompute_answer
    (kind : Id -> NodeKind) (get : Id -> World -> Completion Val * World)
    (d : Id) (w : World) :
  let r := shouldCompute kind get d w in
  (outcome r = Normal false ->
     dependenciesState (world r) d = UP_TO_DATE) /\
  (outcome r = Normal true -> dependenciesState w d = POSSIBLY_STALE ->
     trace r <> []).
Proof.
  intros r. subst r.
  destruct (decide (dependenciesState w d = POSSIBLY_STALE)) as [Hs|Hs].
  - destruct (shouldCompute_scan_summary kind get d w Hs)
      as (b & forced & rest & w' & Hrun & _ & Hfalse & Htrue).
    rewrite Hrun. cbn [outcome world trace]. split.
    + intros E. injection E as ->. apply Hfalse. reflexivity.
    + intros E _. injection E as ->.
      destruct forced; [exfalso; apply Htrue; reflexivity | discriminate].
  - pose proof (shouldCompute_settled_run kind get d w Hs) as Hrun.
    rewrite Hrun. cbn [outcome world trace]. split.
    + intros E. injection E as E.
      apply negb_false_iff, bool_decide_eq_true_1 in E. exact E.
    + intros _ E. contradiction.
Qed.

Lemma shouldCompute_answer_witness :
  dependenciesState
    (world (shouldCompute sample_kind sample_get 21 scan_world)) 21
    = UP_TO_DATE /\
  trace (shouldCompute sample_kind sample_get 20 scan_world) <> [].
Proof.
  split.
  - apply (shouldCompute_answer sample_kind sample_get 21 scan_world).
    reflexivity.
  - apply (shouldCompute_answer sample_kind sample_get 20 scan_world);
      reflexivity.
Defined.

(** ** The untracked scope, continued *)

Lemma untracked_twice (action : M Val) (w : World) :
  untracked (untracked action) w = untracked action w.
Proof.
  destruct (action (set_trackingDerivation None w)) as [[v|e] w1 t] eqn:E.
  - assert (Hinner : untracked action (set_trackingDerivation None w) =
                     mkRes (Normal v) (set_trackingDerivation None w1) t)
      by (apply (untracked_normal action (set_trackingDerivation None w));
          exact E).
    rewrite (untracked_normal (untracked action) w v
               (set_trackingDerivation None w1) t Hinner).
    rewrite (untracked_normal action w v w1 t E). reflexivity.
  - assert (Hinner : untracked action (set_trackingDerivation None w) =
                     mkRes (Throw e) w1 t)
      by (apply (untracked_throw action (set_trackingDerivation None w));
          exact E).
    rewrite (untracked_throw (untracked action) w e w1 t Hinner).
    rewrite (untracked_throw action w e w1 t E). reflexivity.
Qed.

(** X6.  Untracked scopes nest: an untracked scope opened inside another
    one is the same computation as a single scope, for every thunk and
    every heap, whether the thunk returns or throws; and a thunk that
    returns normally is run with no tracking derivation, its result is
    passed on, and the tracking derivation from before the call is put
    back. *)
Theorem untracked_nests (action : M Val) (w : World) :
  untracked (untracked action) w = untracked action w /\
  (forall v w1 t,
     action (set_trackingDerivation None w) = mkRes (Normal v) w1 t ->
     untracked action w =
       mkRes (Normal v)
         (set_trackingDerivation (trackingDerivation w) w1) t).
Proof.
  split.
  - apply untracked_twice.
  - intros v w1 t E. apply untracked_normal, E.
Qed.

Lemma untracked_nests_witness :
  untracked (reads (fun w => match trackingDerivation w with Some _ => 1%Z | None => 0%Z end))
    tracking_world =
  mkRes (Normal 0%Z) tracking_world [].
Proof.
  destruct (untracked_nests
              (reads (fun w => match trackingDerivation w with Some _ => 1%Z | None => 0%Z end))
              tracking_world) as [_ H].
  apply (H 0%Z (set_trackingDerivation None tracking_world) []).
  reflexivity.
Defined.

(** ** clearObserving *)

Lemma occurrences_snoc_other d d' l :
  d' <> d -> occurrences d' (l ++ [d]) = occurrences d' l.
Proof.
  intros H. unfold occurrences. rewrite filter_app, length_app.
  rewrite filter_cons_False by congruence. simpl. lia.
Qed.

Lemma occurrences_removed_other d d' l :
  d' <> d -> occurrences d' (filter (fun x => x <> d) l) = occurrences d' l.
Proof.
  intros H. unfold occurrences. rewrite list_filter_filter.
  f_equal. apply list_filter_iff. intros x. split; [tauto|].
  intros ->. split; [reflexivity | exact H].
Qed.

Lemma clearObserving_cleared d w :
  observing (world (clearObserving d w)) d = [] /\
  dependenciesState (world (clearObserving d w)) d = NOT_TRACKING.
Proof.
  rewrite clearObserving_run. cbn [world].
  pose proof (run_pure_frame _ (remove_step_frame d) (observing w d)
                (set_observing d [] w)) as (_&_&G&_).
  split; simpl; [rewrite G; simpl|]; apply upd_eq.
Qed.

(** X7.  clearObserving always returns and calls nothing.  Afterwards the
    derivation is NOT_TRACKING with an empty dependency list and is an
    observer of none of its former dependencies; every other derivation
    keeps its state, its dependency list and its place among the
    observers of every cell; diff markers, floors and the tracking
    derivation are untouched. *)
Theorem clearObserving_disposes (d : Id) (w : World) :
  let r := clearObserving d w in
  outcome r = Normal tt /\ trace r = [] /\
  observing (world r) d = [] /\
  dependenciesState (world r) d = NOT_TRACKING /\
  (forall c, c ∈ observing w d -> d ∉ observers (world r) c) /\
  (forall d', d' <> d ->
     observing (world r) d' = observing w d' /\
     dependenciesState (world r) d' = dependenciesState w d' /\
     forall c, occurrences d' (observers (world r) c) =
               occurrences d' (observers w c)) /\
  diffValue (world r) = diffValue w /\
  lowestObserverState (world r) = lowestObserverState w /\
  trackingDerivation (world r) = trackingDerivation w.
Proof.
  intros r. subst r. rewrite clearObserving_run.
  cbn [outcome world trace].
  pose proof (remove_all_effect d (observing w d) (set_observing d [] w))
    as [Hdv Hobs].
  pose proof (run_pure_frame _ (remove_step_frame d) (observing w d)
                (set_observing d [] w)) as (L&_&G&_&S&_&_&T&_).
  cbv zeta in Hdv, Hobs.
  split; [reflexivity|]. split; [reflexivity|].
  split; [simpl; rewrite G; simpl; apply upd_eq|].
  split; [simpl; apply upd_eq|].
  split.
  { intros c Hc. simpl. rewrite Hobs. rewrite decide_True by exact Hc.
    rewrite list_elem_of_filter. tauto. }
  split.
  { intros d' Hne. split; [|split].
    - simpl. rewrite G. simpl. apply upd_neq, Hne.
    - simpl. rewrite upd_neq by exact Hne. rewrite S. reflexivity.
    - intros c. simpl. rewrite Hobs.
      destruct (decide (c ∈ observing w d)); [|reflexivity].
      apply occurrences_removed_other, Hne. }
  split; [simpl; exact Hdv|].
  split; [simpl; rewrite L; reflexivity|].
  simpl. rewrite T. reflexivity.
Qed.

Lemma clearObserving_disposes_witness :
  let r := clearObserving 20 pending_world in
  observing (world r) 20 = [] /\
  (20 ∉ observers (world r) 2) /\
  occurrences 21 (observers (world r) 2) = 1.
Proof.
  intros r.
  pose proof (clearObserving_disposes 20 pending_world)
    as (_ & _ & Hing & _ & Hgone & Hother & _).
  split; [exact Hing|]. split.
  - apply Hgone. left.
  - destruct (Hother 21) as (_ & _ & Hocc); [discriminate|].
    rewrite Hocc. reflexivity.
Defined.

(** X8.  clearObserving is idempotent: clearing a derivation that has
    just been cleared changes no observer list, no dependency list and no
    state. *)
Theorem clearObserving_idempotent (d : Id) (w : World) :
  let w1 := world (clearObserving d w) in
  let w2 := world (clearObserving d w1) in
  (forall c, observers w2 c = observers w1 c) /\
  (forall d', observing w2 d' = observing w1 d') /\
  (forall d', dependenciesState w2 d' = dependenciesState w1 d') /\
  diffValue w2 = diffValue w1 /\
  lowestObserverState w2 = lowestObserverState w1.
Proof.
  intros w1 w2.
  destruct (clearObserving_cleared d w) as [Hing Hst].
  fold w1 in Hing, Hst.
  subst w2. rewrite clearObserving_run. cbn [world].
  rewrite Hing. cbn [run_pure foldr].
  split; [reflexivity|]. split; [|split; [|split; reflexivity]].
  - intros d'. simpl. unfold upd.
    destruct (decide (d' = d)) as [->|]; [symmetry; exact Hing | reflexivity].
  - intros d'. simpl. unfold upd.
    destruct (decide (d' = d)) as [->|]; [symmetry; exact Hst | reflexivity].
Qed.

(** ** changeDependenciesStateTo0, continued *)

(** X9.  changeDependenciesStateTo0 touches the staleness fields only:
    subscriptions, dependency lists, diff markers, buffers and the
    tracking derivation stay as they are, no other derivation changes
    state, no cell outside the derivation's dependency list changes its
    floor, and nothing is called.  A second call in a row changes
    nothing. *)
Theorem changeDependenciesStateTo0_frame (d : Id) (w : World) :
  let r := changeDependenciesStateTo0 d w in
  trace r = [] /\
  same_bookkeeping w (world r) /\
  (forall d', d' <> d ->
     dependenciesState (world r) d' = dependenciesState w d') /\
  (forall c, c ∉ observing w d ->
     lowestObserverState (world r) c = lowestObserverState w c) /\
  world (changeDependenciesStateTo0 d (world r)) = world r.
Proof.
  intros r. subst r.
  destruct (changeDependenciesStateTo0_effect d w)
    as (w' & Hrun & Hbook & Hst & Hsame & Hfloor).
  rewrite Hrun. cbn [outcome world trace].
  split; [reflexivity|]. split; [exact Hbook|]. split; [|split].
  - intros d' Hne. rewrite Hst. rewrite decide_False by exact Hne.
    reflexivity.
  - intros c Hc.
    destruct (decide (dependenciesState w d = UP_TO_DATE)) as [E|E].
    + rewrite (Hsame E). reflexivity.
    + rewrite (Hfloor E). rewrite decide_False by exact Hc. reflexivity.
  - destruct (changeDependenciesStateTo0_effect d w')
      as (w'' & Hrun' & _ & _ & Hsame' & _).
    rewrite Hrun'. cbn [world]. apply Hsame'.
    rewrite Hst. rewrite decide_True by reflexivity. reflexivity.
Qed.

Lemma changeDependenciesStateTo0_frame_witness :
  lowestObserverState
    (world (changeDependenciesStateTo0 20 possibly_stale_world)) 2
    = lowestObserverState possibly_stale_world 2.
Proof.
  pose proof (changeDependenciesStateTo0_frame 20 possibly_stale_world)
    as (_ & _ & _ & H & _).
  apply H. intros Hc. apply list_elem_of_singleton in Hc. discriminate.
Defined.

(** ** The mutation guard, continued *)

(** X10.  checkIfStateModificationsAreAllowed lets a mutation through
    exactly when the cell has no observer, or the computation depth is
    zero and state changes are allowed; in every other case it raises. *)
Theorem checkIfStateModificationsAreAllowed_decides
    (getMessage : string -> string) (atom : Id) (w : World) :
  let r := checkIfStateModificationsAreAllowed getMessage atom w in
  (outcome r = Normal tt <->
   observers w atom = [] \/
   (computationDepth w = 0 /\ allowStateChanges w = true)) /\
  (outcome r <> Normal tt -> exists message, outcome r = Throw (Failure message)).
Proof.
  intros r. subst r.
  unfold checkIfStateModificationsAreAllowed. run_monad.
  destruct (observers w atom) as [|o os] eqn:Hobs; simpl;
    destruct (computationDepth w) as [|n] eqn:Hdepth; simpl;
    destruct (allowStateChanges w) eqn:Hallow; simpl;
    (split; [split; [intros H; first [left; reflexivity
                                     | right; split; reflexivity
                                     | discriminate]
                    | intros [H|[H1 H2]];
                      first [reflexivity | discriminate]]
            | intros H; first [eexists; reflexivity
                              | exfalso; apply H; reflexivity]]).
Qed.

(** ** trackDerivedFunction, continued *)

Lemma read_all_untracked cells w :
  trackingDerivation w = None ->
  read_all cells w = mkRes (Normal tt) w [].
Proof.
  intros Ht. induction cells as [|c rest IH]; [reflexivity|].
  cbn [read_all].
  assert (Hc : reportObserved c w = mkRes (Normal tt) w []).
  { unfold reportObserved, bindM, reads. cbn [outcome world trace].
    rewrite Ht. reflexivity. }
  erewrite run_bind_normal by exact Hc. rewrite IH. reflexivity.
Qed.

(** Up to the bind step, an evaluation of a body that reads [cells] and
    then runs any tail that leaves the heap as it is. *)
Lemma trackDerivedFunction_reads_then kind cb d cells w :
  exists w3,
    buffer_holds w3 d cells /\
    observers w3 = observers w /\ diffValue w3 = diffValue w /\
    observing w3 = observing w /\
    trackingDerivation w3 = trackingDerivation w /\
    (forall x, dependenciesState w3 x =
               if decide (x = d) then UP_TO_DATE else dependenciesState w x) /\
    globalRunId w3 = number_increment (globalRunId w) /\
    runId w3 d = number_increment (globalRunId w) /\
    (forall (fin : M Val) (result : TrackResult),
       (forall w0, trackingDerivation w0 = Some d ->
                   try_catch (let* v := fin in ret (Returned v))
                     (fun e => ret (CaughtException e)) w0 =
                   mkRes (Normal result) w0 []) ->
       trackDerivedFunction kind cb d (do read_all cells then fin) w =
         bindM (bindDependencies kind cb d) (fun _ => ret result) w3).
Proof.
  destruct (changeDependenciesStateTo0_effect d w)
    as (wa & Hrun_a & Hbook & Hstate & _ & _).
  destruct Hbook as (Ho_a & Hd_a & _ & Hg_a & _ & _ & _ & Ht_a & Hr_a & _).
  set (rid := number_increment (globalRunId wa)).
  set (w1 := set_trackingDerivation (Some d)
               (set_runId d rid
                  (set_globalRunId rid
                     (set_unboundDepsCount d 0
                        (set_newObserving d
                           (Some (replicate (length (observing wa d) + 100)
                                    None)) wa))))).
  destruct (read_all_run d cells w1 []
              (replicate (length (observing wa d) + 100) None))
    as (w2 & Hrun2 & Hbuf2 & Hframe2).
  { reflexivity. }
  { simpl. apply upd_eq. }
  { simpl. apply upd_eq. }
  { intros j Hj. simpl in Hj. lia. }
  simpl in Hbuf2.
  destruct Hframe2 as (Ho2 & Hd2 & _ & _ & Hg2 & Hs2 & Hi2 & Ht2 & Hr2 & _).
  exists (set_trackingDerivation (trackingDerivation wa) w2).
  split; [exact Hbuf2|].
  split; [simpl; rewrite Ho2; exact Ho_a|].
  split; [simpl; rewrite Hd2; exact Hd_a|].
  split; [simpl; rewrite Hg2; exact Hg_a|].
  split; [simpl; exact Ht_a|].
  split; [intros x; simpl; rewrite Hs2; simpl; apply Hstate|].
  split; [simpl; rewrite Hr2; simpl; subst rid; rewrite Hr_a; reflexivity|].
  split; [simpl; rewrite Hi2; simpl; rewrite upd_eq; subst rid;
          rewrite Hr_a; reflexivity|].
  intros fin result Hfin. unfold trackDerivedFunction.
  erewrite run_bind_normal by exact Hrun_a.
  erewrite run_bind_normal by apply run_reads.
  erewrite run_bind_normal by apply run_modify.
  erewrite run_bind_normal by apply run_modify.
  erewrite run_bind_normal by apply run_reads.
  erewrite run_bind_normal by apply run_modify.
  erewrite run_bind_normal by apply run_modify.
  erewrite run_bind_normal by apply run_reads.
  erewrite run_bind_normal by apply run_modify.
  cbn [outcome world trace app]. fold rid. fold w1.
  assert (Hbody : try_catch
            (let* v := (do read_all cells then fin) in ret (Returned v))
            (fun e => ret (CaughtException e)) w1 =
          mkRes (Normal result) w2 []).
  { assert (Htrack2 : trackingDerivation w2 = Some d)
      by (rewrite Ht2; reflexivity).
    specialize (Hfin w2 Htrack2). revert Hfin.
    unfold try_catch, bindM. rewrite Hrun2. cbn [outcome world trace app].
    destruct (fin w2) as [[v|e] wf tf]; cbn [outcome world trace app];
      unfold ret; cbn [outcome world trace app]; intros Hfin; exact Hfin. }
  erewrite run_bind_normal by exact Hbody.
  erewrite run_bind_normal by apply run_modify.
  cbn [outcome world trace app].
  change (trackingDerivation
            (set_runId d rid
               (set_globalRunId rid
                  (set_unboundDepsCount d 0
                     (set_newObserving d
                        (Some (replicate (length (observing wa d) + 100)
                                 None)) wa)))))
    with (trackingDerivation wa).
  apply res_eta.
Qed.

Lemma try_catch_returned (fin : M Val) (v : Val) w0 :
  fin w0 = mkRes (Normal v) w0 [] ->
  try_catch (let* x := fin in ret (Returned x))
    (fun e => ret (CaughtException e)) w0 =
  mkRes (Normal (Returned v)) w0 [].
Proof.
  intros E. unfold try_catch.
  erewrite run_bind_normal by exact E. reflexivity.
Qed.

Lemma untracked_reads_leave_heap cells (v : Val) w0 :
  untracked (do read_all cells then ret v) w0 = mkRes (Normal v) w0 [].
Proof.
  rewrite (untracked_normal _ w0 v (set_trackingDerivation None w0) []).
  - f_equal. destruct w0; reflexivity.
  - erewrite run_bind_normal by (apply read_all_untracked; reflexivity).
    reflexivity.
Qed.

(** X11.  Reads made inside an untracked scope leave no mark on the
    enclosing evaluation: a tracked body that reads [cells] and then
    reads [hidden] inside untracked (nested once or twice) is the same
    computation, result, heap and calls, as the body that reads [cells]
    only.  In particular [hidden] does not enter the dependency list. *)
Theorem untracked_reads_are_not_tracked
    (kind : Id -> NodeKind)
    (onBecomeStale : Id -> World -> Completion unit * World)
    (d : Id) (cells hidden : list Id) (v : Val) (w : World) :
  trackDerivedFunction kind onBecomeStale d
    (do read_all cells then untracked (do read_all hidden then ret v)) w =
  trackDerivedFunction kind onBecomeStale d
    (do read_all cells then ret v) w /\
  trackDerivedFunction kind onBecomeStale d
    (do read_all cells then
     untracked (untracked (do read_all hidden then ret v))) w =
  trackDerivedFunction kind onBecomeStale d
    (do read_all cells then ret v) w.
Proof.
  destruct (trackDerivedFunction_reads_then kind onBecomeStale d cells w)
    as (w3 & _ & _ & _ & _ & _ & _ & _ & _ & Hthen).
  assert (Hplain : trackDerivedFunction kind onBecomeStale d
                     (do read_all cells then ret v) w =
                   bindM (bindDependencies kind onBecomeStale d)
                     (fun _ => ret (Returned v)) w3).
  { apply Hthen. intros w0 _. reflexivity. }
  assert (Hone : forall w0,
            try_catch
              (let* v0 := untracked (do read_all hidden then ret v) in
               ret (Returned v0))
              (fun e => ret (CaughtException e)) w0 =
            mkRes (Normal (Returned v)) w0 []).
  { intros w0. apply try_catch_returned, untracked_reads_leave_heap. }
  split.
  - rewrite Hplain. apply Hthen. intros w0 _. apply Hone.
  - rewrite Hplain. apply Hthen. intros w0 _.
    apply try_catch_returned.
    rewrite untracked_twice. apply untracked_reads_leave_heap.
Qed.

(** X12.  isComputingDerivation answers yes throughout a tracked body and
    no inside an untracked scope of that body: a body that reads [cells]
    and then asks is the same computation as the body that returns the
    constant answer. *)
Theorem isComputingDerivation_inside_tracking
    (kind : Id -> NodeKind)
    (onBecomeStale : Id -> World -> Completion unit * World)
    (d : Id) (cells : list Id) (w : World) :
  trackDerivedFunction kind onBecomeStale d
    (do read_all cells then computing_probe) w =
  trackDerivedFunction kind onBecomeStale d
    (do read_all cells then ret 1%Z) w /\
  trackDerivedFunction kind onBecomeStale d
    (do read_all cells then untracked computing_probe) w =
  trackDerivedFunction kind onBecomeStale d
    (do read_all cells then ret 0%Z) w.
Proof.
  destruct (trackDerivedFunction_reads_then kind onBecomeStale d cells w)
    as (w3 & _ & _ & _ & _ & _ & _ & _ & _ & Hthen).
  assert (Hplain : forall v,
            trackDerivedFunction kind onBecomeStale d
              (do read_all cells then ret v) w =
            bindM (bindDependencies kind onBecomeStale d)
              (fun _ => ret (Returned v)) w3).
  { intros v. apply Hthen. intros w0 _. reflexivity. }
  split.
  - rewrite Hplain. apply Hthen. intros w0 Ht.
    apply try_catch_returned.
    unfold computing_probe, isComputingDerivation, bindM, reads, ret.
    cbn [outcome world trace app]. rewrite Ht. reflexivity.
  - rewrite Hplain. apply Hthen. intros w0 _.
    apply try_catch_returned.
    rewrite (untracked_normal computing_probe w0 0%Z
               (set_trackingDerivation None w0) []) by reflexivity.
    f_equal. destruct w0; reflexivity.
Qed.

Lemma keeps_tracking_bind {A B} (m : M A) (k : A -> M B) :
  keeps_tracking m -> (forall a, keeps_tracking (k a)) ->
  keeps_tracking (bindM m k).
Proof.
  intros Hm Hk w. unfold bindM. specialize (Hm w).
  destruct (m w) as [[a|e] w1 t1]; cbn [outcome world trace] in *.
  - rewrite (Hk a w1). exact Hm.
  - exact Hm.
Qed.

Lemma keeps_tracking_ret {A} (a : A) : keeps_tracking (ret a).
Proof. intros w. reflexivity. Qed.

Lemma keeps_tracking_throw {A} e : keeps_tracking (@throw A e).
Proof. intros w. reflexivity. Qed.

Lemma keeps_tracking_reads {A} (f : World -> A) : keeps_tracking (reads f).
Proof. intros w. reflexivity. Qed.

Lemma keeps_tracking_modify f :
  (forall w, trackingDerivation (f w) = trackingDerivation w) ->
  keeps_tracking (modify f).
Proof. intros H w. apply H. Qed.

Lemma keeps_tracking_when c m :
  keeps_tracking m -> keeps_tracking (when c m).
Proof. intros H. destruct c; [exact H | apply keeps_tracking_ret]. Qed.

Lemma keeps_tracking_while_down arr body :
  (forall x, keeps_tracking (body x)) ->
  forall i, keeps_tracking (while_down arr i body).
Proof.
  intros Hbody. induction i as [|i IH]; simpl.
  - apply keeps_tracking_ret.
  - destruct (arr !! i); [|apply keeps_tracking_throw].
    apply keeps_tracking_bind; [apply Hbody | intros _; exact IH].
Qed.

Lemma keeps_tracking_bind_first_pass kind todo :
  forall arr i i0 lowest,
    keeps_tracking (bind_first_pass kind arr i i0 lowest todo).
Proof.
  induction todo as [|todo IH]; intros arr i i0 lowest; simpl.
  - apply keeps_tracking_ret.
  - destruct (arr_get arr i); [|apply keeps_tracking_throw].
    apply keeps_tracking_bind; [apply keeps_tracking_reads|]. intros dv.
    apply keeps_tracking_bind.
    + destruct (decide (dv = 0%Z)); [|apply keeps_tracking_ret].
      apply keeps_tracking_bind;
        [apply keeps_tracking_modify; reflexivity
        | intros _; apply keeps_tracking_ret].
    + intros kept. apply keeps_tracking_bind;
        [apply keeps_tracking_reads | intros ds; apply IH].
Qed.

(** With a callback that leaves the tracking derivation alone, the bind
    step does too, on every heap and on every way out. *)
Lemma keeps_tracking_bindDependencies kind cb d :
  (forall w0, trackingDerivation (snd (cb d w0)) = trackingDerivation w0) ->
  keeps_tracking (bindDependencies kind cb d).
Proof.
  intros Hcb. unfold bindDependencies.
  apply keeps_tracking_bind; [apply keeps_tracking_reads|]. intros prev.
  apply keeps_tracking_bind; [apply keeps_tracking_reads|]. intros buffer.
  apply keeps_tracking_bind;
    [apply keeps_tracking_modify; reflexivity|]. intros _.
  destruct buffer as [arr|]; [|apply keeps_tracking_throw].
  apply keeps_tracking_bind; [apply keeps_tracking_reads|]. intros l.
  apply keeps_tracking_bind; [apply keeps_tracking_bind_first_pass|].
  intros pass.
  apply keeps_tracking_bind;
    [apply keeps_tracking_modify; reflexivity|]. intros _.
  apply keeps_tracking_bind.
  { apply keeps_tracking_while_down. intros dep.
    apply keeps_tracking_bind; [apply keeps_tracking_reads|]. intros dv.
    apply keeps_tracking_bind;
      [apply keeps_tracking_when, keeps_tracking_modify; reflexivity|].
    intros _. apply keeps_tracking_modify. reflexivity. }
  intros _. apply keeps_tracking_bind.
  { apply keeps_tracking_while_down. intros dep.
    apply keeps_tracking_bind; [apply keeps_tracking_reads|]. intros dv.
    apply keeps_tracking_when, keeps_tracking_bind;
      [apply keeps_tracking_modify; reflexivity|].
    intros _. apply keeps_tracking_modify. reflexivity. }
  intros _. destruct (decide _); [|apply keeps_tracking_ret].
  apply keeps_tracking_bind;
    [apply keeps_tracking_modify; reflexivity|]. intros _.
  intros w. unfold external. cbn [world]. apply Hcb.
Qed.

(** What trackDerivedFunction does with any body: the body's completion
    becomes the result, the previous tracking derivation is installed
    again, and the bind step runs on the heap the body left. *)
Lemma trackDerivedFunction_any_body kind cb d (f : M Val) w :
  exists w1,
    forall result wf tf,
      try_catch (let* v := f in ret (Returned v))
        (fun e => ret (CaughtException e)) w1 =
        mkRes (Normal result) wf tf ->
      trackDerivedFunction kind cb d f w =
        let rb := bindM (bindDependencies kind cb d) (fun _ => ret result)
                    (set_trackingDerivation (trackingDerivation w) wf) in
        mkRes (outcome rb) (world rb) (tf ++ trace rb).
Proof.
  destruct (changeDependenciesStateTo0_effect d w)
    as (wa & Hrun_a & Hbook & _).
  destruct Hbook as (_ & _ & _ & _ & _ & _ & _ & Ht_a & _).
  eexists. intros result wf tf Hbody.
  unfold trackDerivedFunction.
  erewrite run_bind_normal by exact Hrun_a.
  erewrite run_bind_normal by apply run_reads.
  erewrite run_bind_normal by apply run_modify.
  erewrite run_bind_normal by apply run_modify.
  erewrite run_bind_normal by apply run_reads.
  erewrite run_bind_normal by apply run_modify.
  erewrite run_bind_normal by apply run_modify.
  erewrite run_bind_normal by apply run_reads.
  erewrite run_bind_normal by apply run_modify.
  cbn [outcome world trace app].
  erewrite run_bind_normal by exact Hbody.
  erewrite run_bind_normal by apply run_modify.
  cbn [outcome world trace app].
  cbn [trackingDerivation set_runId set_globalRunId set_unboundDepsCount
       set_newObserving].
  rewrite Ht_a. reflexivity.
Qed.

(** X13.  trackDerivedFunction puts the previous tracking derivation back
    whatever the body does: return, throw, or install another tracking
    derivation of its own; and whether or not the bind step that follows
    succeeds.  The onBecomeStale callback is taken to leave the tracking
    derivation alone. *)
Theorem trackDerivedFunction_restores_tracking
    (kind : Id -> NodeKind)
    (onBecomeStale : Id -> World -> Completion unit * World)
    (d : Id) (f : M Val) (w : World)
    (Hcallback : forall w0,
       trackingDerivation (snd (onBecomeStale d w0)) =
       trackingDerivation w0) :
  trackingDerivation (world (trackDerivedFunction kind onBecomeStale d f w))
    = trackingDerivation w.
Proof.
  destruct (trackDerivedFunction_any_body kind onBecomeStale d f w)
    as (w1 & Hany).
  assert (Hbody : exists result wf tf,
            try_catch (let* v := f in ret (Returned v))
              (fun e => ret (CaughtException e)) w1 =
            mkRes (Normal result) wf tf).
  { unfold try_catch, bindM, ret.
    destruct (f w1) as [[v|e] wf tf]; cbn [outcome world trace];
      eexists _, _, _; reflexivity. }
  destruct Hbody as (result & wf & tf & Hbody).
  rewrite (Hany result wf tf Hbody). cbv zeta. cbn [world].
  rewrite (keeps_tracking_bind (bindDependencies kind onBecomeStale d)
             (fun _ => ret result)
             (keeps_tracking_bindDependencies kind onBecomeStale d Hcallback)
             (fun _ => keeps_tracking_ret result)).
  reflexivity.
Qed.

Lemma trackDerivedFunction_restores_tracking_witness :
  trackingDerivation
    (world (trackDerivedFunction sample_kind quiet_onBecomeStale 21
              hijacking_body tracking_world))
  = Some 20.
Proof.
  apply (trackDerivedFunction_restores_tracking sample_kind
           quiet_onBecomeStale 21 hijacking_body tracking_world).
  intros w0. reflexivity.
Defined.

(** The subscriptions after an evaluation that reads [cells], cell by
    cell, on a heap with neutral markers. *)
Lemma trackDerivedFunction_reads_subscriptions kind cb d cells v w :
  (forall c, diffValue w c = 0%Z) ->
  NoDup (observing w d) ->
  (forall w0, observers (snd (cb d w0)) = observers w0 /\
              observing (snd (cb d w0)) = observing w0) ->
  let r := trackDerivedFunction kind cb d (do read_all cells then ret v) w in
  observing (world r) = upd (observing w) d (first_occurrences cells) /\
  forall c, observers (world r) c =
     if decide (c ∈ cells) then
       (if decide (c ∈ observing w d) then observers w c
        else observers w c ++ [d])
     else
       (if decide (c ∈ observing w d)
        then filter (fun x => x <> d) (observers w c)
        else observers w c).
Proof.
  intros H0 Hnd Hcb r. subst r.
  destruct (trackDerivedFunction_reads_run kind cb d cells w)
    as (w3 & Hbuf & Ho3 & Hd3 & Hg3 & _ & _ & Hok & _).
  rewrite Hok.
  destruct (bind_then_ret_world (bindDependencies kind cb d)
              (Returned v) w3) as (Wok & _ & _).
  rewrite Wok.
  assert (H03 : forall c, diffValue w3 c = 0%Z)
    by (intros c; rewrite Hd3; apply H0).
  assert (Hnd3 : NoDup (observing w3 d)) by (rewrite Hg3; exact Hnd).
  destruct (bound_world_spec d cells w3 H03 Hnd3)
    as (Hobs & _ & _ & _ & _ & _ & Hsub).
  rewrite Hg3 in Hobs. rewrite Ho3, Hg3 in Hsub.
  rewrite (bindDependencies_run kind cb d cells w3 Hbuf). cbv zeta.
  destruct (decide _); cbn [outcome world trace].
  - destruct (Hcb (set_dependenciesState d
                     (lowest_new_state kind (dependenciesState w3)
                        UP_TO_DATE cells)
                     (bound_world d cells w3))) as [Hco Hcg].
    rewrite Hco, Hcg. split; [exact Hobs | exact Hsub].
  - split; [exact Hobs | exact Hsub].
Qed.

(** X14.  Re-evaluating a derivation whose body reads the cells it
    already depends on, in any order and any number of times each,
    touches no observer list at all: no cell is unsubscribed and
    subscribed again.  The dependency list becomes the ordered-unique
    sequence of the new reads. *)
Theorem trackDerivedFunction_same_reads_no_churn
    (kind : Id -> NodeKind)
    (onBecomeStale : Id -> World -> Completion unit * World)
    (d : Id) (cells : list Id) (v : Val) (w : World)
    (Hneutral : forall c, diffValue w c = 0%Z)
    (Hunique : NoDup (observing w d))
    (Hsame : forall c, c ∈ cells <-> c ∈ observing w d)
    (Hcallback : forall w0,
       observers (snd (onBecomeStale d w0)) = observers w0 /\
       observing (snd (onBecomeStale d w0)) = observing w0) :
  let r := trackDerivedFunction kind onBecomeStale d
             (do read_all cells then ret v) w in
  (forall c, observers (world r) c = observers w c) /\
  observing (world r) d = first_occurrences cells.
Proof.
  intros r. subst r.
  destruct (trackDerivedFunction_reads_subscriptions kind onBecomeStale d
              cells v w Hneutral Hunique Hcallback) as [Hobs Hsub].
  cbv zeta in Hobs, Hsub. split.
  - intros c. rewrite Hsub. specialize (Hsame c).
    destruct (decide (c ∈ cells)); destruct (decide (c ∈ observing w d));
      tauto.
  - rewrite Hobs. apply upd_eq.
Qed.

Lemma trackDerivedFunction_same_reads_no_churn_witness :
  let r := trackDerivedFunction sample_kind quiet_onBecomeStale 20
             (do read_all [5; 1; 5] then ret 0%Z) subscribed_world in
  observers (world r) 1 = [20] /\
  observers (world r) 5 = [20] /\
  observing (world r) 20 = [5; 1].
Proof.
  intros r.
  pose proof (trackDerivedFunction_same_reads_no_churn sample_kind
                quiet_onBecomeStale 20 [5; 1; 5] 0%Z subscribed_world
                (fun c => eq_refl) subscribed_world_unique) as H.
  destruct H as [Hobs Hing].
  - intros c. change (observing subscribed_world 20) with [1; 5].
    rewrite !elem_of_cons, !elem_of_nil. tauto.
  - intros w0. split; reflexivity.
  - split; [apply Hobs|]. split; [apply Hobs | exact Hing].
Defined.

(** X15.  An evaluation of derivation [d] leaves every other derivation
    where it was: its dependency list is untouched and it occurs in the
    observers of every cell as often as before. *)
Theorem trackDerivedFunction_other_derivations
    (kind : Id -> NodeKind)
    (onBecomeStale : Id -> World -> Completion unit * World)
    (d d' : Id) (cells : list Id) (v : Val) (w : World)
    (Hother : d' <> d)
    (Hneutral : forall c, diffValue w c = 0%Z)
    (Hunique : NoDup (observing w d))
    (Hcallback : forall w0,
       observers (snd (onBecomeStale d w0)) = observers w0 /\
       observing (snd (onBecomeStale d w0)) = observing w0) :
  let r := trackDerivedFunction kind onBecomeStale d
             (do read_all cells then ret v) w in
  observing (world r) d' = observing w d' /\
  forall c, occurrences d' (observers (world r) c) =
            occurrences d' (observers w c).
Proof.
  intros r. subst r.
  destruct (trackDerivedFunction_reads_subscriptions kind onBecomeStale d
              cells v w Hneutral Hunique Hcallback) as [Hobs Hsub].
  cbv zeta in Hobs, Hsub. split.
  - rewrite Hobs. apply upd_neq, Hother.
  - intros c. rewrite Hsub.
    destruct (decide (c ∈ cells)); destruct (decide (c ∈ observing w d));
      first [reflexivity
            | apply occurrences_snoc_other, Hother
            | apply occurrences_removed_other, Hother].
Qed.

Lemma trackDerivedFunction_other_derivations_witness :
  let r := trackDerivedFunction sample_kind quiet_onBecomeStale 20
             (do read_all [1] then ret 0%Z)
             (set_unboundDepsCount 20 0
                (set_newObserving 20 None pending_world)) in
  observing (world r) 21 = [2] /\
  occurrences 21 (observers (world r) 2) = 1.
Proof.
  intros r.
  pose proof (trackDerivedFunction_other_derivations sample_kind
                quiet_onBecomeStale 20 21 [1] 0%Z
                (set_unboundDepsCount 20 0
                   (set_newObserving 20 None pending_world))) as H.
  destruct H as [Hing Hocc].
  - discriminate.
  - intros c. reflexivity.
  - apply (proj1 (proj2 pending_world_well_formed) 20).
  - intros w0. split; reflexivity.
  - split; [exact Hing|]. rewrite Hocc. reflexivity.
Defined.

(** X16.  An evaluation whose body reads no cell at all is legal: it
    returns the body's result, leaves the derivation UP_TO_DATE with an
    empty dependency list, removes it from the observers of every former
    dependency, and calls nothing. *)
Theorem trackDerivedFunction_without_reads
    (kind : Id -> NodeKind)
    (onBecomeStale : Id -> World -> Completion unit * World)
    (d : Id) (v : Val) (w : World)
    (Hneutral : forall c, diffValue w c = 0%Z)
    (Hunique : NoDup (observing w d)) :
  let r := trackDerivedFunction kind onBecomeStale d
             (do read_all [] then ret v) w in
  outcome r = Normal (Returned v) /\ trace r = [] /\
  observing (world r) d = [] /\
  dependenciesState (world r) d = UP_TO_DATE /\
  newObserving (world r) d = None /\
  forall c, c ∈ observing w d -> d ∉ observers (world r) c.
Proof.
  intros r. subst r.
  destruct (trackDerivedFunction_reads_run kind onBecomeStale d [] w)
    as (w3 & Hbuf & Ho3 & Hd3 & Hg3 & _ & Hs3 & Hok & _).
  rewrite Hok.
  assert (H03 : forall c, diffValue w3 c = 0%Z)
    by (intros c; rewrite Hd3; apply Hneutral).
  assert (Hnd3 : NoDup (observing w3 d)) by (rewrite Hg3; exact Hunique).
  destruct (bound_world_spec d [] w3 H03 Hnd3)
    as (Hobs & Hnew & Hst & _ & _ & _ & Hsub).
  pose proof (bindDependencies_run kind onBecomeStale d [] w3 Hbuf) as Hrun.
  cbv zeta in Hrun. unfold lowest_new_state in Hrun. cbn [foldl] in Hrun.
  rewrite decide_False in Hrun by (intros H; apply H; reflexivity).
  unfold bindM. rewrite Hrun. cbn [outcome world trace app].
  unfold ret. cbn [outcome world trace app].
  split; [reflexivity|]. split; [reflexivity|].
  split; [rewrite Hobs; apply upd_eq|].
  split; [rewrite Hst, Hs3; rewrite decide_True by reflexivity; reflexivity|].
  split; [rewrite Hnew; apply upd_eq|].
  intros c Hc. rewrite Hsub.
  rewrite decide_False by apply not_elem_of_nil.
  rewrite Hg3. rewrite decide_True by exact Hc.
  rewrite list_elem_of_filter. tauto.
Qed.

Lemma trackDerivedFunction_without_reads_witness :
  let r := trackDerivedFunction sample_kind quiet_onBecomeStale 20
             (do read_all [] then ret 7%Z) subscribed_world in
  outcome r = Normal (Returned 7%Z) /\
  observing (world r) 20 = [] /\
  (20 ∉ observers (world r) 5).
Proof.
  intros r.
  pose proof (trackDerivedFunction_without_reads sample_kind
                quiet_onBecomeStale 20 7%Z subscribed_world
                (fun c => eq_refl) subscribed_world_unique)
    as (Ho & _ & Hing & _ & _ & Hgone).
  split; [exact Ho|]. split; [exact Hing|].
  apply Hgone. right; left.
Defined.

(** ** How the operations compose *)

(** X17.  After an evaluation whose body read no derivation that is
    POSSIBLY_STALE or STALE, the derivation needs no recomputation: the
    evaluation returns the body's result without calling onBecomeStale,
    and a shouldCompute that follows answers [false] at once, forcing
    nothing and changing nothing. *)
Theorem shouldCompute_after_evaluation
    (kind : Id -> NodeKind) (get : Id -> World -> Completion Val * World)
    (onBecomeStale : Id -> World -> Completion unit * World)
    (d : Id) (cells : list Id) (v : Val) (w : World)
    (Hfresh : forall c, c ∈ cells -> kind c <> KAtom -> c <> d ->
                (state_num (dependenciesState w c) <= 0)%Z) :
  let r := trackDerivedFunction kind onBecomeStale d
             (do read_all cells then ret v) w in
  outcome r = Normal (Returned v) /\ trace r = [] /\
  shouldCompute kind get d (world r) = mkRes (Normal false) (world r) [].
Proof.
  intros r. subst r.
  destruct (trackDerivedFunction_reads_run kind onBecomeStale d cells w)
    as (w3 & Hbuf & _ & _ & _ & _ & Hs3 & Hok & _).
  rewrite Hok.
  assert (Hmax : staleness_maximum kind w3 cells UP_TO_DATE).
  { split; [simpl; lia|]. split; [|left; reflexivity].
    intros c Hc Hk. rewrite Hs3.
    destruct (decide (c = d)); [simpl; lia | apply Hfresh; assumption]. }
  pose proof (staleness_maximum_unique kind w3 cells _ _
                (lowest_new_state_is_maximum kind w3 cells) Hmax) as Hlow.
  pose proof (bindDependencies_run kind onBecomeStale d cells w3 Hbuf)
    as Hrun.
  cbv zeta in Hrun. rewrite Hlow in Hrun.
  rewrite decide_False in Hrun by (intros H; apply H; reflexivity).
  unfold bindM. rewrite Hrun. cbn [outcome world trace app].
  unfold ret. cbn [outcome world trace app].
  split; [reflexivity|]. split; [reflexivity|].
  assert (Hst : dependenciesState (bound_world d cells w3) d = UP_TO_DATE).
  { rewrite bound_world_dependenciesState, Hs3.
    rewrite decide_True by reflexivity. reflexivity. }
  rewrite (shouldCompute_settled_run kind get d (bound_world d cells w3))
    by (rewrite Hst; discriminate).
  rewrite Hst. reflexivity.
Qed.

Lemma shouldCompute_after_evaluation_witness :
  let r := trackDerivedFunction sample_kind quiet_onBecomeStale 20
             (do read_all [1; 2] then ret 3%Z) subscribed_world in
  outcome r = Normal (Returned 3%Z) /\
  outcome (shouldCompute sample_kind sample_get 20 (world r))
    = Normal false.
Proof.
  intros r.
  assert (Hfresh : forall c, c ∈ [1; 2] -> sample_kind c <> KAtom -> c <> 20 ->
            (state_num (dependenciesState subscribed_world c) <= 0)%Z).
  { intros c Hc Hk _. exfalso. apply Hk.
    rewrite !elem_of_cons, elem_of_nil in Hc.
    destruct Hc as [->|[->|[]]]; reflexivity. }
  pose proof (shouldCompute_after_evaluation sample_kind sample_get
                quiet_onBecomeStale 20 [1; 2] 3%Z subscribed_world Hfresh)
    as H.
  cbv zeta in H. destruct H as (Ho & _ & Hsc).
  split; [exact Ho | exact (f_equal outcome Hsc)].
Defined.

(** X18.  A derivation that has been cleared must recompute:
    shouldCompute after clearObserving answers [true] at once, forcing
    nothing and changing nothing, whatever the derivation was before. *)
Theorem shouldCompute_after_clearObserving
    (kind : Id -> NodeKind) (get : Id -> World -> Completion Val * World)
    (d : Id) (w : World) :
  shouldCompute kind get d (world (clearObserving d w)) =
    mkRes (Normal true) (world (clearObserving d w)) [].
Proof.
  destruct (clearObserving_cleared d w) as [_ Hst].
  rewrite (shouldCompute_settled_run kind get d (world (clearObserving d w)))
    by (rewrite Hst; discriminate).
  rewrite Hst. reflexivity.
Qed.

Lemma bound_world_run_ids d rs w :
  runId (bound_world d rs w) = runId w /\
  globalRunId (bound_world d rs w) = globalRunId w.
Proof.
  unfold bound_world.
  pose proof (run_pure_frame _ (subscribe_step_frame d)
                (kept_reads (diffValue w) rs)
                (run_pure (unsubscribe_step d) (observing w d)
                   (set_observing d (kept_reads (diffValue w) rs)
                      (mark_all rs (set_newObserving d None w))))) as F4.
  pose proof (run_pure_frame _ (unsubscribe_step_frame d) (observing w d)
                (set_observing d (kept_reads (diffValue w) rs)
                   (mark_all rs (set_newObserving d None w)))) as F3.
  pose proof (mark_all_frame rs (set_newObserving d None w)) as F1.
  destruct F1 as (_&_&_&_&_&R1&_&_&G1&_).
  destruct F3 as (_&_&_&_&_&R3&_&_&G3&_).
  destruct F4 as (_&_&_&_&_&R4&_&_&G4&_).
  cbv zeta. rewrite R4, R3, G4, G3. simpl. rewrite R1, G1. split; reflexivity.
Qed.

(** Below 2^53 the increment is exact. *)
Lemma number_increment_exact (x : N) :
  (x < 2 ^ 53)%N -> number_increment x = (x + 1)%N.
Proof.
  intros Hx. unfold number_increment, number_round.
  destruct (N.ltb_spec (x + 1) (2 ^ 53)) as [H|H]; [reflexivity|].
  assert (E : (x + 1)%N = (2 ^ 53)%N) by lia.
  rewrite E. vm_compute. reflexivity.
Qed.

(** At 2^53 it no longer moves. *)
Lemma number_increment_stuck :
  number_increment (2 ^ 53) = (2 ^ 53)%N.
Proof. vm_compute. reflexivity. Qed.

(** X19.  An evaluation whose body reads cells and returns takes its run
    id from [++globalState.runId]: afterwards the derivation's run id is
    the value of the global counter.  While the counter is below 2^53
    that value is one above the counter before the call; a counter that
    has reached 2^53 stays there (2^53 + 1 is no JavaScript number), and
    the evaluation gets the run id 2^53 like the one before it.  The
    callback is taken not to write run ids. *)
Theorem trackDerivedFunction_mints_run_id
    (kind : Id -> NodeKind)
    (onBecomeStale : Id -> World -> Completion unit * World)
    (d : Id) (cells : list Id) (v : Val) (w : World)
    (Hcallback : forall w0,
       runId (snd (onBecomeStale d w0)) = runId w0 /\
       globalRunId (snd (onBecomeStale d w0)) = globalRunId w0) :
  let r := trackDerivedFunction kind onBecomeStale d
             (do read_all cells then ret v) w in
  runId (world r) d = globalRunId (world r) /\
  ((globalRunId w < 2 ^ 53)%N ->
     globalRunId (world r) = (globalRunId w + 1)%N) /\
  (globalRunId w = (2 ^ 53)%N -> globalRunId (world r) = (2 ^ 53)%N).
Proof.
  intros r. subst r.
  destruct (trackDerivedFunction_reads_then kind onBecomeStale d cells w)
    as (w3 & Hbuf & _ & _ & _ & _ & _ & Hg3 & Hr3 & Hthen).
  rewrite (Hthen (ret v) (Returned v)) by (intros w0 _; reflexivity).
  destruct (bind_then_ret_world (bindDependencies kind onBecomeStale d)
              (Returned v) w3) as (Wok & _ & _).
  rewrite Wok.
  destruct (bound_world_run_ids d cells w3) as [Hrun Hglob].
  assert (Hids :
    runId (world (bindDependencies kind onBecomeStale d w3)) d =
      number_increment (globalRunId w) /\
    globalRunId (world (bindDependencies kind onBecomeStale d w3)) =
      number_increment (globalRunId w)).
  { rewrite (bindDependencies_run kind onBecomeStale d cells w3 Hbuf).
    cbv zeta. destruct (decide _); cbn [outcome world trace].
    - destruct (Hcallback (set_dependenciesState d
                  (lowest_new_state kind (dependenciesState w3)
                     UP_TO_DATE cells)
                  (bound_world d cells w3))) as [Hcr Hcg].
      rewrite Hcr, Hcg. simpl. rewrite Hrun, Hglob. split; assumption.
    - rewrite Hrun, Hglob. split; assumption. }
  destruct Hids as [Hr Hg]. rewrite Hr, Hg.
  split; [reflexivity|]. split.
  - intros Hlt. apply number_increment_exact, Hlt.
  - intros ->. apply number_increment_stuck.
Qed.

Lemma trackDerivedFunction_mints_run_id_witness :
  let r1 := trackDerivedFunction sample_kind quiet_onBecomeStale 20
              (do read_all [1] then ret 0%Z) idle_world in
  let r2 := trackDerivedFunction sample_kind quiet_onBecomeStale 21
              (do read_all [1] then ret 0%Z) (world r1) in
  let r3 := trackDerivedFunction sample_kind quiet_onBecomeStale 20
              (do read_all [1] then ret 0%Z) saturated_world in
  runId (world r2) 20 = 1%N /\ runId (world r2) 21 = 2%N /\
  globalRunId (world r2) = 2%N /\
  runId (world r3) 20 = (2 ^ 53)%N /\
  globalRunId (world r3) = globalRunId saturated_world.
Proof.
  intros r1 r2 r3.
  pose proof (trackDerivedFunction_mints_run_id sample_kind
                quiet_onBecomeStale 21 [1] 0%Z (world r1)
                (fun w0 => conj eq_refl eq_refl)) as (Hr & Hg & _).
  pose proof (trackDerivedFunction_mints_run_id sample_kind
                quiet_onBecomeStale 20 [1] 0%Z saturated_world
                (fun w0 => conj eq_refl eq_refl)) as (Hr3 & _ & Hg3).
  cbv zeta in Hr, Hg, Hr3, Hg3.
  assert (Hg2 : globalRunId (world r2) = 2%N).
  { etransitivity; [apply Hg; vm_compute; reflexivity|].
    vm_compute. reflexivity. }
  assert (Hg3' : globalRunId (world r3) = (2 ^ 53)%N)
    by (apply Hg3; reflexivity).
  split; [vm_compute; reflexivity|].
  split; [etransitivity; [exact Hr | exact Hg2]|].
  split; [exact Hg2|].
  split; [etransitivity; [exact Hr3 | exact Hg3']|].
  exact Hg3'.
Defined.

(** ** The bind step off the beaten path *)

Lemma bound_world_lists d rs w :
  observing (bound_world d rs w) =
    upd (observing w) d (kept_reads (diffValue w) rs) /\
  newObserving (bound_world d rs w) = upd (newObserving w) d None.
Proof.
  unfold bound_world.
  pose proof (run_pure_frame _ (subscribe_step_frame d)
                (kept_reads (diffValue w) rs)
                (run_pure (unsubscribe_step d) (observing w d)
                   (set_observing d (kept_reads (diffValue w) rs)
                      (mark_all rs (set_newObserving d None w))))) as F4.
  pose proof (run_pure_frame _ (unsubscribe_step_frame d) (observing w d)
                (set_observing d (kept_reads (diffValue w) rs)
                   (mark_all rs (set_newObserving d None w)))) as F3.
  pose proof (mark_all_frame rs (set_newObserving d None w)) as F1.
  destruct F1 as (_&_&G1&N1&_). destruct F3 as (_&_&G3&N3&_).
  destruct F4 as (_&_&G4&N4&_).
  cbv zeta. rewrite G4, G3, N4, N3. simpl. rewrite G1, N1.
  split; reflexivity.
Qed.

(** X20.  The bind step trusts the diff markers: on any heap, a cell
    whose marker is not 0 when the bind step starts is left out of the new
    dependency list, which is the ordered-unique sequence of the reads
    restricted to the cells with a neutral marker.  The callback is taken
    to leave dependency lists alone. *)
Theorem bindDependencies_drops_marked_cells
    (kind : Id -> NodeKind)
    (onBecomeStale : Id -> World -> Completion unit * World)
    (d : Id) (rs : list Id) (w : World)
    (Hbuf : buffer_holds w d rs)
    (Hcallback : forall w0,
       observing (snd (onBecomeStale d w0)) = observing w0) :
  observing (world (bindDependencies kind onBecomeStale d w)) d =
    filter (fun c => diffValue w c = 0%Z) (first_occurrences rs).
Proof.
  rewrite (bindDependencies_run kind onBecomeStale d rs w Hbuf). cbv zeta.
  destruct (bound_world_lists d rs w) as [Hobs _].
  destruct (decide _); cbn [outcome world trace].
  - rewrite Hcallback. simpl. rewrite Hobs, upd_eq.
    apply kept_reads_filter.
  - rewrite Hobs, upd_eq. apply kept_reads_filter.
Qed.

Lemma bindDependencies_drops_marked_cells_witness :
  observing
    (world (bindDependencies sample_kind quiet_onBecomeStale 20
              (set_diffValue 10 1 pending_world))) 20
  = [1; 11].
Proof.
  rewrite (bindDependencies_drops_marked_cells sample_kind
             quiet_onBecomeStale 20 [1; 10; 1; 11]
             (set_diffValue 10 1 pending_world)).
  - reflexivity.
  - exact pending_world_buffer.
  - intros w0. reflexivity.
Defined.

Lemma bindDependencies_without_buffer kind cb d w :
  newObserving w d = None ->
  bindDependencies kind cb d w =
    mkRes (Throw TypeError) (set_newObserving d None w) [].
Proof.
  intros Hnone. unfold bindDependencies.
  erewrite run_bind_normal by apply run_reads.
  erewrite run_bind_normal by apply run_reads.
  erewrite run_bind_normal by apply run_modify.
  cbn [outcome world trace app]. rewrite Hnone. reflexivity.
Qed.

(** X21.  derivation.ts does not guard against a derivation whose body
    evaluates the same derivation again: the inner evaluation binds and
    releases the buffer, and the bind step of the outer evaluation then
    fails with a TypeError on the released buffer.  The callback is taken
    to return normally and to leave buffers alone. *)
Theorem trackDerivedFunction_reentered
    (kind : Id -> NodeKind)
    (onBecomeStale : Id -> World -> Completion unit * World)
    (d : Id) (cells : list Id) (v v' : Val) (w : World)
    (Hreturns : forall w0, fst (onBecomeStale d w0) = Normal tt)
    (Hcallback : forall w0,
       newObserving (snd (onBecomeStale d w0)) = newObserving w0) :
  outcome
    (trackDerivedFunction kind onBecomeStale d
       (do trackDerivedFunction kind onBecomeStale d
             (do read_all cells then ret v)
        then ret v') w)
  = Throw TypeError.
Proof.
  destruct (trackDerivedFunction_any_body kind onBecomeStale d
              (do trackDerivedFunction kind onBecomeStale d
                    (do read_all cells then ret v)
               then ret v') w) as (w1 & Houter).
  destruct (trackDerivedFunction_reads_then kind onBecomeStale d cells w1)
    as (w3 & Hbuf & _ & _ & _ & _ & _ & _ & _ & Hthen).
  pose proof (Hthen (ret v) (Returned v) (fun w0 _ => eq_refl)) as Hinner.
  pose proof (bindDependencies_run kind onBecomeStale d cells w3 Hbuf)
    as Hbind.
  cbv zeta in Hbind.
  destruct (bound_world_lists d cells w3) as [_ Hnew].
  assert (Hin : exists wi,
            trackDerivedFunction kind onBecomeStale d
              (do read_all cells then ret v) w1 =
              mkRes (Normal (Returned v)) wi
                (trace (bindDependencies kind onBecomeStale d w3)) /\
            newObserving wi d = None).
  { destruct (decide (lowest_new_state kind (dependenciesState w3)
                        UP_TO_DATE cells <> UP_TO_DATE)) as [Hm|Hm].
    - eexists. split.
      + rewrite Hinner. unfold bindM at 1. rewrite Hbind.
        cbn [outcome world trace]. rewrite Hreturns.
        unfold ret. cbn [outcome world trace]. rewrite app_nil_r.
        reflexivity.
      + rewrite Hcallback. simpl. rewrite Hnew. apply upd_eq.
    - eexists. split.
      + rewrite Hinner. unfold bindM at 1. rewrite Hbind.
        unfold ret. cbn [outcome world trace]. reflexivity.
      + rewrite Hnew. apply upd_eq. }
  destruct Hin as (wi & Hrun_i & Hnone).
  rewrite (Houter (Returned v') wi
             (trace (bindDependencies kind onBecomeStale d w3))).
  - cbv zeta. cbn [outcome]. unfold bindM.
    rewrite bindDependencies_without_buffer by (simpl; exact Hnone).
    reflexivity.
  - unfold try_catch.
    assert (E1 : (do trackDerivedFunction kind onBecomeStale d
                       (do read_all cells then ret v)
                  then ret v') w1 =
                 mkRes (Normal v') wi
                   (trace (bindDependencies kind onBecomeStale d w3) ++ []))
      by (erewrite run_bind_normal by exact Hrun_i; reflexivity).
    erewrite run_bind_normal by exact E1.
    unfold ret. cbn [outcome world trace]. rewrite !app_nil_r. reflexivity.
Qed.

Lemma trackDerivedFunction_reentered_witness :
  outcome
    (trackDerivedFunction sample_kind quiet_onBecomeStale 20
       (do trackDerivedFunction sample_kind quiet_onBecomeStale 20
             (do read_all [1] then ret 0%Z)
        then ret 1%Z) idle_world)
  = Throw TypeError.
Proof.
  apply (trackDerivedFunction_reentered sample_kind quiet_onBecomeStale 20
           [1] 0%Z 1%Z idle_world).
  - intros w0. reflexivity.
  - intros w0. reflexivity.
Defined.

(** ** The subscription invariant along whole runs *)

Lemma well_formed_fields w w' :
  observers w' = observers w -> diffValue w' = diffValue w ->
  observing w' = observing w -> well_formed w -> well_formed w'.
Proof.
  intros Ho Hd Hg (H0 & Hnd & Hagree). split; [|split].
  - intros c. rewrite Hd. apply H0.
  - intros d. rewrite Hg. apply Hnd.
  - intros d c. rewrite Ho, Hg. apply Hagree.
Qed.

Lemma changeDependenciesStateTo0_well_formed d w :
  well_formed w -> well_formed (world (changeDependenciesStateTo0 d w)).
Proof.
  intros Hwf.
  destruct (changeDependenciesStateTo0_effect d w)
    as (w' & Hrun & (Ho & Hd & _ & Hg & _) & _).
  rewrite Hrun. exact (well_formed_fields w w' Ho Hd Hg Hwf).
Qed.

Lemma shouldCompute_scan_well_formed kind get d prev obs :
  (forall o w0, well_formed w0 -> well_formed (snd (get o w0))) ->
  forall todo i w,
    well_formed w ->
    well_formed (world (shouldCompute_scan kind get d prev obs i todo w)).
Proof.
  intros Hget. induction todo as [|todo IH]; intros i w Hwf.
  - simpl. unfold bindM, untrackedEnd, modify, ret.
    destruct (changeDependenciesStateTo0_effect d w)
      as (w' & Hrun & (Ho & Hd & _ & Hg & _) & _).
    rewrite Hrun. cbn [outcome world trace].
    exact (well_formed_fields w w' Ho Hd Hg Hwf).
  - destruct (obs !! i) as [obj|] eqn:Hc.
    + destruct (decide (kind obj = KComputedValue)) as [Hk|Hk].
      * pose proof (Hget obj w Hwf) as Hwf1.
        destruct (get obj w) as [[v|e] w1] eqn:Hgo; cbn [snd] in Hwf1.
        -- destruct (decide (dependenciesState w1 d = STALE)) as [Hs|Hs].
           ++ rewrite (scan_step_stale kind get d prev obs i todo obj w v w1
                         Hc Hk Hgo Hs).
              exact Hwf1.
           ++ rewrite (scan_step_quiet kind get d prev obs i todo obj w v w1
                         Hc Hk Hgo Hs).
              cbv zeta. cbn [world]. apply IH, Hwf1.
        -- rewrite (scan_step_throw kind get d prev obs i todo obj w e w1
                      Hc Hk Hgo).
           exact Hwf1.
      * rewrite (scan_step_skip kind get d prev obs i todo obj w Hc Hk).
        apply IH, Hwf.
    + simpl. rewrite Hc. apply IH, Hwf.
Qed.

Lemma shouldCompute_well_formed kind get d w :
  (forall o w0, well_formed w0 -> well_formed (snd (get o w0))) ->
  well_formed w -> well_formed (world (shouldCompute kind get d w)).
Proof.
  intros Hget Hwf.
  destruct (decide (dependenciesState w d = POSSIBLY_STALE)) as [Hs|Hs].
  - rewrite (shouldCompute_scan_entry kind get d w Hs).
    apply shouldCompute_scan_well_formed; [exact Hget | exact Hwf].
  - pose proof (shouldCompute_settled_run kind get d w Hs) as Hrun.
    rewrite Hrun. exact Hwf.
Qed.

Lemma trackDerivedFunction_well_formed kind cb d cells w :
  (forall d0 w0, well_formed w0 -> well_formed (snd (cb d0 w0))) ->
  well_formed w ->
  (forall v, well_formed
     (world (trackDerivedFunction kind cb d
               (do read_all cells then ret v) w))) /\
  (forall e, well_formed
     (world (trackDerivedFunction kind cb d
               (do read_all cells then throw e) w))).
Proof.
  intros Hcb Hwf.
  destruct (trackDerivedFunction_reads_run kind cb d cells w)
    as (w3 & Hbuf & Ho3 & Hd3 & Hg3 & _ & _ & Hok & Hex).
  pose proof (well_formed_fields w w3 Ho3 Hd3 Hg3 Hwf) as Hwf3.
  assert (Hbind : well_formed (world (bindDependencies kind cb d w3))).
  { rewrite (bindDependencies_run kind cb d cells w3 Hbuf). cbv zeta.
    destruct (decide _); cbn [world].
    - apply Hcb, well_formed_set_dependenciesState,
        bound_world_well_formed, Hwf3.
    - apply bound_world_well_formed, Hwf3. }
  split.
  - intros v. rewrite Hok.
    destruct (bind_then_ret_world (bindDependencies kind cb d)
                (Returned v) w3) as (W & _ & _).
    rewrite W. exact Hbind.
  - intros e. rewrite Hex.
    destruct (bind_then_ret_world (bindDependencies kind cb d)
                (CaughtException e) w3) as (W & _ & _).
    rewrite W. exact Hbind.
Qed.

(** X22.  The subscription invariant holds along every run.  Starting
    from a well-formed heap, after any sequence of evaluations (of bodies
    that read cells and return or throw), clearObserving, shouldCompute
    and changeDependenciesStateTo0 calls, on any derivations in any
    order, every diff marker is neutral, every dependency list is free of
    duplicates, and a derivation is among a cell's observers iff the cell
    is in the derivation's dependency list.  [get] and the callback are
    taken to keep a well-formed heap well formed. *)
Theorem reachable_well_formed
    (kind : Id -> NodeKind) (get : Id -> World -> Completion Val * World)
    (onBecomeStale : Id -> World -> Completion unit * World)
    (w0 w : World)
    (Hget : forall o w1, well_formed w1 -> well_formed (snd (get o w1)))
    (Hcallback : forall d w1,
       well_formed w1 -> well_formed (snd (onBecomeStale d w1)))
    (Hstart : well_formed w0)
    (Hreach : reachable_from kind get onBecomeStale w0 w) :
  well_formed w.
Proof.
  induction Hreach as [|w d cells v _ IH|w d cells e _ IH|w d _ IH
                       |w d _ IH|w d _ IH].
  - exact Hstart.
  - destruct (trackDerivedFunction_well_formed kind onBecomeStale d cells w
                Hcallback IH) as [Hret _].
    exact (Hret v).
  - destruct (trackDerivedFunction_well_formed kind onBecomeStale d cells w
                Hcallback IH) as [_ Hthrow].
    exact (Hthrow e).
  - apply clearObserving_well_formed, IH.
  - apply shouldCompute_well_formed; [exact Hget | exact IH].
  - apply changeDependenciesStateTo0_well_formed, IH.
Qed.

Lemma reachable_well_formed_witness :
  let w1 := world (trackDerivedFunction sample_kind quiet_onBecomeStale 20
                     (do read_all [1; 10; 1] then ret 0%Z) idle_world) in
  let w2 := world (trackDerivedFunction sample_kind quiet_onBecomeStale 21
                     (do read_all [10] then throw (Raised 1)) w1) in
  let w3 := world (clearObserving 20 w2) in
  (21 ∈ observers w3 10 <-> 10 ∈ observing w3 21) /\
  (20 ∈ observers w3 10 <-> 10 ∈ observing w3 20).
Proof.
  intros w1 w2 w3.
  assert (Hwf : well_formed w3).
  { apply (reachable_well_formed sample_kind
             (fun o w => (Normal 0%Z, w)) quiet_onBecomeStale idle_world w3).
    - intros o w Hw. exact Hw.
    - intros d w Hw. exact Hw.
    - exact idle_world_well_formed.
    - apply reach_clear, reach_evaluate_failing, reach_evaluate, reach_start. }
  destruct Hwf as (_ & _ & Hagree). split; apply Hagree.
Defined.

Lemma checkIfStateModificationsAreAllowed_decides_witness :
  outcome (checkIfStateModificationsAreAllowed sample_messages 1 idle_world)
    = Normal tt.
Proof.
  apply (checkIfStateModificationsAreAllowed_decides sample_messages 1
           idle_world).
  left. reflexivity.
Defined.
